(** * The swapchain back-buffer engine of VkShell (Shell.cpp)

    A shallow embedding of the back-buffer registry, the acquire-token
    pool, the acquire/present cycle and the swapchain lifecycle of
    [vk_video_decoder/libs/VkShell/Shell.cpp], with the properties its
    specification states about them.

    The Vulkan driver, the window system and the frame processor are
    outside the program: every call into them is a node of a program tree
    ([Prog]), answered by a [Driver] that the theorems quantify over, and
    recorded in a trace of events. *)

From stdpp Require Import base numbers option list gmap strings.

(** ** Vulkan values *)

(** [VkResult] is a signed 32-bit enumeration. *)
Definition VkResult := Z.
Definition VK_SUCCESS : VkResult := 0%Z.
Definition VK_ERROR_DEVICE_LOST : VkResult := (-4)%Z.
Definition VK_ERROR_OUT_OF_DATE_KHR : VkResult := (-1000001004)%Z.

(** Handles are opaque 64-bit values, [VK_NULL_HANDLE] is zero. *)
Definition VkHandle := N.
Definition VK_NULL_HANDLE : VkHandle := 0%N.

(** [(uint32_t)-1] and [UINT64_MAX]. *)
Definition UINT32_MAX : N := 4294967295%N.
Definition UINT64_MAX : N := 18446744073709551615%N.

Definition VK_IMAGE_USAGE_COLOR_ATTACHMENT_BIT : N := 16%N.
Definition VK_COMPOSITE_ALPHA_OPAQUE_BIT_KHR : N := 1%N.
Definition VK_COMPOSITE_ALPHA_INHERIT_BIT_KHR : N := 8%N.
Definition VK_PRESENT_MODE_IMMEDIATE_KHR : N := 0%N.
Definition VK_PRESENT_MODE_MAILBOX_KHR : N := 1%N.
Definition VK_PRESENT_MODE_FIFO_KHR : N := 2%N.
Definition VK_SHARING_MODE_EXCLUSIVE : N := 0%N.
Definition VK_SHARING_MODE_CONCURRENT : N := 1%N.
Definition VK_PIPELINE_STAGE_BOTTOM_OF_PIPE_BIT : N := 8192%N.

Record VkExtent2D := mkExtent { width : N; height : N }.

Record VkSurfaceFormatKHR := mkFormat { sf_format : N; sf_colorSpace : N }.

Record VkSurfaceCapabilitiesKHR := mkCaps {
  minImageCount : N;
  maxImageCount : N;
  currentExtent : VkExtent2D;
  minImageExtent : VkExtent2D;
  maxImageExtent : VkExtent2D;
  supportedTransforms : N;
  currentTransform : N;
  supportedCompositeAlpha : N;
  supportedUsageFlags : N
}.

(** The fields of [VkSwapchainCreateInfoKHR] that [resize_swapchain]
    fills in; [queueFamilyIndices] is empty when the count is left zero. *)
Record VkSwapchainCreateInfoKHR := mkSwapchainInfo {
  sci_surface : VkHandle;
  sci_minImageCount : N;
  sci_imageFormat : N;
  sci_imageColorSpace : N;
  sci_imageExtent : VkExtent2D;
  sci_imageArrayLayers : N;
  sci_imageUsage : N;
  sci_imageSharingMode : N;
  sci_queueFamilyIndices : list N;
  sci_preTransform : N;
  sci_compositeAlpha : N;
  sci_presentMode : N;
  sci_clipped : bool;
  sci_oldSwapchain : VkHandle
}.

(** ** Calls that leave the program *)

(** The Vulkan entry points and frame-processor callbacks that the modelled
    functions invoke, indexed by what comes back. An out-parameter is part
    of the answer. [GetSurfacePresentModes] is the helper
    [vk::get(physical_dev, surface, modes)]. The callbacks of the frame
    processor are taken not to call back into the shell: they leave [ctx_]
    as it is. *)
Inductive Extern : Type -> Type :=
| CreateSemaphore (dev : VkHandle) : Extern (VkResult * VkHandle)
| CreateFence (dev : VkHandle) : Extern (VkResult * VkHandle)
| DestroySemaphore (dev sem : VkHandle) : Extern unit
| DestroyFence (dev fence : VkHandle) : Extern unit
| DeviceWaitIdle (dev : VkHandle) : Extern VkResult
| DestroyDevice (dev : VkHandle) : Extern unit
| DestroySwapchainKHR (dev swapchain : VkHandle) : Extern unit
| DestroySurfaceKHR (instance surface : VkHandle) : Extern unit
| GetPhysicalDeviceSurfaceCapabilitiesKHR (phys surface : VkHandle)
    : Extern (VkResult * VkSurfaceCapabilitiesKHR)
| GetSurfacePresentModes (phys surface : VkHandle) : Extern (list N)
| CreateSwapchainKHR (dev : VkHandle) (info : VkSwapchainCreateInfoKHR)
    : Extern (VkResult * VkHandle)
| AcquireNextImageKHR (dev swapchain : VkHandle) (timeout : N)
    (sem fence : VkHandle) : Extern (VkResult * N)
| WaitForFences (dev fence : VkHandle) (waitAll : bool) (timeout : N)
    : Extern VkResult
| ResetFences (dev fence : VkHandle) : Extern VkResult
| QueuePresentKHR (queue waitSem swapchain : VkHandle) (imageIndex : N)
    : Extern VkResult
| QueueSubmit (queue waitSem : VkHandle) (stage : N) (signalSem : VkHandle)
    : Extern VkResult
| fp_attach_swapchain : Extern unit
| fp_detach_swapchain : Extern unit
| fp_detach_shell : Extern unit
| fp_on_frame (trainFrame : bool) : Extern unit.

Inductive Event : Type :=
| Ev {R : Type} (c : Extern R).

(** How a function can leave other than by returning. *)
Inductive Failure :=
| VkFailure (res : VkResult)   (* vk::assert_success rejected [res] *)
| AssertFailure                (* an assert() did not hold *)
| Undefined                    (* front() of an empty queue, a dangling or
                                  out-of-range access *)
| OutOfRange                   (* the current index is outside the registry *)
| LengthError.                 (* vector::resize with a negative count *)

Inductive Prog (A : Type) : Type :=
| Ret (a : A)
| Fail (e : Failure)
| Call {R : Type} (c : Extern R) (k : R -> Prog A).

Arguments Ret {A} a.
Arguments Fail {A} e.
Arguments Call {A R} c k.

Fixpoint bind {A B : Type} (p : Prog A) (f : A -> Prog B) : Prog B :=
  match p with
  | Ret a => f a
  | Fail e => Fail e
  | Call c k => Call c (fun r => bind (k r) f)
  end.

Definition call {R : Type} (c : Extern R) : Prog R := Call c Ret.

Definition assert (b : bool) : Prog unit :=
  if b then Ret tt else Fail AssertFailure.

(** [Prog] is a monad; the notations [x ← p; q] and [p;; q] are stdpp's. *)
#[global] Instance Prog_ret : MRet Prog := @Ret.
#[global] Instance Prog_bind : MBind Prog := fun A B f p => bind p f.

(** ** Running a program against a driver *)

Record Driver := mkDriver {
  world : Type;
  answer : forall R : Type, Extern R -> world -> R * world
}.

Inductive Outcome (A : Type) : Type :=
| Returned (a : A)
| Failed (e : Failure).

Arguments Returned {A} a.
Arguments Failed {A} e.

Record Run (D : Driver) (A : Type) := mkRun {
  outcome : Outcome A;
  final : world D;
  trace : list Event
}.

Arguments mkRun {D A} _ _ _.
Arguments outcome {D A} _.
Arguments final {D A} _.
Arguments trace {D A} _.

Fixpoint run {A : Type} (D : Driver) (p : Prog A) (w : world D) : Run D A :=
  match p with
  | Ret a => mkRun (Returned a) w []
  | Fail e => mkRun (Failed e) w []
  | Call c k =>
      let '(r, w1) := answer D _ c w in
      let rest := run D (k r) w1 in
      mkRun (outcome rest) (final rest) (Ev c :: trace rest)
  end.

(** ** The data of the engine *)

(** [Shell::AcquireBuffer]: the semaphore and fence handed to
    vkAcquireNextImageKHR, and the device they were created on. *)
Record AcquireBuffer := mkAcquireBuffer {
  semaphore_ : VkHandle;
  fence_ : VkHandle;
  ab_dev_ : VkHandle
}.

(** An [AcquireBuffer*] that is not null: the address of an object made by
    [new AcquireBuffer()]. A nullable pointer is an [option]. *)
Abbreviation AcquireBufferPtr := nat.

(** Modelled from the spec: the enumeration of [BackBuffer::state_], declared
    in Shell.h, which is not among the sources. Shell.cpp names only
    [BACK_BUFFER_INIT]; the spec gives the other three states as ACQUIRED
    (the prepare state), IN_SWAPCHAIN and CANCELED. *)
Inductive BackBufferState :=
| BACK_BUFFER_INIT
| BACK_BUFFER_PREPARE
| BACK_BUFFER_IN_SWAPCHAIN
| BACK_BUFFER_CANCELED.

#[global] Instance BackBufferState_eq_dec : EqDecision BackBufferState.
Proof. solve_decision. Defined.

(** [Shell::BackBuffer], with the members its constructor initialises. *)
Record BackBuffer := mkBackBuffer {
  imageIndex_ : N;
  acquireBuffer_ : option AcquireBufferPtr;
  renderSemaphore_ : VkHandle;
  state_ : BackBufferState;
  bb_dev_ : VkHandle
}.

(** The settings that the modelled functions read. [back_buffer_count] is
    an [int]. *)
Record Settings := mkSettings {
  back_buffer_count : Z;
  no_present : bool;
  vsync : bool
}.

(** [ctx_], the members that the modelled functions touch, and with them
    the free store holding the [AcquireBuffer] objects that the queue and
    the back buffers point to. *)
Record Context := mkContext {
  instance : VkHandle;
  physical_dev : VkHandle;
  dev : VkHandle;
  frameProcessor_queue_family : N;
  present_queue_family : N;
  frameProcessor_queue : VkHandle;
  present_queue : VkHandle;
  video_queue : VkHandle;
  surface : VkHandle;
  format : VkSurfaceFormatKHR;
  swapchain : VkHandle;
  extent : VkExtent2D;
  backBuffers_ : list BackBuffer;
  acquireBuffers_ : list AcquireBufferPtr;
  currentBackBuffer_ : N;
  acquiredFrameId : N;
  free_store : gmap nat AcquireBuffer
}.

Definition set_dev (v : VkHandle) (c : Context) : Context :=
  mkContext (instance c) (physical_dev c) v (frameProcessor_queue_family c)
    (present_queue_family c) (frameProcessor_queue c) (present_queue c)
    (video_queue c) (surface c) (format c) (swapchain c) (extent c)
    (backBuffers_ c) (acquireBuffers_ c) (currentBackBuffer_ c)
    (acquiredFrameId c) (free_store c).

Definition set_frameProcessor_queue (v : VkHandle) (c : Context) : Context :=
  mkContext (instance c) (physical_dev c) (dev c)
    (frameProcessor_queue_family c) (present_queue_family c) v
    (present_queue c) (video_queue c) (surface c) (format c)
    (swapchain c) (extent c) (backBuffers_ c) (acquireBuffers_ c)
    (currentBackBuffer_ c) (acquiredFrameId c) (free_store c).

Definition set_present_queue (v : VkHandle) (c : Context) : Context :=
  mkContext (instance c) (physical_dev c) (dev c)
    (frameProcessor_queue_family c) (present_queue_family c)
    (frameProcessor_queue c) v (video_queue c) (surface c) (format c)
    (swapchain c) (extent c) (backBuffers_ c) (acquireBuffers_ c)
    (currentBackBuffer_ c) (acquiredFrameId c) (free_store c).

Definition set_video_queue (v : VkHandle) (c : Context) : Context :=
  mkContext (instance c) (physical_dev c) (dev c)
    (frameProcessor_queue_family c) (present_queue_family c)
    (frameProcessor_queue c) (present_queue c) v (surface c) (format c)
    (swapchain c) (extent c) (backBuffers_ c) (acquireBuffers_ c)
    (currentBackBuffer_ c) (acquiredFrameId c) (free_store c).

Definition set_surface (v : VkHandle) (c : Context) : Context :=
  mkContext (instance c) (physical_dev c) (dev c)
    (frameProcessor_queue_family c) (present_queue_family c)
    (frameProcessor_queue c) (present_queue c) (video_queue c) v
    (format c) (swapchain c) (extent c) (backBuffers_ c)
    (acquireBuffers_ c) (currentBackBuffer_ c) (acquiredFrameId c)
    (free_store c).

Definition set_swapchain (v : VkHandle) (c : Context) : Context :=
  mkContext (instance c) (physical_dev c) (dev c)
    (frameProcessor_queue_family c) (present_queue_family c)
    (frameProcessor_queue c) (present_queue c) (video_queue c) (surface c)
    (format c) v (extent c) (backBuffers_ c) (acquireBuffers_ c)
    (currentBackBuffer_ c) (acquiredFrameId c) (free_store c).

Definition set_extent (v : VkExtent2D) (c : Context) : Context :=
  mkContext (instance c) (physical_dev c) (dev c)
    (frameProcessor_queue_family c) (present_queue_family c)
    (frameProcessor_queue c) (present_queue c) (video_queue c) (surface c)
    (format c) (swapchain c) v (backBuffers_ c) (acquireBuffers_ c)
    (currentBackBuffer_ c) (acquiredFrameId c) (free_store c).

Definition set_backBuffers_ (v : list BackBuffer) (c : Context) : Context :=
  mkContext (instance c) (physical_dev c) (dev c)
    (frameProcessor_queue_family c) (present_queue_family c)
    (frameProcessor_queue c) (present_queue c) (video_queue c) (surface c)
    (format c) (swapchain c) (extent c) v (acquireBuffers_ c)
    (currentBackBuffer_ c) (acquiredFrameId c) (free_store c).

Definition set_acquireBuffers_ (v : list AcquireBufferPtr) (c : Context) : Context :=
  mkContext (instance c) (physical_dev c) (dev c)
    (frameProcessor_queue_family c) (present_queue_family c)
    (frameProcessor_queue c) (present_queue c) (video_queue c) (surface c)
    (format c) (swapchain c) (extent c) (backBuffers_ c) v
    (currentBackBuffer_ c) (acquiredFrameId c) (free_store c).

Definition set_currentBackBuffer_ (v : N) (c : Context) : Context :=
  mkContext (instance c) (physical_dev c) (dev c)
    (frameProcessor_queue_family c) (present_queue_family c)
    (frameProcessor_queue c) (present_queue c) (video_queue c) (surface c)
    (format c) (swapchain c) (extent c) (backBuffers_ c)
    (acquireBuffers_ c) v (acquiredFrameId c) (free_store c).

Definition set_acquiredFrameId (v : N) (c : Context) : Context :=
  mkContext (instance c) (physical_dev c) (dev c)
    (frameProcessor_queue_family c) (present_queue_family c)
    (frameProcessor_queue c) (present_queue c) (video_queue c) (surface c)
    (format c) (swapchain c) (extent c) (backBuffers_ c)
    (acquireBuffers_ c) (currentBackBuffer_ c) v (free_store c).

Definition set_free_store (v : gmap nat AcquireBuffer) (c : Context) : Context :=
  mkContext (instance c) (physical_dev c) (dev c)
    (frameProcessor_queue_family c) (present_queue_family c)
    (frameProcessor_queue c) (present_queue c) (video_queue c) (surface c)
    (format c) (swapchain c) (extent c) (backBuffers_ c)
    (acquireBuffers_ c) (currentBackBuffer_ c) (acquiredFrameId c) v.

(** ** The functions of Shell.cpp *)

Section Shell.

(** Which results [vk::assert_success] lets through. The function is
    defined in VkCodecUtils/Helpers.h, which is not among the sources, so
    the policy is a parameter; a rejected result ends the calling function
    with [VkFailure]. *)
Variable accepts : VkResult -> bool.

(** [settings_], fixed when the shell is constructed. *)
Variable settings_ : Settings.

Definition assert_success (res : VkResult) : Prog VkResult :=
  if accepts res then Ret res else Fail (VkFailure res).

(** *** AcquireBuffer *)

(** [AcquireBuffer::AcquireBuffer()] *)
Definition AcquireBuffer_ctor : AcquireBuffer :=
  mkAcquireBuffer VK_NULL_HANDLE VK_NULL_HANDLE VK_NULL_HANDLE.

(** [AcquireBuffer::Create]: the object after the call, next to the
    returned [VK_SUCCESS]. *)
Definition AcquireBuffer_Create (a : AcquireBuffer) (d : VkHandle)
  : Prog (VkResult * AcquireBuffer) :=
  '(r, sem) ← call (CreateSemaphore d);
  assert_success r;;
  '(r, fence) ← call (CreateFence d);
  assert_success r;;
  Ret (VK_SUCCESS, mkAcquireBuffer sem fence d).

(** [AcquireBuffer::~AcquireBuffer()] *)
Definition AcquireBuffer_dtor (a : AcquireBuffer) : Prog unit :=
  (if (semaphore_ a =? VK_NULL_HANDLE)%N then Ret tt
   else call (DestroySemaphore (ab_dev_ a) (semaphore_ a)));;
  (if (fence_ a =? VK_NULL_HANDLE)%N then Ret tt
   else call (DestroyFence (ab_dev_ a) (fence_ a))).

(** [delete p]: the destructor runs and the object leaves the free store;
    a pointer to no live object is undefined behaviour. *)
Definition delete_AcquireBuffer (h : gmap nat AcquireBuffer)
    (p : AcquireBufferPtr) : Prog (gmap nat AcquireBuffer) :=
  match h !! p with
  | Some a => AcquireBuffer_dtor a;; Ret (delete p h)
  | None => Fail Undefined
  end.

(** *** BackBuffer *)

(** [BackBuffer::BackBuffer()] *)
Definition BackBuffer_ctor : BackBuffer :=
  mkBackBuffer 0 None VK_NULL_HANDLE BACK_BUFFER_INIT VK_NULL_HANDLE.

(** [BackBuffer::Create] *)
Definition BackBuffer_Create (b : BackBuffer) (d : VkHandle)
  : Prog (VkResult * BackBuffer) :=
  '(r, sem) ← call (CreateSemaphore d);
  assert_success r;;
  Ret (VK_SUCCESS,
       mkBackBuffer (imageIndex_ b) (acquireBuffer_ b) sem (state_ b) d).

(** [BackBuffer::~BackBuffer()]: the render semaphore goes, then the
    acquire buffer that the entry still holds. *)
Definition BackBuffer_dtor (h : gmap nat AcquireBuffer) (b : BackBuffer)
  : Prog (gmap nat AcquireBuffer) :=
  (if (renderSemaphore_ b =? VK_NULL_HANDLE)%N then Ret tt
   else call (DestroySemaphore (bb_dev_ b) (renderSemaphore_ b)));;
  match acquireBuffer_ b with
  | Some p => delete_AcquireBuffer h p
  | None => Ret h
  end.

(** Modelled from the spec: [BackBuffer::SetAcquireBuffer] of Shell.h, which
    is not among the sources. "Swaps in token as the entry's current
    AcquireToken and returns whatever was previously attached"; the entry
    records the image index and, being acquired, is in the prepare state. *)
Definition BackBuffer_SetAcquireBuffer (b : BackBuffer) (imageIndex : N)
    (acquireBuffer : AcquireBufferPtr)
  : option AcquireBufferPtr * BackBuffer :=
  (acquireBuffer_ b,
   mkBackBuffer imageIndex (Some acquireBuffer) (renderSemaphore_ b)
     BACK_BUFFER_PREPARE (bb_dev_ b)).

(** Modelled from the spec: [BackBuffer::GetAcquireSemaphore] of Shell.h,
    the semaphore of the attached token, the null handle when the entry has
    no token ("the current back buffer already has an attached token").
    [None] stands for a token that is not a live object. *)
Definition BackBuffer_GetAcquireSemaphore (h : gmap nat AcquireBuffer)
    (b : BackBuffer) : option VkHandle :=
  match acquireBuffer_ b with
  | Some p => semaphore_ <$> h !! p
  | None => Some VK_NULL_HANDLE
  end.

(** Modelled from the spec: the remaining accessors of [BackBuffer] in
    Shell.h: the present (render) semaphore, the image index, the test for
    the prepare state, and the two ways out of it, "CANCELED on present
    failure" and "IN_SWAPCHAIN (= presented)". *)
Definition BackBuffer_GetRenderSemaphore (b : BackBuffer) : VkHandle :=
  renderSemaphore_ b.

Definition BackBuffer_GetImageIndex (b : BackBuffer) : N := imageIndex_ b.

Definition BackBuffer_isInPrepareState (b : BackBuffer) : bool :=
  bool_decide (state_ b = BACK_BUFFER_PREPARE).

Definition BackBuffer_set_state (st : BackBufferState) (b : BackBuffer)
  : BackBuffer :=
  mkBackBuffer (imageIndex_ b) (acquireBuffer_ b) (renderSemaphore_ b) st
    (bb_dev_ b).

Definition BackBuffer_setBufferCanceled : BackBuffer -> BackBuffer :=
  BackBuffer_set_state BACK_BUFFER_CANCELED.

Definition BackBuffer_setBufferInSwapchain : BackBuffer -> BackBuffer :=
  BackBuffer_set_state BACK_BUFFER_IN_SWAPCHAIN.

(** Modelled from the spec: [Shell::GetCurrentBackBuffer] of Shell.h, the
    registry entry at [currentBackBuffer_]; "bounds-checked; out-of-range
    index is a programming error (fatal, not recoverable)". *)
Definition GetCurrentBackBuffer (c : Context) : Prog BackBuffer :=
  match backBuffers_ c !! N.to_nat (currentBackBuffer_ c) with
  | Some b => Ret b
  | None => Fail OutOfRange
  end.

(** *** Creation and destruction of the registry and the pool *)

(** The [for (auto &backBuffers : ctx_.backBuffers_)] loop of
    [create_back_buffers]. *)
Fixpoint create_each (d : VkHandle) (bs : list BackBuffer)
  : Prog (list BackBuffer) :=
  match bs with
  | [] => Ret []
  | b :: rest =>
      '(r, b') ← BackBuffer_Create b d;
      assert_success r;;
      rest' ← create_each d rest;
      Ret (b' :: rest')
  end.

(** The [for (int i = 0; i < (count + 1); i++)] loop of
    [create_back_buffers], [n] iterations left: [new] gives an address that
    no live object has, [Create] fills the object, [push] appends the
    pointer to the queue. *)
Fixpoint create_acquire_buffers (n : nat) (c : Context) : Prog Context :=
  match n with
  | O => Ret c
  | S n' =>
      let pAcquireBuffer := fresh (dom (free_store c)) in
      '(r, a) ← AcquireBuffer_Create AcquireBuffer_ctor (dev c);
      assert_success r;;
      create_acquire_buffers n'
        (set_acquireBuffers_ (acquireBuffers_ c ++ [pAcquireBuffer])
           (set_free_store (<[pAcquireBuffer := a]> (free_store c)) c))
  end.

(** Destructors of the entries of a vector, first to last. *)
Fixpoint destroy_each (h : gmap nat AcquireBuffer) (bs : list BackBuffer)
  : Prog (gmap nat AcquireBuffer) :=
  match bs with
  | [] => Ret h
  | b :: rest => h' ← BackBuffer_dtor h b; destroy_each h' rest
  end.

(** [ctx_.backBuffers_.resize(count)]. Entries beyond [count] are
    destroyed. When the vector has to grow, the entries that it holds move
    to new storage: each original is destroyed, which destroys its render
    semaphore and deletes its acquire buffer, while the entry that stays
    in the vector is its memberwise copy (Shell.cpp defines no other) and
    still names both; the missing entries are default-constructed. A
    vector that holds entries is taken to have no spare capacity, as after
    the [resize] that filled it. *)
Definition resize_back_buffers (count : Z) (c : Context) : Prog Context :=
  if (count <? 0)%Z then Fail LengthError
  else
    let n := Z.to_nat count in
    if length (backBuffers_ c) <? n then
      h ← destroy_each (free_store c) (backBuffers_ c);
      Ret (set_backBuffers_
             (backBuffers_ c
                ++ replicate (n - length (backBuffers_ c)) BackBuffer_ctor)
             (set_free_store h c))
    else
      h ← destroy_each (free_store c) (drop n (backBuffers_ c));
      Ret (set_backBuffers_ (take n (backBuffers_ c)) (set_free_store h c)).

(** [Shell::create_back_buffers]; [count] is an [int], taken without
    overflow. *)
Definition create_back_buffers (c : Context) : Prog Context :=
  let count := (back_buffer_count settings_ + 1)%Z in
  c ← resize_back_buffers count c;
  bs ← create_each (dev c) (backBuffers_ c);
  let c := set_backBuffers_ bs c in
  c ← create_acquire_buffers (Z.to_nat (count + 1)) c;
  Ret (set_currentBackBuffer_ 0%N c).

(** The [while (!ctx_.acquireBuffers_.empty())] loop of
    [destroy_back_buffers], over the queue front to back. *)
Fixpoint delete_each (h : gmap nat AcquireBuffer)
    (q : list AcquireBufferPtr) : Prog (gmap nat AcquireBuffer) :=
  match q with
  | [] => Ret h
  | pAcquireBuffer :: rest =>
      h' ← delete_AcquireBuffer h pAcquireBuffer; delete_each h' rest
  end.

(** [Shell::destroy_back_buffers] *)
Definition destroy_back_buffers (c : Context) : Prog Context :=
  h ← destroy_each (free_store c) (backBuffers_ c);
  let c := set_backBuffers_ [] (set_free_store h c) in
  h ← delete_each (free_store c) (acquireBuffers_ c);
  let c := set_acquireBuffers_ [] (set_free_store h c) in
  Ret (set_currentBackBuffer_ 0%N c).

(** *** The swapchain *)

(** [Shell::destroy_swapchain] *)
Definition destroy_swapchain (c : Context) : Prog Context :=
  c ← (if (swapchain c =? VK_NULL_HANDLE)%N then Ret c
       else
         call fp_detach_swapchain;;
         call (DestroySwapchainKHR (dev c) (swapchain c));;
         Ret (set_swapchain VK_NULL_HANDLE c));
  call (DestroySurfaceKHR (instance c) (surface c));;
  Ret (set_surface VK_NULL_HANDLE c).

(** [Shell::destroy_context] *)
Definition destroy_context (c : Context) : Prog Context :=
  if (dev c =? VK_NULL_HANDLE)%N then Ret c
  else
    call (DeviceWaitIdle (dev c));;
    c ← destroy_swapchain c;
    call fp_detach_shell;;
    c ← destroy_back_buffers c;
    let c := set_frameProcessor_queue VK_NULL_HANDLE c in
    let c := set_present_queue VK_NULL_HANDLE c in
    let c := set_video_queue VK_NULL_HANDLE c in
    call (DestroyDevice (dev c));;
    Ret (set_dev VK_NULL_HANDLE c).

(** The extent that [resize_swapchain] settles on: the platform's current
    extent, or the hints when its width is [(uint32_t)-1], then the two
    clamping if/else-if chains. *)
Definition resize_extent (caps : VkSurfaceCapabilitiesKHR)
    (width_hint height_hint : N) : VkExtent2D :=
  let e := currentExtent caps in
  let e := if (width e =? UINT32_MAX)%N then mkExtent width_hint height_hint
           else e in
  let e := if (width e <? width (minImageExtent caps))%N
           then mkExtent (width (minImageExtent caps)) (height e)
           else if (width (maxImageExtent caps) <? width e)%N
           then mkExtent (width (maxImageExtent caps)) (height e)
           else e in
  if (height e <? height (minImageExtent caps))%N
  then mkExtent (width e) (height (minImageExtent caps))
  else if (height (maxImageExtent caps) <? height e)%N
  then mkExtent (width e) (height (maxImageExtent caps))
  else e.

(** The image count: [back_buffer_count] converted to [uint32_t], clamped
    the same way. *)
Definition resize_image_count (caps : VkSurfaceCapabilitiesKHR) : N :=
  let image_count := Z.to_N (back_buffer_count settings_ mod 2 ^ 32) in
  if (image_count <? minImageCount caps)%N then minImageCount caps
  else if (maxImageCount caps <? image_count)%N then maxImageCount caps
  else image_count.

(** The [for (auto m : modes)] loop: the first mailbox mode under vsync,
    the first immediate mode without it, FIFO when there is none. *)
Fixpoint select_present_mode (modes : list N) : N :=
  match modes with
  | [] => VK_PRESENT_MODE_FIFO_KHR
  | m :: rest =>
      if (vsync settings_ && (m =? VK_PRESENT_MODE_MAILBOX_KHR)%N)
         || (negb (vsync settings_) && (m =? VK_PRESENT_MODE_IMMEDIATE_KHR)%N)
      then m
      else select_present_mode rest
  end.

Definition nonzero (flags : N) : bool := negb (flags =? 0)%N.

(** [Shell::resize_swapchain] *)
Definition resize_swapchain (c : Context) (width_hint height_hint : N)
  : Prog Context :=
  '(r, caps) ← call (GetPhysicalDeviceSurfaceCapabilitiesKHR
                       (physical_dev c) (surface c));
  assert_success r;;
  let new_extent := resize_extent caps width_hint height_hint in
  if (width (extent c) =? width new_extent)%N
     && (height (extent c) =? height new_extent)%N
  then Ret c
  else
    let image_count := resize_image_count caps in
    assert (nonzero (N.land (supportedUsageFlags caps)
                       VK_IMAGE_USAGE_COLOR_ATTACHMENT_BIT));;
    assert (nonzero (N.land (supportedTransforms caps)
                       (currentTransform caps)));;
    assert (nonzero (N.land (supportedCompositeAlpha caps)
                       (N.lor VK_COMPOSITE_ALPHA_OPAQUE_BIT_KHR
                          VK_COMPOSITE_ALPHA_INHERIT_BIT_KHR)));;
    let composite_alpha :=
      if nonzero (N.land (supportedCompositeAlpha caps)
                    VK_COMPOSITE_ALPHA_INHERIT_BIT_KHR)
      then VK_COMPOSITE_ALPHA_INHERIT_BIT_KHR
      else VK_COMPOSITE_ALPHA_OPAQUE_BIT_KHR in
    modes ← call (GetSurfacePresentModes (physical_dev c) (surface c));
    let mode := select_present_mode modes in
    let concurrent :=
      negb (frameProcessor_queue_family c =? present_queue_family c)%N in
    let swapchain_info :=
      mkSwapchainInfo (surface c) image_count (sf_format (format c))
        (sf_colorSpace (format c)) new_extent 1
        VK_IMAGE_USAGE_COLOR_ATTACHMENT_BIT
        (if concurrent then VK_SHARING_MODE_CONCURRENT
         else VK_SHARING_MODE_EXCLUSIVE)
        (if concurrent
         then [frameProcessor_queue_family c; present_queue_family c]
         else [])
        (currentTransform caps) composite_alpha mode true (swapchain c) in
    '(r, new_swapchain) ← call (CreateSwapchainKHR (dev c) swapchain_info);
    assert_success r;;
    let c := set_extent new_extent (set_swapchain new_swapchain c) in
    (if (sci_oldSwapchain swapchain_info =? VK_NULL_HANDLE)%N then Ret tt
     else
       call fp_detach_swapchain;;
       call (DeviceWaitIdle (dev c));;
       call (DestroySwapchainKHR (dev c) (sci_oldSwapchain swapchain_info)));;
    call fp_attach_swapchain;;
    Ret c.

(** *** The acquire/present cycle *)

(** [*p] for a pointer of the queue. *)
Definition deref (c : Context) (p : AcquireBufferPtr) : Prog AcquireBuffer :=
  match free_store c !! p with
  | Some a => Ret a
  | None => Fail Undefined
  end.

(** The test that opens [acquire_back_buffer]; [&&] evaluates its right
    operand only in no-present mode. *)
Definition acquired_once (c : Context) : Prog bool :=
  if no_present settings_ then
    back ← GetCurrentBackBuffer c;
    match BackBuffer_GetAcquireSemaphore (free_store c) back with
    | Some sem => Ret (negb (sem =? VK_NULL_HANDLE)%N)
    | None => Fail Undefined
    end
  else Ret false.

(** [Shell::acquire_back_buffer]. The queue holds only pointers that [new]
    returned, so [assert(acquireBuf != nullptr)] can only be reached with a
    pointer that is not null; [front()] of an empty queue is undefined. The
    assert on the image index guards the access to the registry. *)
Definition acquire_back_buffer (c : Context) (trainFrame : bool)
  : Prog Context :=
  skip ← acquired_once c;
  if skip : bool then Ret c
  else
    match acquireBuffers_ c with
    | [] => Fail Undefined
    | acquireBuf :: popped =>
        a ← deref c acquireBuf;
        '(r, imageIndex) ← call (AcquireNextImageKHR (dev c) (swapchain c)
                                   UINT64_MAX (semaphore_ a) (fence_ a));
        assert_success r;;
        match backBuffers_ c !! N.to_nat imageIndex with
        | None => Fail AssertFailure
        | Some back =>
            r ← call (WaitForFences (dev c) (fence_ a) true UINT64_MAX);
            assert_success r;;
            r ← call (ResetFences (dev c) (fence_ a));
            assert_success r;;
            let c := set_currentBackBuffer_ imageIndex c in
            let '(oldAcquireBuffer, back) :=
              BackBuffer_SetAcquireBuffer back imageIndex acquireBuf in
            let c := set_backBuffers_
                       (<[N.to_nat imageIndex := back]> (backBuffers_ c)) c in
            let c := set_acquireBuffers_ popped c in
            let c := match oldAcquireBuffer with
                     | Some old =>
                         set_acquireBuffers_ (acquireBuffers_ c ++ [old]) c
                     | None => c
                     end in
            Ret (set_acquiredFrameId (N.succ (acquiredFrameId c)) c)
        end
    end.

(** [Shell::fake_present]; the function is const on the back buffer and
    leaves [ctx_] as it is. *)
Definition fake_present (c : Context) : Prog unit :=
  back ← GetCurrentBackBuffer c;
  assert (BackBuffer_isInPrepareState back);;
  assert (no_present settings_);;
  match BackBuffer_GetAcquireSemaphore (free_store c) back with
  | None => Fail Undefined
  | Some acquireSem =>
      r ← call (QueueSubmit (frameProcessor_queue c)
                  (BackBuffer_GetRenderSemaphore back)
                  VK_PIPELINE_STAGE_BOTTOM_OF_PIPE_BIT acquireSem);
      assert_success r;;
      Ret tt
  end.

(** [back.f()] for the reference [back] to the current entry. *)
Definition update_current (f : BackBuffer -> BackBuffer) (c : Context)
  : Context :=
  set_backBuffers_
    (alter f (N.to_nat (currentBackBuffer_ c)) (backBuffers_ c)) c.

(** [Shell::present_back_buffer]; the message written to [std::cout] on an
    out-of-date surface is left out. *)
Definition present_back_buffer (c : Context) (trainFrame : bool)
  : Prog Context :=
  back ← GetCurrentBackBuffer c;
  assert (BackBuffer_isInPrepareState back);;
  call (fp_on_frame trainFrame);;
  if no_present settings_ then
    fake_present c;;
    Ret c
  else
    let imageIndex := BackBuffer_GetImageIndex back in
    res ← call (QueuePresentKHR (present_queue c)
                  (BackBuffer_GetRenderSemaphore back) (swapchain c)
                  imageIndex);
    if (res =? VK_ERROR_OUT_OF_DATE_KHR)%Z then
      Ret (update_current BackBuffer_setBufferCanceled c)
    else
      Ret (update_current BackBuffer_setBufferInSwapchain c).

(** The loop that drives the engine is in the platform shells, which are
    not among the sources. A sequence of calls into the engine, and the
    acquire-then-present cycles of the specification as one such sequence. *)
Inductive Op :=
| OpAcquire (trainFrame : bool)
| OpPresent (trainFrame : bool).

Definition step (c : Context) (op : Op) : Prog Context :=
  match op with
  | OpAcquire trainFrame => acquire_back_buffer c trainFrame
  | OpPresent trainFrame => present_back_buffer c trainFrame
  end.

Fixpoint steps (ops : list Op) (c : Context) : Prog Context :=
  match ops with
  | [] => Ret c
  | op :: rest => c ← step c op; steps rest c
  end.

Definition cycle_ops (frames : list bool) : list Op :=
  frames ≫= (fun trainFrame => [OpAcquire trainFrame; OpPresent trainFrame]).

Definition cycles (frames : list bool) (c : Context) : Prog Context :=
  steps (cycle_ops frames) c.

End Shell.

(** ** A scripted driver

    A driver for running the functions on concrete inputs: creation calls
    succeed with handles counted up from [next_handle], the image
    acquisitions and the presents answer from two scripts, the surface
    queries from fixed capabilities and modes. *)
Record Sim := mkSim {
  next_handle : N;
  acquire_script : list (VkResult * N);
  present_script : list VkResult;
  sim_caps : VkSurfaceCapabilitiesKHR;
  sim_modes : list N
}.

Definition sim_fresh (w : Sim) : VkHandle * Sim :=
  (next_handle w,
   mkSim (N.succ (next_handle w)) (acquire_script w) (present_script w)
     (sim_caps w) (sim_modes w)).

Definition sim_answer (R : Type) (c : Extern R) (w : Sim) : R * Sim :=
  match c in Extern R return R * Sim with
  | CreateSemaphore _ | CreateFence _ | CreateSwapchainKHR _ _ =>
      let '(h, w') := sim_fresh w in ((VK_SUCCESS, h), w')
  | DestroySemaphore _ _ | DestroyFence _ _ | DestroyDevice _
  | DestroySwapchainKHR _ _ | DestroySurfaceKHR _ _
  | fp_attach_swapchain | fp_detach_swapchain | fp_detach_shell
  | fp_on_frame _ => (tt, w)
  | DeviceWaitIdle _ | WaitForFences _ _ _ _ | ResetFences _ _
  | QueueSubmit _ _ _ _ => (VK_SUCCESS, w)
  | GetPhysicalDeviceSurfaceCapabilitiesKHR _ _ => ((VK_SUCCESS, sim_caps w), w)
  | GetSurfacePresentModes _ _ => (sim_modes w, w)
  | AcquireNextImageKHR _ _ _ _ _ =>
      match acquire_script w with
      | a :: rest =>
          (a, mkSim (next_handle w) rest (present_script w) (sim_caps w)
                (sim_modes w))
      | [] => ((VK_ERROR_DEVICE_LOST, 0%N), w)
      end
  | QueuePresentKHR _ _ _ _ =>
      match present_script w with
      | r :: rest =>
          (r, mkSim (next_handle w) (acquire_script w) rest (sim_caps w)
                (sim_modes w))
      | [] => (VK_SUCCESS, w)
      end
  end.

Definition sim : Driver := mkDriver Sim sim_answer.

(** [vk::assert_success] as one would expect it: only [VK_SUCCESS] passes. *)
Definition only_success (res : VkResult) : bool := (res =? VK_SUCCESS)%Z.

(** A context as [create_context] leaves it before the back buffers exist:
    a device, its queues, an empty registry and an empty pool. *)
Definition sample_caps : VkSurfaceCapabilitiesKHR :=
  (mkCaps 2 8 (mkExtent UINT32_MAX UINT32_MAX) (mkExtent 1 1)
     (mkExtent 4096 4096) 1 1 1 16)%N.

Definition sample_context : Context :=
  (mkContext 1 2 3 0 0 4 5 VK_NULL_HANDLE 6 (mkFormat 44 0) VK_NULL_HANDLE
     (mkExtent UINT32_MAX UINT32_MAX) [] [] 0 0 ∅)%N.

Definition sample_world : Sim :=
  mkSim 100%N [(VK_SUCCESS, 0%N); (VK_SUCCESS, 1%N); (VK_SUCCESS, 2%N);
             (VK_SUCCESS, 0%N); (VK_SUCCESS, 1%N)] [] sample_caps
    [VK_PRESENT_MODE_FIFO_KHR; VK_PRESENT_MODE_MAILBOX_KHR].

Definition sample_settings : Settings := mkSettings 2%Z false true.

(** ** What the specification talks about *)

(** The tokens that back buffers hold, in registry order, and the number of
    tokens in the pool. *)
Definition borrowed (c : Context) : list AcquireBufferPtr :=
  omap acquireBuffer_ (backBuffers_ c).

Definition available (c : Context) : nat := length (acquireBuffers_ c).

(** No token appears twice among the pool and the back buffers. *)
Definition tokens_unique (c : Context) : Prop :=
  NoDup (acquireBuffers_ c ++ borrowed c).

(** The entry that [currentBackBuffer_] designates. *)
Definition current_entry (c : Context) : option BackBuffer :=
  backBuffers_ c !! N.to_nat (currentBackBuffer_ c).

(** Clamping a value into the range from [lo] to [hi], as the specification
    words it. *)
Definition clamp (lo hi v : N) : N := N.max lo (N.min v hi).

(** Every value that a program can return satisfies [Q], whatever the
    driver answers. *)
Fixpoint post {A : Type} (p : Prog A) (Q : A -> Prop) : Prop :=
  match p with
  | Ret a => Q a
  | Fail _ => True
  | Call c k => forall r, post (k r) Q
  end.

(** Every call that a program can make satisfies [P]. *)
Fixpoint calls {A : Type} (P : Event -> Prop) (p : Prog A) : Prop :=
  match p with
  | Ret _ | Fail _ => True
  | Call c k => P (Ev c) /\ forall r, calls P (k r)
  end.

(** Kinds of events, for statements about their order. *)
Definition is_consumer_detach (e : Event) : bool :=
  match e with
  | Ev fp_detach_swapchain | Ev fp_detach_shell => true
  | _ => false
  end.

Definition is_wait_idle (e : Event) : bool :=
  match e with Ev (DeviceWaitIdle _) => true | _ => false end.

Definition is_acquire (e : Event) : bool :=
  match e with Ev (AcquireNextImageKHR _ _ _ _ _) => true | _ => false end.

Definition is_primitive_destroy (e : Event) : bool :=
  match e with
  | Ev (DestroySemaphore _ _) | Ev (DestroyFence _ _) | Ev (DestroyDevice _) =>
      true
  | _ => false
  end.

(** An event that is not a swapchain creation, or creates it with the
    extent [e]. *)
Definition created_with (ext : VkExtent2D) (e : Event) : Prop :=
  match e with
  | Ev (CreateSwapchainKHR _ info) => sci_imageExtent info = ext
  | _ => True
  end.

Definition primitive_destroy (e : Event) : Prop :=
  is_primitive_destroy e = true.

Definition not_acquire (e : Event) : Prop := is_acquire e = false.

(** No [Q] event comes before the first [P] event of the trace. *)
Fixpoint first_before (P Q : Event -> bool) (tr : list Event) : bool :=
  match tr with
  | [] => true
  | e :: rest => P e || (negb (Q e) && first_before P Q rest)
  end.

(** What a returning [acquire_back_buffer] does to the context: nothing,
    in no-present mode when the current entry already holds a token; or it
    takes the head of the queue, attaches it to the entry of the acquired
    image and appends the token that the entry held before, if any. *)
Inductive acquired (settings_ : Settings) (c c' : Context) : Prop :=
| acquired_once_only (back : BackBuffer) (token : AcquireBufferPtr) :
    no_present settings_ = true ->
    current_entry c = Some back ->
    acquireBuffer_ back = Some token ->
    c' = c ->
    acquired settings_ c c'
| acquired_next (head : AcquireBufferPtr) (popped : list AcquireBufferPtr)
    (imageIndex : N) (back : BackBuffer) :
    acquireBuffers_ c = head :: popped ->
    backBuffers_ c !! N.to_nat imageIndex = Some back ->
    acquireBuffers_ c' = popped ++ option_list (acquireBuffer_ back) ->
    backBuffers_ c' =
      <[N.to_nat imageIndex :=
          (BackBuffer_SetAcquireBuffer back imageIndex head).2]>
        (backBuffers_ c) ->
    currentBackBuffer_ c' = imageIndex ->
    acquiredFrameId c' = N.succ (acquiredFrameId c) ->
    acquired settings_ c c'.

(** What every sequence of calls keeps of the pool: uniqueness, the total
    number of tokens, the length of the registry; the back buffers never
    hold fewer tokens than before. *)
Definition pool_kept (c c' : Context) : Prop :=
  (tokens_unique c -> tokens_unique c') /\
  available c' + length (borrowed c') = available c + length (borrowed c) /\
  length (backBuffers_ c') = length (backBuffers_ c) /\
  length (borrowed c) <= length (borrowed c').

(** ** Sample runs

    The engine driven by the scripted driver: the registry and the pool
    are created, the swapchain is sized to 800 by 600, and one image is
    acquired, with presentation enabled and in no-present mode. *)
Definition returned_or {D : Driver} {A : Type} (d : A) (r : Run D A) : A :=
  match outcome r with
  | Returned a => a
  | Failed _ => d
  end.

Definition headless_settings : Settings := mkSettings 2%Z true true.

Definition run_created : Run sim Context :=
  Eval vm_compute in
    run sim (create_back_buffers only_success sample_settings sample_context)
      sample_world.

Definition sample_created : Context := returned_or sample_context run_created.

Definition run_resized : Run sim Context :=
  Eval vm_compute in
    run sim (resize_swapchain only_success sample_settings sample_created
               800%N 600%N) (final run_created).

Definition sample_resized : Context := returned_or sample_context run_resized.

Definition run_acquired : Run sim Context :=
  Eval vm_compute in
    run sim (acquire_back_buffer only_success sample_settings sample_resized
               true) (final run_resized).

Definition sample_acquired : Context :=
  returned_or sample_context run_acquired.

Definition run_headless_acquired : Run sim Context :=
  Eval vm_compute in
    run sim (acquire_back_buffer only_success headless_settings sample_resized
               true) (final run_resized).

Definition headless_acquired : Context :=
  returned_or sample_context run_headless_acquired.

Definition run_rebuilt : Run sim Context :=
  Eval vm_compute in
    run sim (resize_swapchain only_success sample_settings sample_acquired
               1024%N 768%N) (final run_acquired).

Definition sample_rebuilt : Context := returned_or sample_context run_rebuilt.

Definition run_cycled : Run sim Context :=
  Eval vm_compute in
    run sim (cycles only_success sample_settings
               [true; true; true; true; true] sample_resized)
      (final run_resized).

Definition sample_cycled : Context := returned_or sample_context run_cycled.

(** The entry and the token of the sample contexts after the first
    acquisition. *)
Definition sample_back : BackBuffer :=
  mkBackBuffer 0 (Some 0) 100%N BACK_BUFFER_PREPARE 3%N.

Definition sample_token : AcquireBuffer := mkAcquireBuffer 103%N 104%N 3%N.

(** Worlds in which the next present, or the next acquisition, answers
    out-of-date. *)
Definition world_present_out_of_date : Sim :=
  mkSim 200%N [] [VK_ERROR_OUT_OF_DATE_KHR] sample_caps [].

Definition world_acquire_out_of_date : Sim :=
  mkSim 200%N [(VK_ERROR_OUT_OF_DATE_KHR, 0%N)] [] sample_caps [].

(** Scenario A of the specification: creation with a back-buffer count of
    2, a first resize, five cycles. *)
Definition scenario_a : Prog Context :=
  c ← create_back_buffers only_success sample_settings sample_context;
  c ← resize_swapchain only_success sample_settings c 800%N 600%N;
  cycles only_success sample_settings [true; true; true; true; true] c.

(** ** Start-up: extensions, physical device, logical device, surface

    The functions that run before the first frame. Their calls into Vulkan
    are queries; what a query answered is an argument of the function
    here, and what the function writes to the console is left out. *)

(** A [std::runtime_error] with its message. *)
Inductive InitError :=
| runtime_error (what : string).

Definition VK_QUEUE_GRAPHICS_BIT : N := 1%N.
Definition VK_QUEUE_VIDEO_DECODE_BIT_KHR : N := 32%N.
Definition VK_VIDEO_CODEC_OPERATION_DECODE_H264_BIT_EXT : N := 1%N.
Definition VK_VIDEO_CODEC_OPERATION_DECODE_H265_BIT_EXT : N := 2%N.
Definition VK_FORMAT_A8B8G8R8_UNORM_PACK32 : N := 51%N.

(** The lists that [Shell::Shell] fills: the instance extensions and the
    device extensions. [linux] and [win32] stand for the preprocessor
    conditions, [video] for [frameProcessor.requires_vulkan_video()] and
    [validate] for [settings_.validate]. *)
Definition Shell_instance_extensions (validate : bool) : list string :=
  ["VK_KHR_surface"] ++ (if validate then ["VK_EXT_debug_report"] else []).

Definition Shell_device_extensions (linux win32 video : bool) : list string :=
  ["VK_KHR_swapchain"]
  ++ (if linux then ["VK_KHR_external_memory_fd"; "VK_KHR_external_fence_fd"]
      else [])
  ++ (if win32 then [] else ["VK_EXT_display_control"])
  ++ (if video
      then ["VK_EXT_ycbcr_2plane_444_formats"; "VK_KHR_synchronization2";
            "VK_KHR_video_queue"; "VK_KHR_video_decode_queue"]
      else []).

(** The loop [for (const auto &name : ...)] of
    [assert_all_instance_layers] and [assert_all_instance_extensions]:
    the first required name that was not enumerated ends it with an
    exception whose message is [what ++ name ++ " is missing"]. *)
Fixpoint require_all (what : string) (names : gset string)
    (required : list string) : InitError + unit :=
  match required with
  | [] => inr tt
  | name :: rest =>
      if decide (name ∈ names) then require_all what names rest
      else inl (runtime_error (what +:+ name +:+ " is missing"))
  end.

(** [Shell::assert_all_instance_layers], [layers] being the enumerated
    layer names. *)
Definition assert_all_instance_layers (instance_layers_ layers : list string)
  : InitError + unit :=
  require_all "instance layer " (list_to_set layers) instance_layers_.

(** [Shell::assert_all_instance_extensions], [exts] being the enumerated
    extension names. *)
Definition assert_all_instance_extensions
    (instance_extensions_ exts : list string) : InitError + unit :=
  require_all "instance extension " (list_to_set exts) instance_extensions_.

(** The loop of [has_all_device_extensions]. *)
Fixpoint all_found (names : gset string) (required : list string) : bool :=
  match required with
  | [] => true
  | name :: rest =>
      if decide (name ∈ names) then all_found names rest else false
  end.

(** [Shell::has_all_device_extensions], [exts] being the extension names
    enumerated for the physical device. *)
Definition has_all_device_extensions (device_extensions_ exts : list string)
  : bool :=
  all_found (list_to_set exts) device_extensions_.

(** What the queries of [init_physical_dev] answer for one physical
    device: its properties, its extensions, its queue families with their
    video capabilities (the two vectors that [vk::get] fills, entry by
    entry), and the platform's [can_present] for each family index. *)
Record QueueFamily := mkQueueFamily {
  queueFlags : N;
  videoCodecOperations : N
}.

Record PhysicalDevice := mkPhysicalDevice {
  phy : VkHandle;
  deviceID_of : N;
  extensions_of : list string;
  families_of : list QueueFamily;
  can_present : N -> bool
}.

(** What [init_physical_dev] writes into [ctx_]. *)
Record Selection := mkSelection {
  sel_physical_dev : VkHandle;
  sel_frameProcessor_queue_family : Z;
  sel_present_queue_family : Z;
  sel_video_decode_queue_family : Z
}.

Definition graphics_capable (q : QueueFamily) : bool :=
  nonzero (N.land (queueFlags q) VK_QUEUE_GRAPHICS_BIT).

Definition decode_capable (q : QueueFamily) : bool :=
  nonzero (N.land (queueFlags q) VK_QUEUE_VIDEO_DECODE_BIT_KHR)
  && nonzero (N.land (videoCodecOperations q)
                (N.lor VK_VIDEO_CODEC_OPERATION_DECODE_H264_BIT_EXT
                   VK_VIDEO_CODEC_OPERATION_DECODE_H265_BIT_EXT)).

(** The loop over the queue families of one device, from family [i] on,
    with the three indices found so far (-1 for none); it ends early once
    all three are found. The indices are [int]s that take the [uint32_t]
    counter; a device is taken to have fewer than 2^31 families, so that
    the conversion keeps the value. *)
Fixpoint scan_families (video : bool) (d : PhysicalDevice) (i : N)
    (queues : list QueueFamily)
    (frameProcessor_queue_family present_queue_family
       video_decode_queue_family : Z) : Z * Z * Z :=
  match queues with
  | [] => (frameProcessor_queue_family, present_queue_family,
           video_decode_queue_family)
  | q :: rest =>
      let f := if (frameProcessor_queue_family <? 0)%Z && graphics_capable q
               then Z.of_N i else frameProcessor_queue_family in
      let v := if video
               then if (video_decode_queue_family <? 0)%Z && decode_capable q
                    then Z.of_N i else video_decode_queue_family
               else video_decode_queue_family in
      let p := if (present_queue_family <? 0)%Z && can_present d i
               then Z.of_N i else present_queue_family in
      if (0 <=? f)%Z && (0 <=? p)%Z && (0 <=? v)%Z then (f, p, v)
      else scan_families video d (N.succ i) rest f p v
  end.

(** The loop over the physical devices: the first one that passes the
    device-id filter, has the device extensions and yields all three
    queue families. *)
Fixpoint select_physical_dev (video : bool) (device_extensions_ : list string)
    (deviceID : N) (phys : list PhysicalDevice) : option Selection :=
  match phys with
  | [] => None
  | d :: rest =>
      if nonzero deviceID && negb (deviceID_of d =? deviceID)%N
      then select_physical_dev video device_extensions_ deviceID rest
      else if negb (has_all_device_extensions device_extensions_
                      (extensions_of d))
      then select_physical_dev video device_extensions_ deviceID rest
      else
        let '(f, p, v) :=
          scan_families video d 0 (families_of d) (-1) (-1) (-1) in
        if (0 <=? f)%Z && (0 <=? p)%Z && (0 <=? v)%Z
        then Some (mkSelection (phy d) f p v)
        else select_physical_dev video device_extensions_ deviceID rest
  end.

(** [Shell::init_physical_dev]: [r] and [phys] are what enumerating the
    physical devices answered. *)
Definition init_physical_dev (accepts : VkResult -> bool) (video : bool)
    (device_extensions_ : list string) (deviceID : N) (r : VkResult)
    (phys : list PhysicalDevice) : Failure + (InitError + Selection) :=
  if accepts r then
    inr match select_physical_dev video device_extensions_ deviceID phys with
        | Some s =>
            if (sel_physical_dev s =? VK_NULL_HANDLE)%N
            then inl (runtime_error
                        "failed to find any capable Vulkan physical device")
            else inr s
        | None =>
            inl (runtime_error
                   "failed to find any capable Vulkan physical device")
        end
  else inl (VkFailure r).

(** An entry of [queue_info] in [create_dev]. *)
Record VkDeviceQueueCreateInfo := mkQueueInfo {
  dq_queueFamilyIndex : N;
  dq_queueCount : N
}.

(** The queue infos that [Shell::create_dev] hands to vkCreateDevice, in
    the order of the array, [queueCreateInfoCount] being the length.
    [queue_count] is [settings_.queue_count]; the three families are those
    of [ctx_], the decode family being [(uint32_t)-1] when there is
    none. *)
Definition create_dev_queue_info (queue_count : N)
    (frameProcessor_queue_family present_queue_family
       video_decode_queue_family : N) : list VkDeviceQueueCreateInfo :=
  [mkQueueInfo frameProcessor_queue_family queue_count]
  ++ (if (frameProcessor_queue_family =? present_queue_family)%N then []
      else [mkQueueInfo present_queue_family 1])
  ++ (if (video_decode_queue_family =? UINT32_MAX)%N then []
      else [mkQueueInfo video_decode_queue_family 1]).

Definition set_format (v : VkSurfaceFormatKHR) (c : Context) : Context :=
  mkContext (instance c) (physical_dev c) (dev c)
    (frameProcessor_queue_family c) (present_queue_family c)
    (frameProcessor_queue c) (present_queue c) (video_queue c) (surface c)
    v (swapchain c) (extent c) (backBuffers_ c) (acquireBuffers_ c)
    (currentBackBuffer_ c) (acquiredFrameId c) (free_store c).

(** [Shell::create_swapchain]: [created_surface] is what the platform's
    [create_surface] returned, [r] and [supported] what the query for
    surface support answered, [formats] the enumerated surface formats,
    [tegra] the preprocessor condition [NV_RMAPI_TEGRA]. Taking the first
    element of an empty vector is undefined. *)
Definition create_swapchain (accepts : VkResult -> bool) (tegra : bool)
    (c : Context) (created_surface : VkHandle) (r : VkResult)
    (supported : bool) (formats : list VkSurfaceFormatKHR)
  : Failure + Context :=
  let c := set_surface created_surface c in
  if (surface c =? VK_NULL_HANDLE)%N then inl AssertFailure
  else if negb (accepts r) then inl (VkFailure r)
  else if negb supported then inl AssertFailure
  else
    match formats with
    | [] => inl Undefined
    | first_format :: _ =>
        let c := set_format first_format c in
        let c := if tegra
                 then set_format
                        (mkFormat VK_FORMAT_A8B8G8R8_UNORM_PACK32
                           (sf_colorSpace (format c))) c
                 else c in
        let c := set_swapchain VK_NULL_HANDLE c in
        inr (set_extent (mkExtent UINT32_MAX UINT32_MAX) c)
    end.

(** [Shell::add_frameProcessor_time], over a type of floating-point
    numbers of which only the addition, the subtraction and the
    comparison that the function uses are taken. The result is the number
    of [on_tick] calls and the new [frameProcessor_time_]. *)
Section Ticks.

Variable float : Type.
Variable fadd fsub : float -> float -> float.
Variable fge : float -> float -> bool.

(** The [while] loop, [max_ticks] being its local counter. *)
Fixpoint tick_loop (max_ticks : nat) (frameProcessor_time_
    frameProcessor_tick_ : float) : nat * float :=
  match max_ticks with
  | O => (0, frameProcessor_time_)
  | S remaining =>
      if fge frameProcessor_time_ frameProcessor_tick_ then
        let '(ticks, t) :=
          tick_loop remaining
            (fsub frameProcessor_time_ frameProcessor_tick_)
            frameProcessor_tick_ in
        (S ticks, t)
      else (0, frameProcessor_time_)
  end.

Definition add_frameProcessor_time (no_tick : bool)
    (frameProcessor_time_ frameProcessor_tick_ time : float) : nat * float :=
  let frameProcessor_time_ :=
    if no_tick then frameProcessor_time_ else fadd frameProcessor_time_ time in
  tick_loop 3 frameProcessor_time_ frameProcessor_tick_.

End Ticks.

(** The index of the first queue family, counted from [i], that has the
    capability [P]; -1 when there is none. *)
Fixpoint first_family (P : N -> QueueFamily -> bool) (i : N)
    (queues : list QueueFamily) : Z :=
  match queues with
  | [] => (-1)%Z
  | q :: rest =>
      if P i q then Z.of_N i else first_family P (N.succ i) rest
  end.

(** Family [k] of the device is the first one with the capability [P]. *)
Definition first_with (P : N -> QueueFamily -> bool) (d : PhysicalDevice)
    (k : Z) : Prop :=
  (0 <= k)%Z /\
  (exists q, families_of d !! Z.to_nat k = Some q /\ P (Z.to_N k) q = true) /\
  forall j q, j < Z.to_nat k -> families_of d !! j = Some q ->
              P (N.of_nat j) q = false.

(** A device that [init_physical_dev] can select: it passes the device-id
    filter, offers the device extensions, video decoding is required, and
    it has a graphics, a presentable and a decoding queue family. *)
Definition eligible (video : bool) (device_extensions_ : list string)
    (deviceID : N) (d : PhysicalDevice) : bool :=
  negb (nonzero deviceID && negb (deviceID_of d =? deviceID)%N)
  && has_all_device_extensions device_extensions_ (extensions_of d)
  && video
  && (0 <=? first_family (fun _ q => graphics_capable q) 0 (families_of d))%Z
  && (0 <=? first_family (fun i _ => can_present d i) 0 (families_of d))%Z
  && (0 <=? first_family (fun _ q => decode_capable q) 0 (families_of d))%Z.

(** An index already found stays; otherwise the next candidate counts. *)
Definition keep_found (found next : Z) : Z :=
  if (found <? 0)%Z then next else found.

(** ** Further notions *)

(** An event that is not a swapchain creation, or creates it with an info
    that satisfies [P]. *)
Definition creates (P : VkSwapchainCreateInfoKHR -> Prop) (e : Event) : Prop :=
  match e with
  | Ev (CreateSwapchainKHR _ info) => P info
  | _ => True
  end.

(** The calls by which [resize_swapchain] replaces a chain: detaching and
    attaching the consumer, waiting for the device, destroying a chain. *)
Definition is_replacement (e : Event) : bool :=
  match e with
  | Ev fp_detach_swapchain | Ev fp_attach_swapchain | Ev (DeviceWaitIdle _)
  | Ev (DestroySwapchainKHR _ _) => true
  | _ => false
  end.

(** What [resize_swapchain] puts into the creation info, given the
    capabilities that the platform reported and the hints. *)
Definition requested (settings_ : Settings) (c : Context)
    (caps : VkSurfaceCapabilitiesKHR) (width_hint height_hint : N)
    (info : VkSwapchainCreateInfoKHR) : Prop :=
  sci_surface info = surface c /\
  sci_oldSwapchain info = swapchain c /\
  (if (frameProcessor_queue_family c =? present_queue_family c)%N
   then sci_imageSharingMode info = VK_SHARING_MODE_EXCLUSIVE /\
        sci_queueFamilyIndices info = []
   else sci_imageSharingMode info = VK_SHARING_MODE_CONCURRENT /\
        sci_queueFamilyIndices info =
          [frameProcessor_queue_family c; present_queue_family c]) /\
  sci_imageUsage info = VK_IMAGE_USAGE_COLOR_ATTACHMENT_BIT /\
  N.land (supportedUsageFlags caps) (sci_imageUsage info) <> 0%N /\
  sci_preTransform info = currentTransform caps /\
  N.land (supportedTransforms caps) (sci_preTransform info) <> 0%N /\
  sci_compositeAlpha info =
    (if nonzero (N.land (supportedCompositeAlpha caps)
                   VK_COMPOSITE_ALPHA_INHERIT_BIT_KHR)
     then VK_COMPOSITE_ALPHA_INHERIT_BIT_KHR
     else VK_COMPOSITE_ALPHA_OPAQUE_BIT_KHR) /\
  N.land (supportedCompositeAlpha caps) (sci_compositeAlpha info) <> 0%N /\
  sci_minImageCount info = resize_image_count settings_ caps /\
  sci_imageExtent info = resize_extent caps width_hint height_hint /\
  sci_imageFormat info = sf_format (format c) /\
  sci_imageColorSpace info = sf_colorSpace (format c).

(** A program returns, whatever the driver answers, and what it returns
    satisfies [Q]. *)
Fixpoint total {A : Type} (p : Prog A) (Q : A -> Prop) : Prop :=
  match p with
  | Ret a => Q a
  | Fail _ => False
  | Call c k => forall r, total (k r) Q
  end.

(** A program does not end in a failure that is [bad]. *)
Fixpoint never {A : Type} (bad : Failure -> Prop) (p : Prog A) : Prop :=
  match p with
  | Ret _ => True
  | Fail e => ~ bad e
  | Call c k => forall r, never bad (k r)
  end.

(** Every token of the pool and of the back buffers is a live object. *)
Definition tokens_live (c : Context) : Prop :=
  forall p, p ∈ acquireBuffers_ c ++ borrowed c ->
            is_Some (free_store c !! p).

(** A pool that holds more tokens, together with the back buffers, than
    there are back buffers is not empty. *)
Definition pool_spare (c : Context) : Prop :=
  length (backBuffers_ c) < available c + length (borrowed c).

(** ** Further sample runs *)

(** Capabilities that support no image usage, and capabilities whose
    largest image count is zero. *)
Definition caps_no_usage : VkSurfaceCapabilitiesKHR :=
  (mkCaps 2 8 (mkExtent UINT32_MAX UINT32_MAX) (mkExtent 1 1)
     (mkExtent 4096 4096) 1 1 1 0)%N.

Definition caps_zero_max : VkSurfaceCapabilitiesKHR :=
  (mkCaps 1 0 (mkExtent UINT32_MAX UINT32_MAX) (mkExtent 1 1)
     (mkExtent 4096 4096) 1 1 1 16)%N.

Definition world_no_usage : Sim := mkSim 100%N [] [] caps_no_usage [].

Definition world_zero_max : Sim := mkSim 100%N [] [] caps_zero_max [].

(** The first resize on the platform whose largest image count is zero. *)
Definition run_zero_max : Run sim Context :=
  Eval vm_compute in
    run sim (resize_swapchain only_success sample_settings sample_created
               800%N 600%N) world_zero_max.

Definition sample_zero_max : Context :=
  returned_or sample_context run_zero_max.

(** Two acquire and present cycles right after creation, the destruction
    of the registry and the pool after them, and the destruction of the
    context after the first acquisition. *)
Definition run_used : Run sim Context :=
  Eval vm_compute in
    run sim (steps only_success sample_settings (cycle_ops [true; false])
               sample_created) (final run_created).

Definition sample_used : Context := returned_or sample_context run_used.

Definition run_destroyed : Run sim Context :=
  Eval vm_compute in
    run sim (destroy_context sample_acquired) (final run_acquired).

Definition sample_destroyed : Context :=
  returned_or sample_context run_destroyed.

(** Two physical devices: one with a graphics family only and without the
    video extensions, one with a graphics family and a family that decodes
    and presents. *)
Definition sample_devices : list PhysicalDevice :=
  [mkPhysicalDevice 11%N 7%N ["VK_KHR_swapchain"] [mkQueueFamily 1 0]
     (fun _ => true);
   mkPhysicalDevice 12%N 8%N (Shell_device_extensions true false true)
     [mkQueueFamily 1 0; mkQueueFamily 32 3] (fun i => (i =? 1)%N)].

(** ** Proof steps *)

(** Name the driver's answer to the call that the run has reached. *)
Ltac answer_step :=
  match goal with
  | |- context [answer ?D ?R ?c ?w] =>
      let r := fresh "r" in
      let w' := fresh "w" in
      let E := fresh "E" in
      destruct (answer D R c w) as [r w'] eqn:E; simpl
  end.

(** A [calls] goal on a program that is spelled out. *)
Ltac calls_here := cbn; repeat (split || intro); done.

#[local] Arguments destroy_back_buffers : simpl never.

(** ** Programs and their runs *)

Lemma bind_eq {A B : Type} (p : Prog A) (f : A -> Prog B) :
  p ≫= f = bind p f.
Proof. reflexivity. Qed.

Lemma run_bind {A B : Type} (D : Driver) (p : Prog A) (f : A -> Prog B)
    (w : world D) :
  run D (p ≫= f) w =
  match outcome (run D p w) with
  | Returned a =>
      let r2 := run D (f a) (final (run D p w)) in
      mkRun (outcome r2) (final r2) (trace (run D p w) ++ trace r2)
  | Failed e => mkRun (Failed e) (final (run D p w)) (trace (run D p w))
  end.
Proof.
  rewrite bind_eq. revert w.
  induction p as [a | e | R c k IH]; intros w; simpl.
  - by destruct (run D (f a) w).
  - done.
  - destruct (answer D R c w) as [r w1]; simpl.
    rewrite IH. by destruct (outcome (run D (k r) w1)).
Qed.

Lemma post_bind {A B : Type} (p : Prog A) (f : A -> Prog B) (Q : B -> Prop) :
  post p (fun a => post (f a) Q) -> post (p ≫= f) Q.
Proof.
  rewrite bind_eq. induction p as [a | e | R c k IH]; simpl; auto.
Qed.

Lemma post_mono {A : Type} (p : Prog A) (Q Q' : A -> Prop) :
  (forall a, Q a -> Q' a) -> post p Q -> post p Q'.
Proof. intros HQ. induction p; simpl; auto. Qed.

Lemma post_run {A : Type} (D : Driver) (p : Prog A) (Q : A -> Prop)
    (w : world D) (a : A) :
  post p Q -> outcome (run D p w) = Returned a -> Q a.
Proof.
  revert w. induction p as [a' | e | R c k IH]; intros w; simpl.
  - by intros HQ [= <-].
  - done.
  - intros HQ. destruct (answer D R c w) as [r w1]; simpl. by apply IH.
Qed.

Lemma calls_bind {A B : Type} (P : Event -> Prop) (p : Prog A)
    (f : A -> Prog B) :
  calls P p -> (forall a, calls P (f a)) -> calls P (p ≫= f).
Proof.
  rewrite bind_eq. intros Hp Hf.
  induction p as [a | e | R c k IH]; simpl in *; auto.
  destruct Hp as [Hc Hk]. split; auto.
Qed.

Lemma calls_run {A : Type} (D : Driver) (P : Event -> Prop) (p : Prog A)
    (w : world D) :
  calls P p -> Forall P (trace (run D p w)).
Proof.
  revert w. induction p as [a | e | R c k IH]; intros w; simpl; auto.
  intros [Hc Hk]. destruct (answer D R c w) as [r w1]; simpl.
  constructor; auto.
Qed.

(** ** The swapchain lifecycle *)

(** C9. Calling [destroy_swapchain] a second time right after the first:
    the first call returns with the swapchain and surface handles null; on
    that context the second call returns the context as it is, and its only
    call is the surface destruction on the null handle (no consumer detach,
    no chain destruction). *)
Theorem destroy_swapchain_twice (D : Driver) (c : Context) (w : world D) :
  exists c1,
    outcome (run D (destroy_swapchain c) w) = Returned c1 /\
    swapchain c1 = VK_NULL_HANDLE /\
    surface c1 = VK_NULL_HANDLE /\
    forall w' : world D,
      outcome (run D (destroy_swapchain c1) w') = Returned c1 /\
      trace (run D (destroy_swapchain c1) w') =
        [Ev (DestroySurfaceKHR (instance c) VK_NULL_HANDLE)].
Proof.
  unfold destroy_swapchain.
  destruct (swapchain c =? VK_NULL_HANDLE)%N eqn:Hsc; cbn.
  - apply N.eqb_eq in Hsc.
    exists (set_surface VK_NULL_HANDLE c). repeat answer_step.
    repeat split; auto. 
    all: rewrite Hsc; cbn; by answer_step.
  - exists (set_surface VK_NULL_HANDLE (set_swapchain VK_NULL_HANDLE c)).
    repeat answer_step. repeat split; auto; by answer_step.
Qed.

(** ** Presentation *)

Section Present.

Context (accepts : VkResult -> bool) (settings_ : Settings).

Lemma current_entry_update (f : BackBuffer -> BackBuffer) (c : Context) :
  current_entry (update_current f c) = f <$> current_entry c.
Proof. unfold current_entry, update_current; cbn. apply list_lookup_alter_eq. Qed.

(** C2. With presentation enabled and the current back buffer in the
    prepare state, [present_back_buffer] returns; the current entry is
    CANCELED when the present call answers out-of-date, and IN_SWAPCHAIN
    for every other answer. The current index and the pool stay. *)
Theorem present_back_buffer_transition (D : Driver) (c : Context)
    (trainFrame : bool) (w : world D) (back : BackBuffer) :
  no_present settings_ = false ->
  current_entry c = Some back ->
  state_ back = BACK_BUFFER_PREPARE ->
  let w1 := (answer D _ (fp_on_frame trainFrame) w).2 in
  let res := (answer D _ (QueuePresentKHR (present_queue c)
                            (renderSemaphore_ back) (swapchain c)
                            (imageIndex_ back)) w1).1 in
  exists c',
    outcome (run D (present_back_buffer accepts settings_ c trainFrame) w)
      = Returned c' /\
    currentBackBuffer_ c' = currentBackBuffer_ c /\
    acquireBuffers_ c' = acquireBuffers_ c /\
    state_ <$> current_entry c' =
      Some (if decide (res = VK_ERROR_OUT_OF_DATE_KHR)
            then BACK_BUFFER_CANCELED else BACK_BUFFER_IN_SWAPCHAIN).
Proof.
  intros Hnp Hcur Hst.
  unfold present_back_buffer, GetCurrentBackBuffer.
  unfold current_entry in Hcur. rewrite Hcur, Hnp. cbn.
  unfold BackBuffer_isInPrepareState. rewrite Hst.
  rewrite bool_decide_true by done. cbn.
  unfold BackBuffer_GetRenderSemaphore, BackBuffer_GetImageIndex.
  destruct (answer D _ (fp_on_frame trainFrame) w) as [[] w1]; cbn.
  destruct (answer D _ (QueuePresentKHR _ _ _ _) w1) as [res w2]; cbn.
  destruct (res =? VK_ERROR_OUT_OF_DATE_KHR)%Z eqn:Hres; cbn;
    eexists; (split; [reflexivity |]); repeat split; auto;
    rewrite current_entry_update; unfold current_entry; rewrite Hcur; cbn;
    f_equal.
  - apply Z.eqb_eq in Hres. by rewrite decide_True.
  - apply Z.eqb_neq in Hres. by rewrite decide_False.
Qed.

(** C10. In no-present mode, with the current back buffer in the prepare
    state, [present_back_buffer] goes through [fake_present] and changes
    nothing: a context it returns is the one it was given, so the current
    entry is still in the prepare state (neither IN_SWAPCHAIN nor
    CANCELED), and the pool and the current index are the same. Its calls
    are the frame callback and one queue submission, and it returns
    whenever the token is a live object and the submission's result is
    accepted. *)
Theorem fake_present_changes_nothing (D : Driver) (c : Context)
    (trainFrame : bool) (w : world D) (back : BackBuffer) :
  no_present settings_ = true ->
  current_entry c = Some back ->
  state_ back = BACK_BUFFER_PREPARE ->
  let r := run D (present_back_buffer accepts settings_ c trainFrame) w in
  (forall c', outcome r = Returned c' ->
     c' = c /\
     state_ <$> current_entry c' = Some BACK_BUFFER_PREPARE /\
     acquireBuffers_ c' = acquireBuffers_ c /\
     currentBackBuffer_ c' = currentBackBuffer_ c) /\
  (forall sem,
     BackBuffer_GetAcquireSemaphore (free_store c) back = Some sem ->
     let w1 := (answer D _ (fp_on_frame trainFrame) w).2 in
     let submit := QueueSubmit (frameProcessor_queue c) (renderSemaphore_ back)
                     VK_PIPELINE_STAGE_BOTTOM_OF_PIPE_BIT sem in
     trace r = [Ev (fp_on_frame trainFrame); Ev submit] /\
     (accepts (answer D _ submit w1).1 = true -> outcome r = Returned c)).
Proof.
  intros Hnp Hcur Hst.
  unfold present_back_buffer, fake_present, GetCurrentBackBuffer.
  unfold current_entry in Hcur. rewrite Hcur, Hnp. cbn.
  unfold BackBuffer_isInPrepareState. rewrite Hst.
  rewrite bool_decide_true by done. cbn.
  unfold BackBuffer_GetRenderSemaphore, assert_success.
  destruct (answer D _ (fp_on_frame trainFrame) w) as [[] w1]; cbn.
  destruct (BackBuffer_GetAcquireSemaphore (free_store c) back)
    as [sem |]; cbn.
  - destruct (answer D _ (QueueSubmit _ _ _ _) w1) as [res w2] eqn:E; cbn.
    destruct (accepts res) eqn:Hacc; cbn; split.
    + intros c' [= <-]. unfold current_entry. rewrite Hcur; cbn.
      by rewrite Hst.
    + by intros ? [= <-].
    + done.
    + intros ? [= <-]. rewrite E; cbn. split; [done | congruence].
  - by split.
Qed.

End Present.


(** ** Resizing *)

Section Resize.

Context (accepts : VkResult -> bool) (settings_ : Settings).

Lemma extent_eqb (e1 e2 : VkExtent2D) :
  (width e1 =? width e2)%N && (height e1 =? height e2)%N = true <-> e1 = e2.
Proof.
  destruct e1, e2; cbn. rewrite andb_true_iff, !N.eqb_eq.
  split; [intros [-> ->] | intros [= -> ->]]; done.
Qed.

(** The code's if/else-if chain is the clamp of the specification as soon
    as the range is not empty. *)
Lemma clamp_chain (lo hi v : N) :
  (lo <= hi)%N ->
  (if (v <? lo)%N then lo else if (hi <? v)%N then hi else v) = clamp lo hi v.
Proof.
  intros Hle. unfold clamp.
  destruct (N.ltb_spec v lo); [lia |]. destruct (N.ltb_spec hi v); lia.
Qed.

Lemma resize_extent_undefined (caps : VkSurfaceCapabilitiesKHR)
    (width_hint height_hint : N) :
  width (currentExtent caps) = UINT32_MAX ->
  (width (minImageExtent caps) <= width (maxImageExtent caps))%N ->
  (height (minImageExtent caps) <= height (maxImageExtent caps))%N ->
  resize_extent caps width_hint height_hint =
    mkExtent
      (clamp (width (minImageExtent caps)) (width (maxImageExtent caps))
         width_hint)
      (clamp (height (minImageExtent caps)) (height (maxImageExtent caps))
         height_hint).
Proof.
  intros Hundef Hw Hh. unfold resize_extent.
  rewrite Hundef, N.eqb_refl; cbn.
  rewrite <- (clamp_chain _ _ width_hint Hw).
  rewrite <- (clamp_chain _ _ height_hint Hh).
  repeat (case_match; cbn in *; try done).
Qed.

(** Whatever [resize_swapchain] returns carries the extent that the call
    settled on, and a swapchain it creates is created with that extent. *)
Lemma resize_swapchain_extent (D : Driver) (c : Context)
    (width_hint height_hint : N) (w w1 : world D) (r : VkResult)
    (caps : VkSurfaceCapabilitiesKHR) (c' : Context) :
  answer D _ (GetPhysicalDeviceSurfaceCapabilitiesKHR (physical_dev c)
                (surface c)) w = ((r, caps), w1) ->
  outcome (run D (resize_swapchain accepts settings_ c width_hint height_hint)
             w) = Returned c' ->
  extent c' = resize_extent caps width_hint height_hint /\
  Forall (created_with (resize_extent caps width_hint height_hint))
    (trace (run D (resize_swapchain accepts settings_ c width_hint
                     height_hint) w)).
Proof.
  intros E. unfold resize_swapchain, assert_success. cbn. rewrite E; cbn.
  destruct (accepts r); cbn; [| done].
  destruct (_ && _) eqn:Hsame; cbn.
  - intros [= <-]. split; [by apply extent_eqb |].
    repeat constructor.
  - destruct (nonzero (N.land (supportedUsageFlags caps) _)); cbn; [| done].
    destruct (nonzero (N.land (supportedTransforms caps) _)); cbn; [| done].
    destruct (nonzero (N.land _ (N.lor _ _))); cbn; [| done].
    destruct (answer D _ (GetSurfacePresentModes _ _) w1) as [modes w2]; cbn.
    destruct (answer D _ (CreateSwapchainKHR _ _) w2) as [[r2 sc] w3]; cbn.
    destruct (accepts r2); cbn; [| done].
    destruct (swapchain c =? VK_NULL_HANDLE)%N; cbn.
    + destruct (answer D _ fp_attach_swapchain w3) as [[] w4]; cbn.
      intros [= <-]. split; [done |]. repeat constructor.
    + destruct (answer D _ fp_detach_swapchain w3) as [[] w4]; cbn.
      destruct (answer D _ (DeviceWaitIdle _) w4) as [r5 w5]; cbn.
      destruct (answer D _ (DestroySwapchainKHR _ _) w5) as [[] w6]; cbn.
      destruct (answer D _ fp_attach_swapchain w6) as [[] w7]; cbn.
      intros [= <-]. split; [done |]. repeat constructor.
Qed.

(** C7. When the platform reports an undefined current extent (width
    [(uint32_t)-1]) and its extent range is not empty, the context that
    [resize_swapchain] returns has the hints clamped componentwise into
    that range as its extent, and a swapchain created by the call is
    created with that extent. *)
Theorem resize_swapchain_clamps_hints (D : Driver) (c : Context)
    (width_hint height_hint : N) (w w1 : world D) (r : VkResult)
    (caps : VkSurfaceCapabilitiesKHR) (c' : Context) :
  answer D _ (GetPhysicalDeviceSurfaceCapabilitiesKHR (physical_dev c)
                (surface c)) w = ((r, caps), w1) ->
  width (currentExtent caps) = UINT32_MAX ->
  (width (minImageExtent caps) <= width (maxImageExtent caps))%N ->
  (height (minImageExtent caps) <= height (maxImageExtent caps))%N ->
  outcome (run D (resize_swapchain accepts settings_ c width_hint height_hint)
             w) = Returned c' ->
  let clamped :=
    mkExtent
      (clamp (width (minImageExtent caps)) (width (maxImageExtent caps))
         width_hint)
      (clamp (height (minImageExtent caps)) (height (maxImageExtent caps))
         height_hint) in
  extent c' = clamped /\
  Forall (created_with clamped)
    (trace (run D (resize_swapchain accepts settings_ c width_hint
                     height_hint) w)).
Proof.
  intros E Hundef Hw Hh Hrun clamped. subst clamped.
  rewrite <- (resize_extent_undefined caps width_hint height_hint Hundef Hw Hh).
  by apply (resize_swapchain_extent D c _ _ w w1 r caps c').
Qed.

(** C8. After a call of [resize_swapchain] has returned, a second call
    whose capabilities and hints settle on the same extent makes the
    capability query and nothing else: no swapchain is created, no consumer
    detached or attached, and the context (swapchain handle, extent and
    the rest) is returned as it was. *)
Theorem resize_swapchain_twice (D : Driver) (c c1 : Context)
    (width_hint1 height_hint1 width_hint2 height_hint2 : N)
    (w wa w' wb : world D) (r1 r2 : VkResult)
    (caps1 caps2 : VkSurfaceCapabilitiesKHR) :
  answer D _ (GetPhysicalDeviceSurfaceCapabilitiesKHR (physical_dev c)
                (surface c)) w = ((r1, caps1), wa) ->
  outcome (run D (resize_swapchain accepts settings_ c width_hint1
                    height_hint1) w) = Returned c1 ->
  answer D _ (GetPhysicalDeviceSurfaceCapabilitiesKHR (physical_dev c1)
                (surface c1)) w' = ((r2, caps2), wb) ->
  accepts r2 = true ->
  resize_extent caps2 width_hint2 height_hint2 =
    resize_extent caps1 width_hint1 height_hint1 ->
  run D (resize_swapchain accepts settings_ c1 width_hint2 height_hint2) w' =
    mkRun (Returned c1) wb
      [Ev (GetPhysicalDeviceSurfaceCapabilitiesKHR (physical_dev c1)
             (surface c1))].
Proof.
  intros E1 Hrun1 E2 Hacc Hsame.
  destruct (resize_swapchain_extent D c _ _ w wa r1 caps1 c1 E1 Hrun1)
    as [Hext _].
  unfold resize_swapchain, assert_success. cbn. rewrite E2; cbn.
  rewrite Hacc; cbn. rewrite Hsame, <- Hext.
  by rewrite (proj2 (extent_eqb _ _) eq_refl).
Qed.

End Resize.

(** ** Teardown order *)

Lemma AcquireBuffer_dtor_calls (a : AcquireBuffer) :
  calls primitive_destroy (AcquireBuffer_dtor a).
Proof.
  unfold AcquireBuffer_dtor.
  destruct (semaphore_ a =? _)%N, (fence_ a =? _)%N; calls_here.
Qed.

Lemma delete_AcquireBuffer_calls (h : gmap nat AcquireBuffer)
    (p : AcquireBufferPtr) :
  calls primitive_destroy (delete_AcquireBuffer h p).
Proof.
  unfold delete_AcquireBuffer. destruct (h !! p); [| done].
  apply calls_bind; [apply AcquireBuffer_dtor_calls | done].
Qed.

Lemma BackBuffer_dtor_calls (h : gmap nat AcquireBuffer) (b : BackBuffer) :
  calls primitive_destroy (BackBuffer_dtor h b).
Proof.
  unfold BackBuffer_dtor. apply calls_bind.
  - destruct (renderSemaphore_ b =? _)%N; calls_here.
  - intros _. destruct (acquireBuffer_ b); [| done].
    apply delete_AcquireBuffer_calls.
Qed.

Lemma destroy_each_calls (bs : list BackBuffer) (h : gmap nat AcquireBuffer) :
  calls primitive_destroy (destroy_each h bs).
Proof.
  revert h. induction bs as [| b bs IH]; intros h; [done |].
  cbn [destroy_each]. apply calls_bind; [apply BackBuffer_dtor_calls | auto].
Qed.

Lemma delete_each_calls (q : list AcquireBufferPtr)
    (h : gmap nat AcquireBuffer) :
  calls primitive_destroy (delete_each h q).
Proof.
  revert h. induction q as [| p q IH]; intros h; [done |].
  cbn [delete_each]. apply calls_bind; [apply delete_AcquireBuffer_calls | auto].
Qed.

Lemma destroy_back_buffers_calls (c : Context) :
  calls primitive_destroy (destroy_back_buffers c).
Proof.
  unfold destroy_back_buffers.
  apply calls_bind; [apply destroy_each_calls |]. intros h.
  apply calls_bind; [apply delete_each_calls | done].
Qed.

(** The calls of [destroy_context] on a live device, in order. *)
Lemma destroy_context_trace (D : Driver) (c : Context) (w : world D) :
  dev c <> VK_NULL_HANDLE ->
  exists rest,
    trace (run D (destroy_context c) w) =
      Ev (DeviceWaitIdle (dev c))
      :: (if (swapchain c =? VK_NULL_HANDLE)%N then []
          else [Ev fp_detach_swapchain;
                Ev (DestroySwapchainKHR (dev c) (swapchain c))])
      ++ [Ev (DestroySurfaceKHR (instance c) (surface c)); Ev fp_detach_shell]
      ++ rest /\
    Forall primitive_destroy rest.
Proof.
  intros Hdev. apply N.eqb_neq in Hdev.
  assert (Htail : forall (c1 : Context) (w1 : world D)
                    (k : Context -> Context),
    Forall primitive_destroy
      (trace (run D (destroy_back_buffers c1 ≫= fun c2 =>
                       Call (DestroyDevice (dev c2)) (fun _ => Ret (k c2)))
                w1))).
  { intros c1 w1 k. apply calls_run. apply calls_bind.
    - apply destroy_back_buffers_calls.
    - intros c2. calls_here. }
  unfold destroy_context, destroy_swapchain. rewrite Hdev. cbn.
  destruct (answer D _ (DeviceWaitIdle _) w) as [r0 w0]; cbn.
  destruct (swapchain c =? VK_NULL_HANDLE)%N; cbn.
  - destruct (answer D _ (DestroySurfaceKHR _ _) w0) as [[] w1]; cbn.
    destruct (answer D _ fp_detach_shell w1) as [[] w2]; cbn.
    eexists; split; [reflexivity |]. apply Htail.
  - destruct (answer D _ fp_detach_swapchain w0) as [[] w1]; cbn.
    destruct (answer D _ (DestroySwapchainKHR _ _) w1) as [[] w2]; cbn.
    destruct (answer D _ (DestroySurfaceKHR _ _) w2) as [[] w3]; cbn.
    destruct (answer D _ fp_detach_shell w3) as [[] w4]; cbn.
    eexists; split; [reflexivity |]. apply Htail.
Qed.

Section Teardown.

Context (accepts : VkResult -> bool) (settings_ : Settings).

(** The calls of a [resize_swapchain] that returns while a chain exists:
    the capability query alone when the extent stays, or else the rebuild,
    which detaches the consumer, waits for the device and destroys the
    previous chain after the new one has been created. *)
Lemma resize_swapchain_trace (D : Driver) (c c' : Context)
    (width_hint height_hint : N) (w : world D) :
  swapchain c <> VK_NULL_HANDLE ->
  outcome (run D (resize_swapchain accepts settings_ c width_hint height_hint)
             w) = Returned c' ->
  let r := run D (resize_swapchain accepts settings_ c width_hint height_hint)
             w in
  let query := Ev (GetPhysicalDeviceSurfaceCapabilitiesKHR (physical_dev c)
                     (surface c)) in
  trace r = [query] \/
  exists info,
    sci_oldSwapchain info = swapchain c /\
    trace r =
      [query; Ev (GetSurfacePresentModes (physical_dev c) (surface c));
       Ev (CreateSwapchainKHR (dev c) info);
       Ev fp_detach_swapchain; Ev (DeviceWaitIdle (dev c));
       Ev (DestroySwapchainKHR (dev c) (swapchain c));
       Ev fp_attach_swapchain].
Proof.
  intros Hsc. apply N.eqb_neq in Hsc.
  unfold resize_swapchain, assert_success. cbn.
  destruct (answer D _ (GetPhysicalDeviceSurfaceCapabilitiesKHR _ _) w)
    as [[r caps] w1]; cbn.
  destruct (accepts r); cbn; [| done].
  destruct (_ && _); cbn; [by left |].
  destruct (nonzero (N.land (supportedUsageFlags caps) _)); cbn; [| done].
  destruct (nonzero (N.land (supportedTransforms caps) _)); cbn; [| done].
  destruct (nonzero (N.land _ (N.lor _ _))); cbn; [| done].
  destruct (answer D _ (GetSurfacePresentModes _ _) w1) as [modes w2]; cbn.
  destruct (answer D _ (CreateSwapchainKHR _ _) w2) as [[r2 sc] w3]; cbn.
  destruct (accepts r2); cbn; [| done].
  rewrite Hsc; cbn.
  destruct (answer D _ fp_detach_swapchain w3) as [[] w4]; cbn.
  destruct (answer D _ (DeviceWaitIdle _) w4) as [r5 w5]; cbn.
  destruct (answer D _ (DestroySwapchainKHR _ _) w5) as [[] w6]; cbn.
  destruct (answer D _ fp_attach_swapchain w6) as [[] w7]; cbn.
  intros _. right. eexists. split; [| reflexivity]. done.
Qed.

(** C5, as the code has it. On a live device with a chain,
    [destroy_context] first waits for the device, then detaches the
    consumer from the swapchain, destroys the swapchain, destroys the
    surface and detaches the consumer from the shell; what follows only
    destroys semaphores, fences and the device. Every [resize_swapchain]
    that rebuilds the chain creates the new swapchain, then detaches the
    consumer, then waits for the device, then destroys the previous
    swapchain, and leaves the surface. *)
Theorem teardown_order (D : Driver) (c : Context) (w : world D) :
  dev c <> VK_NULL_HANDLE ->
  swapchain c <> VK_NULL_HANDLE ->
  (exists rest,
     trace (run D (destroy_context c) w) =
       [Ev (DeviceWaitIdle (dev c)); Ev fp_detach_swapchain;
        Ev (DestroySwapchainKHR (dev c) (swapchain c));
        Ev (DestroySurfaceKHR (instance c) (surface c)); Ev fp_detach_shell]
       ++ rest /\
     Forall primitive_destroy rest) /\
  (forall (width_hint height_hint : N) (w' : world D) (c' : Context),
     outcome (run D (resize_swapchain accepts settings_ c width_hint
                       height_hint) w') = Returned c' ->
     extent c' <> extent c ->
     exists info,
       sci_oldSwapchain info = swapchain c /\
       trace (run D (resize_swapchain accepts settings_ c width_hint
                       height_hint) w') =
         [Ev (GetPhysicalDeviceSurfaceCapabilitiesKHR (physical_dev c)
                (surface c));
          Ev (GetSurfacePresentModes (physical_dev c) (surface c));
          Ev (CreateSwapchainKHR (dev c) info);
          Ev fp_detach_swapchain; Ev (DeviceWaitIdle (dev c));
          Ev (DestroySwapchainKHR (dev c) (swapchain c));
          Ev fp_attach_swapchain]).
Proof.
  intros Hdev Hsc. split.
  - destruct (destroy_context_trace D c w Hdev) as (rest & Htr & Hrest).
    exists rest. split; [| done]. rewrite Htr.
    apply N.eqb_neq in Hsc. by rewrite Hsc.
  - intros width_hint height_hint w' c' Hrun Hext.
    destruct (resize_swapchain_trace D c c' _ _ w' Hsc Hrun) as [Hq | Hre];
      [| done].
    exfalso. apply Hext. revert Hrun Hq.
    unfold resize_swapchain, assert_success. cbn.
    destruct (answer D _ (GetPhysicalDeviceSurfaceCapabilitiesKHR _ _) w')
      as [[r caps] w1]; cbn.
    destruct (accepts r); cbn; [| done].
    destruct (_ && _); cbn; [by intros [= <-] |].
    destruct (nonzero (N.land (supportedUsageFlags caps) _)); cbn; [| done].
    destruct (nonzero (N.land (supportedTransforms caps) _)); cbn; [| done].
    destruct (nonzero (N.land _ (N.lor _ _))); cbn; [| done].
    destruct (answer D _ (GetSurfacePresentModes _ _) w1) as [modes w2]; cbn.
    done.
Qed.

End Teardown.

(** C5, counterexample: [destroy_context] on the sample context, which has
    a live device and a chain, waits for the device before any consumer
    detach, and detaches the consumer from the shell only after the
    swapchain and the surface are destroyed. *)
Lemma destroy_context_waits_first :
  let tr := trace (run sim (destroy_context sample_acquired)
                     (final run_acquired)) in
  first_before is_consumer_detach is_wait_idle tr = false /\
  take 5 tr =
    [Ev (DeviceWaitIdle 3%N); Ev fp_detach_swapchain;
     Ev (DestroySwapchainKHR 3%N 111%N); Ev (DestroySurfaceKHR 1%N 6%N);
     Ev fp_detach_shell].
Proof. vm_compute. done. Qed.

(** ** The token pool *)

Lemma post_bind_strong {A B : Type} (p : Prog A) (f : A -> Prog B)
    (Q1 : A -> Prop) (Q : B -> Prop) :
  post p Q1 -> (forall a, Q1 a -> post (f a) Q) -> post (p ≫= f) Q.
Proof.
  intros Hp Hf. apply post_bind. revert Hp. by apply post_mono.
Qed.

Lemma calls_bind_post {A B : Type} (P : Event -> Prop) (p : Prog A)
    (f : A -> Prog B) (Q : A -> Prop) :
  calls P p -> post p Q -> (forall a, Q a -> calls P (f a)) ->
  calls P (p ≫= f).
Proof.
  rewrite bind_eq. intros Hc Hp Hf.
  induction p as [a | e | R c k IH]; simpl in *; auto.
  destruct Hc as [Hc Hk]. split; auto.
Qed.

(** The tokens held by a registry, around the entry at position [i]. *)
Lemma borrowed_middle (l : list BackBuffer) (i : nat) (b b' : BackBuffer) :
  l !! i = Some b ->
  omap acquireBuffer_ l =
    omap acquireBuffer_ (take i l) ++ option_list (acquireBuffer_ b)
      ++ omap acquireBuffer_ (drop (S i) l) /\
  omap acquireBuffer_ (<[i := b']> l) =
    omap acquireBuffer_ (take i l) ++ option_list (acquireBuffer_ b')
      ++ omap acquireBuffer_ (drop (S i) l).
Proof.
  intros Hi. split.
  - rewrite <- (take_drop_middle l i b Hi) at 1.
    rewrite omap_app. cbn. by destruct (acquireBuffer_ b).
  - rewrite insert_take_drop by (by eapply lookup_lt_Some).
    rewrite omap_app. cbn. by destruct (acquireBuffer_ b').
Qed.

Lemma borrowed_alter (f : BackBuffer -> BackBuffer) (l : list BackBuffer)
    (i : nat) :
  (forall b, acquireBuffer_ (f b) = acquireBuffer_ b) ->
  omap acquireBuffer_ (alter f i l) = omap acquireBuffer_ l.
Proof.
  intros Hf. revert i. induction l as [| b l IH]; intros [| i]; cbn; auto.
  - by rewrite Hf.
  - by rewrite IH.
Qed.

Lemma borrowed_once (l : list BackBuffer) (i j : nat) (bi bj : BackBuffer)
    (p : AcquireBufferPtr) :
  NoDup (omap acquireBuffer_ l) ->
  l !! i = Some bi -> l !! j = Some bj ->
  acquireBuffer_ bi = Some p -> acquireBuffer_ bj = Some p ->
  i = j.
Proof.
  revert i j. induction l as [| b l IH]; intros i j Hnd Hi Hj Hbi Hbj.
  - done.
  - assert (Hin : forall k bk, l !! k = Some bk -> acquireBuffer_ bk = Some p ->
                  p ∈ omap acquireBuffer_ l).
    { intros k bk Hk Hbk. apply list_elem_of_omap. exists bk.
      split; [by eapply list_elem_of_lookup_2 | done]. }
    destruct i as [| i], j as [| j]; cbn in *.
    + done.
    + injection Hi as ->. rewrite Hbi in Hnd.
      apply NoDup_cons in Hnd as [Hnot _]. destruct Hnot. eauto.
    + injection Hj as ->. rewrite Hbj in Hnd.
      apply NoDup_cons in Hnd as [Hnot _]. destruct Hnot. eauto.
    + f_equal. apply IH; auto.
      destruct (acquireBuffer_ b); [by apply NoDup_cons in Hnd as [_ ?] | done].
Qed.

(** Taking the head of the queue for an entry and giving back what the
    entry held moves tokens around without adding or dropping one. *)
Lemma pool_rotation (head : AcquireBufferPtr)
    (popped before after : list AcquireBufferPtr)
    (old : option AcquireBufferPtr) :
  (popped ++ option_list old) ++ before ++ [head] ++ after
  ≡ₚ (head :: popped) ++ before ++ option_list old ++ after.
Proof. destruct old; cbn; solve_Permutation. Qed.

Section Tokens.

Context (accepts : VkResult -> bool) (settings_ : Settings).

(** A returning [acquire_back_buffer] is one of the two cases of
    [acquired]. *)
Lemma acquire_back_buffer_acquired (c : Context) (trainFrame : bool) :
  post (acquire_back_buffer accepts settings_ c trainFrame)
    (acquired settings_ c).
Proof.
  assert (Hnext : post
    (match acquireBuffers_ c with
     | [] => Fail Undefined
     | acquireBuf :: popped =>
         a ← deref c acquireBuf;
         '(r, imageIndex) ← call (AcquireNextImageKHR (dev c) (swapchain c)
                                    UINT64_MAX (semaphore_ a) (fence_ a));
         assert_success accepts r;;
         match backBuffers_ c !! N.to_nat imageIndex with
         | None => Fail AssertFailure
         | Some back =>
             r ← call (WaitForFences (dev c) (fence_ a) true UINT64_MAX);
             assert_success accepts r;;
             r ← call (ResetFences (dev c) (fence_ a));
             assert_success accepts r;;
             let c := set_currentBackBuffer_ imageIndex c in
             let '(oldAcquireBuffer, back) :=
               BackBuffer_SetAcquireBuffer back imageIndex acquireBuf in
             let c := set_backBuffers_
                        (<[N.to_nat imageIndex := back]> (backBuffers_ c)) c in
             let c := set_acquireBuffers_ popped c in
             let c := match oldAcquireBuffer with
                      | Some old =>
                          set_acquireBuffers_ (acquireBuffers_ c ++ [old]) c
                      | None => c
                      end in
             Ret (set_acquiredFrameId (N.succ (acquiredFrameId c)) c)
         end
     end) (acquired settings_ c)).
  { destruct (acquireBuffers_ c) as [| head popped] eqn:Hq; [done |].
    unfold deref, assert_success.
    destruct (free_store c !! head) as [a |]; cbn; [| done].
    intros [r imageIndex]. destruct (accepts r); cbn; [| done].
    destruct (backBuffers_ c !! N.to_nat imageIndex) as [back |] eqn:Hb;
      cbn; [| done].
    intros r1. destruct (accepts r1); cbn; [| done].
    intros r2. destruct (accepts r2); cbn; [| done].
    apply (acquired_next settings_ c _ head popped imageIndex back);
      try done; destruct (acquireBuffer_ back); cbn; try done.
    by rewrite app_nil_r. }
  unfold acquire_back_buffer, acquired_once.
  destruct (no_present settings_) eqn:Hnp; [| exact Hnext].
  unfold GetCurrentBackBuffer.
  destruct (backBuffers_ c !! N.to_nat (currentBackBuffer_ c))
    as [back |] eqn:Hcur; cbn; [| done].
  unfold BackBuffer_GetAcquireSemaphore.
  destruct (acquireBuffer_ back) as [token |] eqn:Htok; cbn.
  - destruct (free_store c !! token) as [a |]; cbn; [| done].
    destruct (semaphore_ a =? VK_NULL_HANDLE)%N; cbn; [exact Hnext |].
    by apply (acquired_once_only settings_ c c back token).
  - exact Hnext.
Qed.

(** What [acquired] keeps: tokens stay unique, none is gained or lost, the
    registry keeps its length, the back buffers hold at least as many
    tokens as before, and at least one. *)
Lemma acquired_keeps (c c' : Context) :
  acquired settings_ c c' ->
  (tokens_unique c -> tokens_unique c') /\
  available c' + length (borrowed c') = available c + length (borrowed c) /\
  length (backBuffers_ c') = length (backBuffers_ c) /\
  length (borrowed c) <= length (borrowed c') /\
  1 <= length (borrowed c').
Proof.
  intros [back token Hnp Hcur Htok -> | head popped imageIndex back
                                          Hq Hb Hq' Hb' _ _].
  - repeat split; auto.
    unfold current_entry in Hcur. unfold borrowed.
    destruct (borrowed_middle _ _ _ back Hcur) as [-> _].
    rewrite Htok, !length_app. cbn. lia.
  - unfold tokens_unique, available, borrowed. rewrite Hq, Hq', Hb'.
    destruct (borrowed_middle _ _ _
                (BackBuffer_SetAcquireBuffer back imageIndex head).2 Hb)
      as [-> ->].
    cbn [BackBuffer_SetAcquireBuffer snd acquireBuffer_ option_list].
    rewrite length_insert. repeat split.
    + intros Hnd.
      by rewrite (pool_rotation head popped _ _ (acquireBuffer_ back)).
    + rewrite ?length_app. cbn. rewrite ?length_app.
      destruct (acquireBuffer_ back); cbn; lia.
    + rewrite ?length_app. cbn. destruct (acquireBuffer_ back); cbn; lia.
    + rewrite ?length_app. cbn. lia.
Qed.

(** [present_back_buffer] leaves the tokens where they are. *)
Lemma present_back_buffer_tokens (c : Context) (trainFrame : bool) :
  post (present_back_buffer accepts settings_ c trainFrame)
    (fun c' => acquireBuffers_ c' = acquireBuffers_ c /\
               borrowed c' = borrowed c /\
               length (backBuffers_ c') = length (backBuffers_ c)).
Proof.
  unfold present_back_buffer, fake_present, GetCurrentBackBuffer.
  destruct (backBuffers_ c !! N.to_nat (currentBackBuffer_ c))
    as [back |]; cbn; [| done].
  destruct (BackBuffer_isInPrepareState back); cbn; [| done].
  intros []. destruct (no_present settings_); cbn.
  - destruct (BackBuffer_GetAcquireSemaphore _ _); cbn; [| done].
    intros r. unfold assert_success. by destruct (accepts r).
  - intros res.
    destruct (res =? VK_ERROR_OUT_OF_DATE_KHR)%Z; cbn;
      unfold borrowed, update_current; cbn;
      by rewrite borrowed_alter, length_alter.
Qed.

Lemma step_pool_kept (c : Context) (op : Op) :
  post (step accepts settings_ c op) (pool_kept c).
Proof.
  destruct op as [trainFrame | trainFrame]; cbn.
  - eapply post_mono; [| apply acquire_back_buffer_acquired].
    intros c' Hacq. apply acquired_keeps in Hacq as (? & ? & ? & ? & ?).
    by repeat split.
  - eapply post_mono; [| apply present_back_buffer_tokens].
    intros c' (Hq & Hb & Hlen). unfold pool_kept, tokens_unique, available.
    rewrite Hq, Hb. auto.
Qed.

Lemma steps_pool_kept (ops : list Op) (c : Context) :
  post (steps accepts settings_ ops c) (pool_kept c).
Proof.
  revert c. induction ops as [| op ops IH]; intros c.
  - cbn. unfold pool_kept. auto.
  - cbn [steps]. eapply post_bind_strong; [apply step_pool_kept |].
    intros c1 (Hu1 & Hn1 & Hl1 & Hm1).
    eapply post_mono; [| apply IH].
    intros c' (Hu & Hn & Hl & Hm). unfold pool_kept.
    repeat split; [auto | lia | congruence | lia].
Qed.

(** C1. From a context whose tokens are unique, along every sequence of
    acquire and present calls: the tokens stay unique, so that no token is
    held by two back buffers, and the number of tokens in the pool plus the
    number held by back buffers stays the same. A returning
    [acquire_back_buffer] either changes nothing (no-present mode, the
    current entry already holding a token) or removes the head of the
    queue, attaches it to the acquired entry and appends the token that
    entry held before, if any, to the tail. *)
Theorem token_conservation (D : Driver) (c : Context) (w : world D) :
  tokens_unique c ->
  (forall (ops : list Op) (c' : Context),
     outcome (run D (steps accepts settings_ ops c) w) = Returned c' ->
     tokens_unique c' /\
     available c' + length (borrowed c') =
       available c + length (borrowed c) /\
     forall (i j : nat) (bi bj : BackBuffer) (p : AcquireBufferPtr),
       backBuffers_ c' !! i = Some bi -> backBuffers_ c' !! j = Some bj ->
       acquireBuffer_ bi = Some p -> acquireBuffer_ bj = Some p -> i = j) /\
  (forall (trainFrame : bool) (c' : Context),
     outcome (run D (acquire_back_buffer accepts settings_ c trainFrame) w)
       = Returned c' ->
     acquired settings_ c c').
Proof.
  intros Hu. split.
  - intros ops c' Hrun.
    destruct (post_run D _ _ w c' (steps_pool_kept ops c) Hrun)
      as (Hu' & Hn & _ & _).
    specialize (Hu' Hu). repeat split; auto.
    intros i j bi bj p. apply borrowed_once.
    unfold tokens_unique in Hu'. by apply NoDup_app in Hu' as (_ & _ & ?).
  - intros trainFrame c'.
    apply post_run, acquire_back_buffer_acquired.
Qed.

(** *** Creation *)

(** On an empty registry [resize] only default-constructs. *)
Lemma resize_back_buffers_empty (count : Z) (c : Context) :
  backBuffers_ c = [] ->
  (0 <= count)%Z ->
  resize_back_buffers count c =
    Ret (set_backBuffers_ (replicate (Z.to_nat count) BackBuffer_ctor)
           (set_free_store (free_store c) c)).
Proof.
  intros Hb Hcount. unfold resize_back_buffers.
  destruct (Z.ltb_spec count 0); [lia |].
  rewrite Hb. cbn [length].
  destruct (Z.to_nat count) as [| n]; cbn; [done |].
  reflexivity.
Qed.

Lemma create_each_post (d : VkHandle) (bs : list BackBuffer) :
  post (create_each accepts d bs)
    (fun bs' => length bs' = length bs /\
                omap acquireBuffer_ bs' = omap acquireBuffer_ bs).
Proof.
  induction bs as [| b bs IH]; [done |].
  cbn [create_each]. unfold BackBuffer_Create, assert_success. cbn.
  intros [r sem]. destruct (accepts r); cbn; [| done].
  destruct (accepts VK_SUCCESS); cbn; [| done].
  eapply post_bind_strong; [exact IH |].
  intros bs' [Hlen Hb]. cbn. by rewrite Hlen, Hb.
Qed.

Lemma create_acquire_buffers_post (n : nat) (c : Context) :
  post (create_acquire_buffers accepts n c)
    (fun c' =>
       backBuffers_ c' = backBuffers_ c /\
       exists new,
         acquireBuffers_ c' = acquireBuffers_ c ++ new /\
         length new = n /\ NoDup new /\
         forall p, p ∈ new -> p ∉ dom (free_store c)).
Proof.
  revert c. induction n as [| n IH]; intros c.
  - cbn. split; [done |]. exists []. rewrite app_nil_r.
    repeat split; [constructor | by intros ? ?%elem_of_nil].
  - cbn [create_acquire_buffers].
    unfold AcquireBuffer_Create, assert_success. cbn.
    intros [r sem]. destruct (accepts r); cbn; [| done].
    intros [r' fence]. destruct (accepts r'); cbn; [| done].
    destruct (accepts VK_SUCCESS); cbn; [| done].
    eapply post_mono; [| apply IH].
    intros c'. cbn. intros (Hb & new & Hq & Hlen & Hnd & Hfresh).
    split; [done |].
    exists (fresh (dom (free_store c)) :: new).
    rewrite Hq, <- (assoc_L (++)). cbn. repeat split; [by rewrite Hlen | |].
    + apply NoDup_cons. split; [| done].
      intros Hin. apply Hfresh in Hin. apply Hin.
      rewrite dom_insert_L. set_solver.
    + intros p [-> | Hin]%elem_of_cons; [apply is_fresh |].
      apply Hfresh in Hin. rewrite dom_insert_L in Hin. set_solver.
Qed.

Lemma borrowed_replicate (n : nat) :
  omap acquireBuffer_ (replicate n BackBuffer_ctor) = [].
Proof. induction n; cbn; auto. Qed.

(** [create_back_buffers] on an empty registry and an empty pool: the
    registry gets [back_buffer_count + 1] entries, none holding a token, and
    the pool [back_buffer_count + 2] distinct tokens. *)
Lemma create_back_buffers_post (c : Context) :
  (0 <= back_buffer_count settings_)%Z ->
  backBuffers_ c = [] -> acquireBuffers_ c = [] ->
  post (create_back_buffers accepts settings_ c)
    (fun c' =>
       length (backBuffers_ c') = Z.to_nat (back_buffer_count settings_ + 1) /\
       available c' = Z.to_nat (back_buffer_count settings_ + 2) /\
       borrowed c' = [] /\
       tokens_unique c').
Proof.
  intros Hcount Hb Hq. unfold create_back_buffers.
  rewrite resize_back_buffers_empty by (done || lia). cbn.
  eapply post_bind_strong; [apply create_each_post |].
  intros bs [Hlen Hbor]. rewrite length_replicate in Hlen.
  eapply post_bind_strong; [apply create_acquire_buffers_post |].
  cbn. intros c' (Hb' & new & Hq' & Hnew & Hnd & _). cbn.
  unfold available, borrowed, tokens_unique; cbn.
  rewrite Hb', Hq', Hq, Hbor. cbn.
  rewrite borrowed_replicate, app_nil_r. repeat split; auto.
  rewrite Hnew. f_equal. lia.
Qed.

(** *** Cycles *)

Lemma cycles_cons (trainFrame : bool) (frames : list bool) (c : Context) :
  cycles accepts settings_ (trainFrame :: frames) c =
    acquire_back_buffer accepts settings_ c trainFrame ≫= fun c1 =>
      present_back_buffer accepts settings_ c1 trainFrame ≫= fun c2 =>
        cycles accepts settings_ frames c2.
Proof. reflexivity. Qed.

(** After at least one cycle some back buffer holds a token. *)
Lemma cycles_borrowed (trainFrame : bool) (frames : list bool) (c : Context) :
  post (cycles accepts settings_ (trainFrame :: frames) c)
    (fun c' => 1 <= length (borrowed c')).
Proof.
  rewrite cycles_cons.
  eapply post_bind_strong; [apply acquire_back_buffer_acquired |].
  intros c1 (_ & _ & _ & _ & Hone)%acquired_keeps.
  eapply post_bind_strong; [apply present_back_buffer_tokens |].
  intros c2 (_ & Hb & _).
  eapply post_mono; [| apply steps_pool_kept].
  intros c' (_ & _ & _ & Hm). rewrite Hb in Hm. lia.
Qed.

Lemma borrowed_length (c : Context) :
  length (borrowed c) <= length (backBuffers_ c).
Proof.
  unfold borrowed. induction (backBuffers_ c) as [| b l IH]; cbn; [lia |].
  destruct (acquireBuffer_ b); cbn; lia.
Qed.

(** C4, as the code has it. With a configured back-buffer count of 2,
    [create_back_buffers] on an empty registry and pool produces 3
    BackBuffer entries and a pool of 4 tokens; after 5 acquire/present
    cycles the tokens in the pool and those held by back buffers are still
    4 together, of which between 1 and 3 are in the pool. *)
Theorem scenario_a_pool_of_four (D : Driver) (c0 c : Context) (w : world D) :
  back_buffer_count settings_ = 2%Z ->
  backBuffers_ c0 = [] ->
  acquireBuffers_ c0 = [] ->
  outcome (run D (create_back_buffers accepts settings_ c0) w) = Returned c ->
  length (backBuffers_ c) = 3 /\
  available c = 4 /\
  forall (frames : list bool) (w' : world D) (c1 c5 : Context),
    backBuffers_ c1 = backBuffers_ c ->
    acquireBuffers_ c1 = acquireBuffers_ c ->
    length frames = 5 ->
    outcome (run D (cycles accepts settings_ frames c1) w') = Returned c5 ->
    available c5 + length (borrowed c5) = 4 /\
    1 <= available c5 <= 3.
Proof.
  intros Hcount Hb Hq Hrun.
  assert (Hpos : (0 <= back_buffer_count settings_)%Z) by lia.
  destruct (post_run D _ _ w c (create_back_buffers_post c0 Hpos Hb Hq) Hrun)
    as (Hlen & Hav & Hbor & Hu).
  rewrite Hcount in Hlen, Hav.
  change (Z.to_nat (2 + 1)) with 3 in Hlen.
  change (Z.to_nat (2 + 2)) with 4 in Hav.
  split; [done |]. split; [done |].
  intros frames w' c1 c5 Hb1 Hq1 Hframes Hrun5.
  destruct frames as [| trainFrame frames]; [done |].
  pose proof (post_run D _ _ w' c5 (cycles_borrowed trainFrame frames c1) Hrun5)
    as Hone.
  destruct (post_run D _ _ w' c5 (steps_pool_kept _ c1) Hrun5)
    as (_ & Hn & Hl & _).
  pose proof (borrowed_length c5) as Hle.
  unfold available, borrowed in *. rewrite Hb1, Hq1 in *.
  rewrite Hbor in Hn. cbn in Hn, Hone. lia.
Qed.

(** *** No-present mode *)

Lemma present_back_buffer_calls (c : Context) (trainFrame : bool) :
  calls not_acquire (present_back_buffer accepts settings_ c trainFrame).
Proof.
  unfold present_back_buffer, fake_present, GetCurrentBackBuffer.
  destruct (backBuffers_ c !! N.to_nat (currentBackBuffer_ c)); cbn; [| done].
  destruct (BackBuffer_isInPrepareState _); cbn; [| done].
  split; [done |]. intros [].
  destruct (no_present settings_); cbn.
  - destruct (BackBuffer_GetAcquireSemaphore _ _); cbn; [| done].
    split; [done |]. intros r. unfold assert_success. by destruct (accepts r).
  - split; [done |]. intros res. by destruct (res =? _)%Z.
Qed.

Lemma present_back_buffer_headless (c : Context) (trainFrame : bool) :
  no_present settings_ = true ->
  post (present_back_buffer accepts settings_ c trainFrame) (fun c' => c' = c).
Proof.
  intros Hnp. unfold present_back_buffer, fake_present, GetCurrentBackBuffer.
  rewrite Hnp.
  destruct (backBuffers_ c !! N.to_nat (currentBackBuffer_ c)); cbn; [| done].
  destruct (BackBuffer_isInPrepareState _); cbn; [| done].
  intros []. destruct (BackBuffer_GetAcquireSemaphore _ _); cbn; [| done].
  intros r. unfold assert_success. by destruct (accepts r).
Qed.

Section Headless.

Context (c : Context) (back : BackBuffer) (token : AcquireBufferPtr)
  (a : AcquireBuffer).
Hypothesis no_present_mode : no_present settings_ = true.
Hypothesis current_back : current_entry c = Some back.
Hypothesis attached : acquireBuffer_ back = Some token.
Hypothesis live : free_store c !! token = Some a.
Hypothesis valid : semaphore_ a <> VK_NULL_HANDLE.

Lemma acquire_back_buffer_short_circuit (trainFrame : bool) :
  acquire_back_buffer accepts settings_ c trainFrame = Ret c.
Proof.
  unfold acquire_back_buffer, acquired_once, GetCurrentBackBuffer.
  unfold current_entry in current_back.
  rewrite no_present_mode, current_back. cbn.
  unfold BackBuffer_GetAcquireSemaphore. rewrite attached, live. cbn.
  apply N.eqb_neq in valid. by rewrite valid.
Qed.

Lemma cycles_headless (frames : list bool) :
  post (cycles accepts settings_ frames c) (fun c' => c' = c) /\
  calls not_acquire (cycles accepts settings_ frames c).
Proof.
  induction frames as [| trainFrame frames [IHpost IHcalls]]; [done |].
  rewrite cycles_cons, acquire_back_buffer_short_circuit.
  change (Ret c ≫= ?f) with (f c). split.
  - eapply post_bind_strong; [by apply present_back_buffer_headless |].
    by intros ? ->.
  - eapply calls_bind_post;
      [apply present_back_buffer_calls
      | by apply present_back_buffer_headless |].
    by intros ? ->.
Qed.

End Headless.

(** C6. In no-present mode, once the current back buffer holds a token
    (a live object with a valid semaphore), [acquire_back_buffer] returns
    the context as it is without any call: no token leaves the pool and no
    image is acquired. Repeated acquire/present cycles therefore make no
    acquisition call, and a context they return is the one they started
    from, with the same current image index. *)
Theorem headless_acquire_once (D : Driver) (c : Context) (back : BackBuffer)
    (token : AcquireBufferPtr) (a : AcquireBuffer) :
  no_present settings_ = true ->
  current_entry c = Some back ->
  acquireBuffer_ back = Some token ->
  free_store c !! token = Some a ->
  semaphore_ a <> VK_NULL_HANDLE ->
  (forall (trainFrame : bool) (w : world D),
     run D (acquire_back_buffer accepts settings_ c trainFrame) w =
       mkRun (Returned c) w []) /\
  (forall (frames : list bool) (w : world D),
     Forall not_acquire (trace (run D (cycles accepts settings_ frames c) w)) /\
     forall c', outcome (run D (cycles accepts settings_ frames c) w)
                  = Returned c' ->
       c' = c /\ currentBackBuffer_ c' = currentBackBuffer_ c /\
       acquireBuffers_ c' = acquireBuffers_ c).
Proof.
  intros Hnp Hcur Htok Hlive Hvalid. split.
  - intros trainFrame w.
    by rewrite (acquire_back_buffer_short_circuit c back token a).
  - intros frames w.
    destruct (cycles_headless c back token a Hnp Hcur Htok Hlive Hvalid frames)
      as [Hpost Hcalls].
    split; [by apply calls_run |].
    intros c' Hrun. by rewrite (post_run D _ _ w c' Hpost Hrun).
Qed.

End Tokens.

(** ** Out-of-date on acquire *)

Section Acquire.

Context (accepts : VkResult -> bool) (settings_ : Settings).

(** C3, what the code does. When vkAcquireNextImageKHR answers
    [VK_ERROR_OUT_OF_DATE_KHR], [acquire_back_buffer] hands the result to
    [vk::assert_success] like any other: if it is rejected the call ends
    there with the failure carrying that result, the context untouched and
    no further call made; if it is let through the call goes on as for a
    normal frame, attaching the head token to the entry of the image index
    and counting the frame. Neither is a recovery by resizing. *)
Theorem acquire_out_of_date_not_recovered (D : Driver) (c : Context)
    (trainFrame : bool) (w w1 : world D) (head : AcquireBufferPtr)
    (popped : list AcquireBufferPtr) (a : AcquireBuffer) (imageIndex : N) :
  no_present settings_ = false ->
  acquireBuffers_ c = head :: popped ->
  free_store c !! head = Some a ->
  answer D _ (AcquireNextImageKHR (dev c) (swapchain c) UINT64_MAX
                (semaphore_ a) (fence_ a)) w
    = ((VK_ERROR_OUT_OF_DATE_KHR, imageIndex), w1) ->
  let r := run D (acquire_back_buffer accepts settings_ c trainFrame) w in
  if accepts VK_ERROR_OUT_OF_DATE_KHR
  then forall c', outcome r = Returned c' ->
         currentBackBuffer_ c' = imageIndex /\
         acquiredFrameId c' = N.succ (acquiredFrameId c) /\
         acquireBuffer_ <$> backBuffers_ c' !! N.to_nat imageIndex
           = Some (Some head)
  else r = mkRun (Failed (VkFailure VK_ERROR_OUT_OF_DATE_KHR)) w1
             [Ev (AcquireNextImageKHR (dev c) (swapchain c) UINT64_MAX
                    (semaphore_ a) (fence_ a))].
Proof.
  intros Hnp Hq Hlive E.
  unfold acquire_back_buffer, acquired_once, deref, assert_success.
  rewrite Hnp, Hq, Hlive. cbn. rewrite E. cbn.
  destruct (accepts VK_ERROR_OUT_OF_DATE_KHR); cbn; [| done].
  destruct (backBuffers_ c !! N.to_nat imageIndex) as [back |] eqn:Hb;
    cbn; [| done].
  destruct (answer D _ (WaitForFences _ _ _ _) w1) as [r1 w2]; cbn.
  destruct (accepts r1); cbn; [| done].
  destruct (answer D _ (ResetFences _ _) w2) as [r2 w3]; cbn.
  destruct (accepts r2); cbn; [| done].
  intros c' [= <-].
  destruct (acquireBuffer_ back); cbn;
    (split; [done |]); (split; [done |]);
    by rewrite list_lookup_insert_eq by (by eapply lookup_lt_Some).
Qed.

End Acquire.

(** ** The theorems on the sample runs *)

(** C1 on the sample run: five cycles from the resized sample context. *)
Lemma token_conservation_witness :
  tokens_unique sample_resized /\
  outcome (run sim (steps only_success sample_settings
                      (cycle_ops [true; true; true; true; true])
                      sample_resized) (final run_resized))
    = Returned sample_cycled /\
  tokens_unique sample_cycled /\
  available sample_cycled + length (borrowed sample_cycled) = 4.
Proof.
  assert (Hu : tokens_unique sample_resized)
    by (apply (bool_decide_unpack _); vm_compute; exact I).
  assert (Hrun : outcome (run sim (steps only_success sample_settings
                                     (cycle_ops [true; true; true; true; true])
                                     sample_resized) (final run_resized))
                 = Returned sample_cycled) by (vm_compute; reflexivity).
  split; [exact Hu |]. split; [exact Hrun |].
  destruct (token_conservation only_success sample_settings sim sample_resized
              (final run_resized) Hu) as [Hsteps _].
  destruct (Hsteps _ _ Hrun) as (Hu' & Hn & _).
  split; [exact Hu' | exact Hn].
Defined.

(** C2 on the sample run: the present call answers out-of-date and the
    current entry ends CANCELED. *)
Lemma present_back_buffer_transition_witness :
  no_present sample_settings = false /\
  current_entry sample_acquired = Some sample_back /\
  exists c',
    outcome (run sim (present_back_buffer only_success sample_settings
                        sample_acquired true) world_present_out_of_date)
      = Returned c' /\
    state_ <$> current_entry c' = Some BACK_BUFFER_CANCELED.
Proof.
  split; [reflexivity |]. split; [reflexivity |].
  destruct (present_back_buffer_transition only_success sample_settings sim
              sample_acquired true world_present_out_of_date sample_back
              eq_refl eq_refl eq_refl) as (c' & Hrun & _ & _ & Hst).
  exists c'. split; [exact Hrun | exact Hst].
Defined.

(** C3 on the sample run, with only [VK_SUCCESS] accepted: the acquisition
    answers out-of-date and the call fails after that one call. *)
Lemma acquire_out_of_date_not_recovered_witness :
  no_present sample_settings = false /\
  run sim (acquire_back_buffer only_success sample_settings sample_resized
             true) world_acquire_out_of_date =
    mkRun (D := sim) (Failed (VkFailure VK_ERROR_OUT_OF_DATE_KHR))
      (mkSim 200%N [] [] sample_caps [])
      [Ev (AcquireNextImageKHR 3%N 111%N UINT64_MAX 103%N 104%N)].
Proof.
  split; [reflexivity |].
  exact (acquire_out_of_date_not_recovered only_success sample_settings sim
           sample_resized true world_acquire_out_of_date
           (mkSim 200%N [] [] sample_caps []) 0 [1; 2; 3] sample_token 0%N
           eq_refl eq_refl eq_refl eq_refl).
Defined.

(** C4 on the sample run: 3 entries and 4 tokens after creation, 4 tokens
    in all after five cycles. *)
Lemma scenario_a_pool_of_four_witness :
  back_buffer_count sample_settings = 2%Z /\
  outcome (run sim (create_back_buffers only_success sample_settings
                      sample_context) sample_world) = Returned sample_created /\
  outcome (run sim (cycles only_success sample_settings
                      [true; true; true; true; true] sample_resized)
             (final run_resized)) = Returned sample_cycled /\
  length (backBuffers_ sample_created) = 3 /\
  available sample_created = 4 /\
  available sample_cycled + length (borrowed sample_cycled) = 4 /\
  1 <= available sample_cycled <= 3.
Proof.
  assert (Hrun : outcome (run sim (create_back_buffers only_success
                                     sample_settings sample_context)
                            sample_world) = Returned sample_created)
    by (vm_compute; reflexivity).
  assert (Hrun5 : outcome (run sim (cycles only_success sample_settings
                                      [true; true; true; true; true]
                                      sample_resized) (final run_resized))
                  = Returned sample_cycled) by (vm_compute; reflexivity).
  destruct (scenario_a_pool_of_four only_success sample_settings sim
              sample_context sample_created sample_world eq_refl eq_refl
              eq_refl Hrun) as (Hlen & Hav & Hcycles).
  destruct (Hcycles [true; true; true; true; true] (final run_resized)
              sample_resized sample_cycled eq_refl eq_refl eq_refl Hrun5)
    as [Hsum Hrange].
  split; [reflexivity |]. repeat (split; [assumption |]). exact Hrange.
Defined.

(** C4, counterexample: with a back-buffer count of 2 the pool is created
    with 4 tokens, not 5, and after the five cycles of scenario A, which
    acquire the images 0, 1, 2, 0, 1, one token is available. *)
Lemma scenario_a_pool_is_not_five :
  back_buffer_count sample_settings = 2%Z /\
  outcome (run sim (create_back_buffers only_success sample_settings
                      sample_context) sample_world) = Returned sample_created /\
  length (backBuffers_ sample_created) = 3 /\
  available sample_created = 4 /\
  available sample_created <> 5 /\
  exists c5,
    outcome (run sim scenario_a sample_world) = Returned c5 /\
    available c5 = 1 /\ available c5 <> 5.
Proof.
  repeat split; try (vm_compute; done).
  eexists. split; [vm_compute; reflexivity |]. split; vm_compute; done.
Qed.

(** C5 on the sample run: the calls of [destroy_context] after one
    acquisition, and a rebuild from 800 by 600 to 1024 by 768. *)
Lemma teardown_order_witness :
  dev sample_acquired <> VK_NULL_HANDLE /\
  swapchain sample_acquired <> VK_NULL_HANDLE /\
  outcome (run sim (resize_swapchain only_success sample_settings
                      sample_acquired 1024%N 768%N) (final run_acquired))
    = Returned sample_rebuilt /\
  extent sample_rebuilt <> extent sample_acquired /\
  (exists rest,
     trace (run sim (destroy_context sample_acquired) (final run_acquired)) =
       [Ev (DeviceWaitIdle 3%N); Ev fp_detach_swapchain;
        Ev (DestroySwapchainKHR 3%N 111%N); Ev (DestroySurfaceKHR 1%N 6%N);
        Ev fp_detach_shell] ++ rest) /\
  exists info,
    trace (run sim (resize_swapchain only_success sample_settings
                      sample_acquired 1024%N 768%N) (final run_acquired)) =
      [Ev (GetPhysicalDeviceSurfaceCapabilitiesKHR 2%N 6%N);
       Ev (GetSurfacePresentModes 2%N 6%N);
       Ev (CreateSwapchainKHR 3%N info);
       Ev fp_detach_swapchain; Ev (DeviceWaitIdle 3%N);
       Ev (DestroySwapchainKHR 3%N 111%N); Ev fp_attach_swapchain].
Proof.
  assert (Hdev : dev sample_acquired <> VK_NULL_HANDLE) by (vm_compute; done).
  assert (Hsc : swapchain sample_acquired <> VK_NULL_HANDLE)
    by (vm_compute; done).
  assert (Hrun : outcome (run sim (resize_swapchain only_success
                                     sample_settings sample_acquired 1024%N
                                     768%N) (final run_acquired))
                 = Returned sample_rebuilt) by (vm_compute; reflexivity).
  assert (Hext : extent sample_rebuilt <> extent sample_acquired)
    by (vm_compute; done).
  repeat (split; [assumption |]).
  destruct (teardown_order only_success sample_settings sim sample_acquired
              (final run_acquired) Hdev Hsc)
    as [(rest & Htr & _) Hrebuild].
  split; [exists rest; exact Htr |].
  destruct (Hrebuild 1024%N 768%N (final run_acquired) sample_rebuilt Hrun
              Hext) as (info & _ & Htr').
  exists info. exact Htr'.
Defined.

(** C6 on the sample run in no-present mode: after the first acquisition
    a further acquire makes no call, and three cycles keep the index. *)
Lemma headless_acquire_once_witness :
  no_present headless_settings = true /\
  current_entry headless_acquired = Some sample_back /\
  free_store headless_acquired !! 0 = Some sample_token /\
  run sim (acquire_back_buffer only_success headless_settings
             headless_acquired true) (final run_headless_acquired) =
    mkRun (Returned headless_acquired) (final run_headless_acquired) [] /\
  exists c',
    outcome (run sim (cycles only_success headless_settings
                        [true; false; true] headless_acquired)
               (final run_headless_acquired)) = Returned c' /\
    currentBackBuffer_ c' = currentBackBuffer_ headless_acquired.
Proof.
  assert (Hcur : current_entry headless_acquired = Some sample_back)
    by (vm_compute; reflexivity).
  assert (Hlive : free_store headless_acquired !! 0 = Some sample_token)
    by (vm_compute; reflexivity).
  assert (Hvalid : semaphore_ sample_token <> VK_NULL_HANDLE)
    by (vm_compute; done).
  split; [reflexivity |]. split; [exact Hcur |]. split; [exact Hlive |].
  destruct (headless_acquire_once only_success headless_settings sim
              headless_acquired sample_back 0 sample_token eq_refl Hcur
              eq_refl Hlive Hvalid) as [Hacq Hcycles].
  split; [apply Hacq |].
  destruct (Hcycles [true; false; true] (final run_headless_acquired))
    as [_ Hsame].
  eexists. split; [vm_compute; reflexivity |].
  eapply Hsame. vm_compute; reflexivity.
Defined.

(** C7 on the sample run: the hints 5000 by 0 against the range from 1 by
    1 to 4096 by 4096 give 4096 by 1. *)
Lemma resize_swapchain_clamps_hints_witness :
  width (currentExtent sample_caps) = UINT32_MAX /\
  exists c',
    outcome (run sim (resize_swapchain only_success sample_settings
                        sample_created 5000%N 0%N) (final run_created))
      = Returned c' /\
    extent c' = mkExtent 4096%N 1%N.
Proof.
  split; [reflexivity |].
  eexists. split; [vm_compute; reflexivity |].
  apply (resize_swapchain_clamps_hints only_success sample_settings sim
           sample_created 5000%N 0%N (final run_created) (final run_created)
           VK_SUCCESS sample_caps);
    [reflexivity | reflexivity | vm_compute; done | vm_compute; done
    | vm_compute; reflexivity].
Defined.

(** C8 on the sample run: a second resize to 800 by 600 only queries the
    capabilities. *)
Lemma resize_swapchain_twice_witness :
  outcome (run sim (resize_swapchain only_success sample_settings
                      sample_created 800%N 600%N) (final run_created))
    = Returned sample_resized /\
  run sim (resize_swapchain only_success sample_settings sample_resized
             800%N 600%N) (final run_resized) =
    mkRun (Returned sample_resized) (final run_resized)
      [Ev (GetPhysicalDeviceSurfaceCapabilitiesKHR 2%N 6%N)].
Proof.
  assert (Hrun : outcome (run sim (resize_swapchain only_success
                                     sample_settings sample_created 800%N
                                     600%N) (final run_created))
                 = Returned sample_resized) by (vm_compute; reflexivity).
  split; [exact Hrun |].
  exact (resize_swapchain_twice only_success sample_settings sim
           sample_created sample_resized 800%N 600%N 800%N 600%N
           (final run_created) (final run_created) (final run_resized)
           (final run_resized) VK_SUCCESS VK_SUCCESS sample_caps sample_caps
           eq_refl Hrun eq_refl eq_refl eq_refl).
Defined.

(** C10 on the sample run in no-present mode: the present call returns
    the context it was given. *)
Lemma fake_present_changes_nothing_witness :
  no_present headless_settings = true /\
  current_entry headless_acquired = Some sample_back /\
  outcome (run sim (present_back_buffer only_success headless_settings
                      headless_acquired true) (final run_headless_acquired))
    = Returned headless_acquired.
Proof.
  assert (Hcur : current_entry headless_acquired = Some sample_back)
    by (vm_compute; reflexivity).
  split; [reflexivity |]. split; [exact Hcur |].
  destruct (fake_present_changes_nothing only_success headless_settings sim
              headless_acquired true (final run_headless_acquired)
              sample_back eq_refl Hcur eq_refl) as [_ Hret].
  destruct (Hret 103%N eq_refl) as [_ Hok].
  apply Hok. reflexivity.
Defined.

(** * Further properties of Shell.cpp *)

(** ** What resize_swapchain asks for *)

Section Requests.

Context (accepts : VkResult -> bool) (settings_ : Settings).

(** X1. The loop over the reported present modes picks the mode that the
    vsync flag prefers, mailbox under vsync and immediate without it,
    exactly when that mode is reported, and FIFO otherwise; the order of
    the reported modes and the other modes in the list do not matter. *)
Theorem select_present_mode_preferred (modes : list N) :
  select_present_mode settings_ modes =
    let preferred := if vsync settings_ then VK_PRESENT_MODE_MAILBOX_KHR
                     else VK_PRESENT_MODE_IMMEDIATE_KHR in
    if bool_decide (preferred ∈ modes) then preferred
    else VK_PRESENT_MODE_FIFO_KHR.
Proof.
  cbn zeta. induction modes as [| m modes IH]; [done |].
  cbn [select_present_mode]. rewrite IH. clear IH.
  destruct (vsync settings_); cbn [andb orb negb].
  - rewrite orb_false_r. destruct (N.eqb_spec m VK_PRESENT_MODE_MAILBOX_KHR)
      as [-> | Hne].
    + rewrite bool_decide_true; [done | by left].
    + destruct (bool_decide_reflect (VK_PRESENT_MODE_MAILBOX_KHR ∈ modes)).
      * rewrite bool_decide_true; [done | by right].
      * rewrite bool_decide_false; [done |].
        intros [? | ?]%elem_of_cons; congruence.
  - destruct (N.eqb_spec m VK_PRESENT_MODE_IMMEDIATE_KHR) as [-> | Hne].
    + rewrite bool_decide_true; [done | by left].
    + destruct (bool_decide_reflect (VK_PRESENT_MODE_IMMEDIATE_KHR ∈ modes)).
      * rewrite bool_decide_true; [done | by right].
      * rewrite bool_decide_false; [done |].
        intros [? | ?]%elem_of_cons; congruence.
Qed.

(** The if/else-if chain on the image count keeps it in a range that is
    not empty, and keeps a configured count that lies in the range. *)
Lemma resize_image_count_clamped (caps : VkSurfaceCapabilitiesKHR) :
  (minImageCount caps <= maxImageCount caps)%N ->
  let configured := Z.to_N (back_buffer_count settings_ mod 2 ^ 32) in
  (minImageCount caps <= resize_image_count settings_ caps
     <= maxImageCount caps)%N /\
  ((minImageCount caps <= configured <= maxImageCount caps)%N ->
   resize_image_count settings_ caps = configured).
Proof.
  intros Hrange configured. unfold resize_image_count. fold configured.
  destruct (N.ltb_spec configured (minImageCount caps));
    destruct (N.ltb_spec (maxImageCount caps) configured); lia.
Qed.

Lemma resize_image_count_zero (caps : VkSurfaceCapabilitiesKHR) :
  maxImageCount caps = 0%N ->
  let configured := Z.to_N (back_buffer_count settings_ mod 2 ^ 32) in
  (0 < configured)%N ->
  (minImageCount caps <= configured)%N ->
  resize_image_count settings_ caps = 0%N.
Proof.
  intros Hmax configured Hpos Hmin. unfold resize_image_count.
  fold configured. rewrite Hmax.
  destruct (N.ltb_spec configured (minImageCount caps)); [lia |].
  destruct (N.ltb_spec 0 configured); [done | lia].
Qed.

Lemma nonzero_true (flags : N) : nonzero flags = true <-> flags <> 0%N.
Proof.
  unfold nonzero. rewrite negb_true_iff. apply N.eqb_neq.
Qed.

Lemma nonzero_false (flags : N) : nonzero flags = false <-> flags = 0%N.
Proof.
  unfold nonzero. rewrite negb_false_iff. apply N.eqb_eq.
Qed.

(** Flags that share a bit with a single bit contain that bit. *)
Lemma land_single_bit (flags n : N) :
  N.land flags (2 ^ n) <> 0%N -> N.land flags (2 ^ n) = (2 ^ n)%N.
Proof.
  intros Hshared. apply N.bits_inj. intros m.
  rewrite N.land_spec, N.pow2_bits_eqb.
  destruct (N.eqb_spec n m) as [<- | Hne]; [| by rewrite andb_false_r].
  rewrite andb_true_r. destruct (N.testbit flags n) eqn:Hbit; [done |].
  exfalso. apply Hshared. apply N.bits_inj. intros k.
  rewrite N.land_spec, N.pow2_bits_eqb, N.bits_0.
  destruct (N.eqb_spec n k) as [<- | Hne]; [by rewrite Hbit |].
  by rewrite andb_false_r.
Qed.

(** Every swapchain creation that a run of [resize_swapchain] makes is
    [requested], whatever the outcome of the run. *)
Lemma resize_swapchain_requested (D : Driver) (c : Context)
    (width_hint height_hint : N) (w : world D) :
  let caps := (answer D _ (GetPhysicalDeviceSurfaceCapabilitiesKHR
                             (physical_dev c) (surface c)) w).1.2 in
  Forall (creates (requested settings_ c caps width_hint height_hint))
    (trace (run D (resize_swapchain accepts settings_ c width_hint
                     height_hint) w)).
Proof.
  unfold resize_swapchain, assert_success. cbn.
  destruct (answer D _ (GetPhysicalDeviceSurfaceCapabilitiesKHR _ _) w)
    as [[r caps] w1]; cbn.
  destruct (accepts r); cbn; [| by repeat constructor].
  destruct (_ && _); cbn; [by repeat constructor |].
  destruct (nonzero (N.land (supportedUsageFlags caps) _)) eqn:Husage; cbn;
    [| by repeat constructor].
  destruct (nonzero (N.land (supportedTransforms caps) _)) eqn:Htransform;
    cbn; [| by repeat constructor].
  destruct (nonzero (N.land _ (N.lor _ _))) eqn:Halpha; cbn;
    [| by repeat constructor].
  apply nonzero_true in Husage, Htransform, Halpha.
  destruct (answer D _ (GetSurfacePresentModes _ _) w1) as [modes w2]; cbn.
  assert (Hreq : requested settings_ c caps width_hint height_hint
    {| sci_surface := surface c;
       sci_minImageCount := resize_image_count settings_ caps;
       sci_imageFormat := sf_format (format c);
       sci_imageColorSpace := sf_colorSpace (format c);
       sci_imageExtent := resize_extent caps width_hint height_hint;
       sci_imageArrayLayers := 1;
       sci_imageUsage := VK_IMAGE_USAGE_COLOR_ATTACHMENT_BIT;
       sci_imageSharingMode :=
         if negb (frameProcessor_queue_family c =? present_queue_family c)%N
         then VK_SHARING_MODE_CONCURRENT else VK_SHARING_MODE_EXCLUSIVE;
       sci_queueFamilyIndices :=
         if negb (frameProcessor_queue_family c =? present_queue_family c)%N
         then [frameProcessor_queue_family c; present_queue_family c]
         else [];
       sci_preTransform := currentTransform caps;
       sci_compositeAlpha :=
         if nonzero (N.land (supportedCompositeAlpha caps)
                       VK_COMPOSITE_ALPHA_INHERIT_BIT_KHR)
         then VK_COMPOSITE_ALPHA_INHERIT_BIT_KHR
         else VK_COMPOSITE_ALPHA_OPAQUE_BIT_KHR;
       sci_presentMode := select_present_mode settings_ modes;
       sci_clipped := true;
       sci_oldSwapchain := swapchain c |}).
  { unfold requested; cbn.
    repeat (split; [done |]).
    split; [by destruct (_ =? _)%N |].
    repeat (split; [done |]).
    split; [| done].
    destruct (nonzero (N.land (supportedCompositeAlpha caps)
                         VK_COMPOSITE_ALPHA_INHERIT_BIT_KHR)) eqn:Hinherit.
    - by apply nonzero_true.
    - apply nonzero_false in Hinherit.
      rewrite N.land_lor_distr_r, Hinherit, N.lor_0_r in Halpha. done. }
  destruct (answer D _ (CreateSwapchainKHR _ _) w2) as [[r2 sc] w3]; cbn.
  constructor; [exact I |]. constructor; [exact I |].
  constructor; [exact Hreq |].
  destruct (accepts r2); cbn; [| by repeat constructor].
  destruct (swapchain c =? VK_NULL_HANDLE)%N; cbn.
  - destruct (answer D _ fp_attach_swapchain w3) as [[] w4]; cbn.
    by repeat constructor.
  - destruct (answer D _ fp_detach_swapchain w3) as [[] w4]; cbn.
    destruct (answer D _ (DeviceWaitIdle _) w4) as [r5 w5]; cbn.
    destruct (answer D _ (DestroySwapchainKHR _ _) w5) as [[] w6]; cbn.
    destruct (answer D _ fp_attach_swapchain w6) as [[] w7]; cbn.
    by repeat constructor.
Qed.

(** A [resize_swapchain] that returns with another extent has created a
    swapchain on the device of the context. *)
Lemma resize_swapchain_created (D : Driver) (c c' : Context)
    (width_hint height_hint : N) (w : world D) :
  outcome (run D (resize_swapchain accepts settings_ c width_hint height_hint)
             w) = Returned c' ->
  extent c' <> extent c ->
  exists info,
    Ev (CreateSwapchainKHR (dev c) info)
      ∈ trace (run D (resize_swapchain accepts settings_ c width_hint
                        height_hint) w).
Proof.
  unfold resize_swapchain, assert_success. cbn.
  destruct (answer D _ (GetPhysicalDeviceSurfaceCapabilitiesKHR _ _) w)
    as [[r caps] w1]; cbn.
  destruct (accepts r); cbn; [| done].
  destruct (_ && _); cbn; [by intros [= <-] |].
  destruct (nonzero (N.land (supportedUsageFlags caps) _)); cbn; [| done].
  destruct (nonzero (N.land (supportedTransforms caps) _)); cbn; [| done].
  destruct (nonzero (N.land _ (N.lor _ _))); cbn; [| done].
  destruct (answer D _ (GetSurfacePresentModes _ _) w1) as [modes w2]; cbn.
  destruct (answer D _ (CreateSwapchainKHR _ _) w2) as [[r2 sc] w3]; cbn.
  destruct (accepts r2); cbn; [| done].
  destruct (swapchain c =? VK_NULL_HANDLE)%N; cbn.
  - destruct (answer D _ fp_attach_swapchain w3) as [[] w4]; cbn.
    intros _ _. eexists. apply elem_of_cons. right.
    apply elem_of_cons. right. apply elem_of_cons. by left.
  - destruct (answer D _ fp_detach_swapchain w3) as [[] w4]; cbn.
    destruct (answer D _ (DeviceWaitIdle _) w4) as [r5 w5]; cbn.
    destruct (answer D _ (DestroySwapchainKHR _ _) w5) as [[] w6]; cbn.
    destruct (answer D _ fp_attach_swapchain w6) as [[] w7]; cbn.
    intros _ _. eexists. apply elem_of_cons. right.
    apply elem_of_cons. right. apply elem_of_cons. by left.
Qed.

(** What holds of every creation of a run holds of the creation that a
    resize to another extent has made. *)
Lemma resize_swapchain_created_with (D : Driver) (c c' : Context)
    (width_hint height_hint : N) (w : world D)
    (P : VkSwapchainCreateInfoKHR -> Prop) :
  Forall (creates P)
    (trace (run D (resize_swapchain accepts settings_ c width_hint
                     height_hint) w)) ->
  outcome (run D (resize_swapchain accepts settings_ c width_hint height_hint)
             w) = Returned c' ->
  extent c' <> extent c ->
  exists info,
    Ev (CreateSwapchainKHR (dev c) info)
      ∈ trace (run D (resize_swapchain accepts settings_ c width_hint
                        height_hint) w) /\
    P info.
Proof.
  intros Hall Hrun Hext.
  destruct (resize_swapchain_created D c c' _ _ w Hrun Hext) as [info Hin].
  exists info. split; [exact Hin |].
  rewrite Forall_forall in Hall. exact (Hall _ Hin).
Qed.

Lemma creates_weaken (P Q : VkSwapchainCreateInfoKHR -> Prop)
    (tr : list Event) :
  (forall info, P info -> Q info) ->
  Forall (creates P) tr -> Forall (creates Q) tr.
Proof.
  intros HPQ Htr. eapply Forall_impl; [exact Htr |].
  intros [R call]. destruct call; cbn; auto.
Qed.

(** X2. When the platform's image-count range is not empty, every
    swapchain that [resize_swapchain] creates is asked to have a minimum
    image count in that range, and the configured back-buffer count (as a
    [uint32_t]) whenever that count lies in the range itself; a resize
    that returns with another extent has created such a swapchain. *)
Theorem resize_image_count_in_range (D : Driver) (c : Context)
    (width_hint height_hint : N) (w : world D) :
  let caps := (answer D _ (GetPhysicalDeviceSurfaceCapabilitiesKHR
                             (physical_dev c) (surface c)) w).1.2 in
  let configured := Z.to_N (back_buffer_count settings_ mod 2 ^ 32) in
  let in_range := fun info =>
    (minImageCount caps <= sci_minImageCount info <= maxImageCount caps)%N /\
    ((minImageCount caps <= configured <= maxImageCount caps)%N ->
     sci_minImageCount info = configured) in
  (minImageCount caps <= maxImageCount caps)%N ->
  Forall (creates in_range)
    (trace (run D (resize_swapchain accepts settings_ c width_hint
                     height_hint) w)) /\
  forall c',
    outcome (run D (resize_swapchain accepts settings_ c width_hint
                      height_hint) w) = Returned c' ->
    extent c' <> extent c ->
    exists info,
      Ev (CreateSwapchainKHR (dev c) info)
        ∈ trace (run D (resize_swapchain accepts settings_ c width_hint
                          height_hint) w) /\
      in_range info.
Proof.
  intros caps configured in_range Hrange.
  assert (Hall : Forall (creates in_range)
            (trace (run D (resize_swapchain accepts settings_ c width_hint
                             height_hint) w))).
  { eapply creates_weaken; [| apply resize_swapchain_requested].
    fold caps. intros info Hreq.
    destruct Hreq as (_ & _ & _ & _ & _ & _ & _ & _ & _ & Hcount & _).
    unfold in_range. rewrite Hcount.
    exact (resize_image_count_clamped caps Hrange). }
  split; [exact Hall |].
  intros c'. by apply resize_swapchain_created_with.
Qed.

(** X3. A [maxImageCount] of zero is clamped against like any other
    bound: when the configured count is positive and not below
    [minImageCount], every swapchain that [resize_swapchain] creates is
    asked to have a minimum image count of zero, and a resize that returns
    with another extent has created such a swapchain. *)
Theorem resize_image_count_zero_max (D : Driver) (c : Context)
    (width_hint height_hint : N) (w : world D) :
  let caps := (answer D _ (GetPhysicalDeviceSurfaceCapabilitiesKHR
                             (physical_dev c) (surface c)) w).1.2 in
  let configured := Z.to_N (back_buffer_count settings_ mod 2 ^ 32) in
  maxImageCount caps = 0%N ->
  (0 < configured)%N ->
  (minImageCount caps <= configured)%N ->
  Forall (creates (fun info => sci_minImageCount info = 0%N))
    (trace (run D (resize_swapchain accepts settings_ c width_hint
                     height_hint) w)) /\
  forall c',
    outcome (run D (resize_swapchain accepts settings_ c width_hint
                      height_hint) w) = Returned c' ->
    extent c' <> extent c ->
    exists info,
      Ev (CreateSwapchainKHR (dev c) info)
        ∈ trace (run D (resize_swapchain accepts settings_ c width_hint
                          height_hint) w) /\
      sci_minImageCount info = 0%N.
Proof.
  intros caps configured Hmax Hpos Hmin.
  assert (Hall : Forall (creates (fun info => sci_minImageCount info = 0%N))
            (trace (run D (resize_swapchain accepts settings_ c width_hint
                             height_hint) w))).
  { eapply creates_weaken; [| apply resize_swapchain_requested].
    fold caps. intros info Hreq.
    destruct Hreq as (_ & _ & _ & _ & _ & _ & _ & _ & _ & Hcount & _).
    rewrite Hcount. exact (resize_image_count_zero caps Hmax Hpos Hmin). }
  split; [exact Hall |].
  intros c'. by apply resize_swapchain_created_with.
Qed.

(** X4. A swapchain that [resize_swapchain] creates is shared
    concurrently between the render and the present queue family, both
    listed once each, when the two families differ, and is exclusive with
    no family listed when they are the same. *)
Theorem resize_swapchain_sharing (D : Driver) (c : Context)
    (width_hint height_hint : N) (w : world D) :
  Forall
    (creates (fun info =>
       NoDup (sci_queueFamilyIndices info) /\
       if decide (frameProcessor_queue_family c = present_queue_family c)
       then sci_imageSharingMode info = VK_SHARING_MODE_EXCLUSIVE /\
            sci_queueFamilyIndices info = []
       else sci_imageSharingMode info = VK_SHARING_MODE_CONCURRENT /\
            sci_queueFamilyIndices info =
              [frameProcessor_queue_family c; present_queue_family c]))
    (trace (run D (resize_swapchain accepts settings_ c width_hint
                     height_hint) w)).
Proof.
  eapply creates_weaken; [| apply resize_swapchain_requested].
  intros info (_ & _ & Hshare & _).
  destruct (N.eqb_spec (frameProcessor_queue_family c)
              (present_queue_family c)) as [Heq | Hne].
  - rewrite decide_True by done. destruct Hshare as [? ->].
    split; [constructor | done].
  - rewrite decide_False by done. destruct Hshare as [? ->].
    split; [| done]. apply NoDup_cons. split; [| apply NoDup_singleton].
    by intros ?%list_elem_of_singleton.
Qed.

(** X5. Every swapchain that [resize_swapchain] creates replaces the
    chain that the context holds and is asked from what the platform
    reported. Its usage is the colour attachment and nothing else, and
    the platform supports it. Its pre-transform is the current transform,
    which shares a bit with the supported transforms. Its composite alpha
    is inherit when the platform supports inherit and opaque otherwise,
    and the platform supports the one asked for. A resize that returns
    with another extent has created such a swapchain. *)
Theorem resize_swapchain_supported (D : Driver) (c : Context)
    (width_hint height_hint : N) (w : world D) :
  let caps := (answer D _ (GetPhysicalDeviceSurfaceCapabilitiesKHR
                             (physical_dev c) (surface c)) w).1.2 in
  let supported := fun info =>
    sci_oldSwapchain info = swapchain c /\
    sci_imageUsage info = VK_IMAGE_USAGE_COLOR_ATTACHMENT_BIT /\
    N.land (supportedUsageFlags caps) (sci_imageUsage info)
      = sci_imageUsage info /\
    sci_preTransform info = currentTransform caps /\
    N.land (supportedTransforms caps) (sci_preTransform info) <> 0%N /\
    sci_compositeAlpha info =
      (if nonzero (N.land (supportedCompositeAlpha caps)
                     VK_COMPOSITE_ALPHA_INHERIT_BIT_KHR)
       then VK_COMPOSITE_ALPHA_INHERIT_BIT_KHR
       else VK_COMPOSITE_ALPHA_OPAQUE_BIT_KHR) /\
    N.land (supportedCompositeAlpha caps) (sci_compositeAlpha info)
      = sci_compositeAlpha info in
  Forall (creates supported)
    (trace (run D (resize_swapchain accepts settings_ c width_hint
                     height_hint) w)) /\
  forall c',
    outcome (run D (resize_swapchain accepts settings_ c width_hint
                      height_hint) w) = Returned c' ->
    extent c' <> extent c ->
    exists info,
      Ev (CreateSwapchainKHR (dev c) info)
        ∈ trace (run D (resize_swapchain accepts settings_ c width_hint
                          height_hint) w) /\
      supported info.
Proof.
  intros caps supported.
  assert (Hall : Forall (creates supported)
            (trace (run D (resize_swapchain accepts settings_ c width_hint
                             height_hint) w))).
  { eapply creates_weaken; [| apply resize_swapchain_requested].
    fold caps.
    intros info (_ & Hold & _ & Husage & Hu & Hpre & Ht & Halpha & Ha & _).
    unfold supported. repeat (split; [done |]).
    split; [| split; [done |]; split; [done |]; split; [done |]].
    - rewrite Husage in Hu |- *.
      change VK_IMAGE_USAGE_COLOR_ATTACHMENT_BIT with (2 ^ 4)%N in Hu |- *.
      by apply land_single_bit.
    - rewrite Halpha in Ha |- *.
      destruct (nonzero (N.land (supportedCompositeAlpha caps)
                           VK_COMPOSITE_ALPHA_INHERIT_BIT_KHR)).
      + change VK_COMPOSITE_ALPHA_INHERIT_BIT_KHR with (2 ^ 3)%N in Ha |- *.
        by apply land_single_bit.
      + change VK_COMPOSITE_ALPHA_OPAQUE_BIT_KHR with (2 ^ 0)%N in Ha |- *.
        by apply land_single_bit. }
  split; [exact Hall |].
  intros c'. by apply resize_swapchain_created_with.
Qed.

(** X6. A [resize_swapchain] that fails replaces nothing: whatever the
    failure (a rejected capability query, a failed assertion on the
    capabilities, a rejected swapchain creation), the run has not detached
    or attached the consumer, waited for the device or destroyed a chain. *)
Theorem resize_swapchain_failure_replaces_nothing (D : Driver) (c : Context)
    (width_hint height_hint : N) (w : world D) (e : Failure) :
  outcome (run D (resize_swapchain accepts settings_ c width_hint height_hint)
             w) = Failed e ->
  Forall (fun ev => is_replacement ev = false)
    (trace (run D (resize_swapchain accepts settings_ c width_hint
                     height_hint) w)).
Proof.
  unfold resize_swapchain, assert_success. cbn.
  destruct (answer D _ (GetPhysicalDeviceSurfaceCapabilitiesKHR _ _) w)
    as [[r caps] w1]; cbn.
  destruct (accepts r); cbn; [| by repeat constructor].
  destruct (_ && _); cbn; [done |].
  destruct (nonzero (N.land (supportedUsageFlags caps) _)); cbn;
    [| by repeat constructor].
  destruct (nonzero (N.land (supportedTransforms caps) _));
    cbn; [| by repeat constructor].
  destruct (nonzero (N.land _ (N.lor _ _))); cbn;
    [| by repeat constructor].
  destruct (answer D _ (GetSurfacePresentModes _ _) w1) as [modes w2]; cbn.
  destruct (answer D _ (CreateSwapchainKHR _ _) w2) as [[r2 sc] w3]; cbn.
  destruct (accepts r2); cbn; [| by repeat constructor].
  destruct (swapchain c =? VK_NULL_HANDLE)%N; cbn.
  - by destruct (answer D _ fp_attach_swapchain w3) as [[] w4].
  - destruct (answer D _ fp_detach_swapchain w3) as [[] w4]; cbn.
    destruct (answer D _ (DeviceWaitIdle _) w4) as [r5 w5]; cbn.
    destruct (answer D _ (DestroySwapchainKHR _ _) w5) as [[] w6]; cbn.
    by destruct (answer D _ fp_attach_swapchain w6) as [[] w7].
Qed.

End Requests.

(** ** Destruction of the registry and the pool *)

Lemma total_bind {A B : Type} (p : Prog A) (f : A -> Prog B)
    (Q1 : A -> Prop) (Q : B -> Prop) :
  total p Q1 -> (forall a, Q1 a -> total (f a) Q) -> total (p ≫= f) Q.
Proof.
  rewrite bind_eq. intros Hp Hf.
  induction p as [a | e | R c k IH]; simpl in *; auto.
Qed.

Lemma total_mono {A : Type} (p : Prog A) (Q Q' : A -> Prop) :
  total p Q -> (forall a, Q a -> Q' a) -> total p Q'.
Proof. intros Hp HQ. induction p; simpl in *; auto. Qed.

Lemma total_run {A : Type} (D : Driver) (p : Prog A) (Q : A -> Prop)
    (w : world D) :
  total p Q -> exists a, outcome (run D p w) = Returned a /\ Q a.
Proof.
  revert w. induction p as [a | e | R c k IH]; intros w; simpl.
  - eauto.
  - done.
  - intros Hk. destruct (answer D R c w) as [r w1]; simpl. by apply IH.
Qed.

Lemma AcquireBuffer_dtor_total (a : AcquireBuffer) :
  total (AcquireBuffer_dtor a) (fun _ => True).
Proof.
  unfold AcquireBuffer_dtor.
  destruct (semaphore_ a =? _)%N, (fence_ a =? _)%N; cbn; auto.
Qed.

(** Deleting a live object removes it from the free store and nothing
    else. *)
Lemma delete_AcquireBuffer_total (h : gmap nat AcquireBuffer)
    (p : AcquireBufferPtr) :
  is_Some (h !! p) ->
  total (delete_AcquireBuffer h p) (fun h' => h' = delete p h).
Proof.
  intros [a Ha]. unfold delete_AcquireBuffer. rewrite Ha.
  eapply total_bind; [apply AcquireBuffer_dtor_total | done].
Qed.

Lemma delete_each_total (q : list AcquireBufferPtr)
    (h : gmap nat AcquireBuffer) :
  NoDup q -> (forall p, p ∈ q -> is_Some (h !! p)) ->
  total (delete_each h q)
    (fun h' => forall p, h' !! p = if decide (p ∈ q) then None else h !! p).
Proof.
  revert h. induction q as [| p0 q IH]; intros h Hnd Hlive.
  - cbn. intros p. by rewrite decide_False by apply not_elem_of_nil.
  - apply NoDup_cons in Hnd as [Hnot Hnd]. cbn [delete_each].
    eapply total_bind.
    { apply delete_AcquireBuffer_total, Hlive. by left. }
    intros h1 ->.
    assert (Hlive1 : forall p, p ∈ q -> is_Some (delete p0 h !! p)).
    { intros p Hp. rewrite lookup_delete_ne by (by intros ->).
      apply Hlive. by right. }
    eapply total_mono; [exact (IH (delete p0 h) Hnd Hlive1) |].
    intros h2 Hprog p. rewrite Hprog.
    destruct (decide (p = p0)) as [-> | Hne].
    + rewrite (decide_True (P := p0 ∈ p0 :: q)) by (by left).
      by rewrite lookup_delete_eq; destruct (decide (p0 ∈ q)).
    + rewrite lookup_delete_ne by done.
      destruct (decide (p ∈ q)).
      * by rewrite decide_True by (by right).
      * rewrite decide_False; [done |].
        by intros [? | ?]%elem_of_cons.
Qed.

Lemma BackBuffer_dtor_total (h : gmap nat AcquireBuffer) (b : BackBuffer) :
  (forall p, acquireBuffer_ b = Some p -> is_Some (h !! p)) ->
  total (BackBuffer_dtor h b)
    (fun h' => h' = match acquireBuffer_ b with
                    | Some p => delete p h
                    | None => h
                    end).
Proof.
  intros Hlive. unfold BackBuffer_dtor.
  eapply (total_bind _ _ (fun _ => True)).
  - destruct (renderSemaphore_ b =? _)%N; cbn; auto.
  - intros _ _. destruct (acquireBuffer_ b) as [p |]; [| done].
    by apply delete_AcquireBuffer_total, Hlive.
Qed.

Lemma removed_cons (h h2 : gmap nat AcquireBuffer) (p0 : AcquireBufferPtr)
    (q : list AcquireBufferPtr) :
  (forall p, h2 !! p = if decide (p ∈ q) then None else delete p0 h !! p) ->
  forall p, h2 !! p = if decide (p ∈ p0 :: q) then None else h !! p.
Proof.
  intros Hh2 p. rewrite Hh2.
  destruct (decide (p = p0)) as [-> | Hne].
  - rewrite (decide_True (P := p0 ∈ p0 :: q)) by (by left).
    by rewrite lookup_delete_eq; destruct (decide (p0 ∈ q)).
  - rewrite lookup_delete_ne by done.
    destruct (decide (p ∈ q)).
    + by rewrite decide_True by (by right).
    + rewrite decide_False; [done |]. by intros [? | ?]%elem_of_cons.
Qed.

Lemma destroy_each_total (bs : list BackBuffer) (h : gmap nat AcquireBuffer) :
  NoDup (omap acquireBuffer_ bs) ->
  (forall p, p ∈ omap acquireBuffer_ bs -> is_Some (h !! p)) ->
  total (destroy_each h bs)
    (fun h' => forall p, h' !! p = if decide (p ∈ omap acquireBuffer_ bs)
                                   then None else h !! p).
Proof.
  revert h. induction bs as [| b bs IH]; intros h Hnd Hlive.
  - cbn. intros p. by rewrite decide_False by apply not_elem_of_nil.
  - cbn [destroy_each]. cbn in Hnd, Hlive |- *.
    eapply total_bind.
    { apply BackBuffer_dtor_total. intros p Hp. apply Hlive.
      rewrite Hp. by left. }
    intros h1 ->. destruct (acquireBuffer_ b) as [p0 |].
    + apply NoDup_cons in Hnd as [Hnot Hnd].
      assert (Hlive1 : forall p, p ∈ omap acquireBuffer_ bs ->
                                 is_Some (delete p0 h !! p)).
      { intros p Hp. rewrite lookup_delete_ne by (by intros ->).
        apply Hlive. by right. }
      eapply total_mono; [exact (IH (delete p0 h) Hnd Hlive1) |].
      intros h2. apply removed_cons.
    + by apply IH.
Qed.

(** With unique live tokens [destroy_back_buffers] returns, and what it
    returns has let go of every token and of nothing else. *)
Lemma destroy_back_buffers_total (c : Context) :
  tokens_unique c ->
  tokens_live c ->
  total (destroy_back_buffers c)
    (fun c' =>
       backBuffers_ c' = [] /\
       acquireBuffers_ c' = [] /\
       currentBackBuffer_ c' = 0%N /\
       forall p, free_store c' !! p =
                   if decide (p ∈ acquireBuffers_ c ++ borrowed c) then None
                   else free_store c !! p).
Proof.
  intros Hu Hlive.
  unfold tokens_unique in Hu. apply NoDup_app in Hu as (Hq & Hdisj & Hb).
  unfold destroy_back_buffers. eapply total_bind.
  { apply destroy_each_total; [exact Hb |].
    intros p Hp. apply Hlive. apply elem_of_app. by right. }
  intros h1 Hh1. cbn. eapply total_bind.
  { apply delete_each_total; [exact Hq |].
    intros p Hp. rewrite Hh1.
    rewrite decide_False by (by apply Hdisj).
    apply Hlive. apply elem_of_app. by left. }
  intros h2 Hh2. cbn. repeat split.
  intros p. rewrite Hh2, Hh1. unfold borrowed.
  destruct (decide (p ∈ acquireBuffers_ c)) as [Hin | Hout].
  - rewrite decide_True; [done |]. apply elem_of_app. by left.
  - destruct (decide (p ∈ omap acquireBuffer_ (backBuffers_ c))).
    + rewrite decide_True; [done |]. apply elem_of_app. by right.
    + rewrite decide_False; [done |]. by intros [? | ?]%elem_of_app.
Qed.

(** X7. When no token is held twice and every token is a live object,
    [destroy_back_buffers] returns whatever the driver does: the registry
    and the pool are empty, every token has left the free store, each
    deleted once, and the other objects of the free store are as they
    were. *)
Theorem destroy_back_buffers_frees_once (D : Driver) (c : Context)
    (w : world D) :
  tokens_unique c ->
  tokens_live c ->
  exists c',
    outcome (run D (destroy_back_buffers c) w) = Returned c' /\
    backBuffers_ c' = [] /\
    acquireBuffers_ c' = [] /\
    currentBackBuffer_ c' = 0%N /\
    forall p, free_store c' !! p =
                if decide (p ∈ acquireBuffers_ c ++ borrowed c) then None
                else free_store c !! p.
Proof.
  intros Hu Hlive. by apply total_run, destroy_back_buffers_total.
Qed.

(** ** The free store along the cycle *)

Ltac post_cases :=
  repeat (cbn; first [ exact I | progress intros | case_match ]).

Lemma post_and {A : Type} (p : Prog A) (Q1 Q2 : A -> Prop) :
  post p Q1 -> post p Q2 -> post p (fun a => Q1 a /\ Q2 a).
Proof. induction p; simpl; auto. Qed.

Section Store.

Context (accepts : VkResult -> bool) (settings_ : Settings).

Lemma acquire_back_buffer_store (c : Context) (trainFrame : bool) :
  post (acquire_back_buffer accepts settings_ c trainFrame)
    (fun c' => free_store c' = free_store c).
Proof.
  unfold acquire_back_buffer, acquired_once, GetCurrentBackBuffer, deref,
    assert_success, BackBuffer_GetAcquireSemaphore, BackBuffer_SetAcquireBuffer.
  post_cases; try done.
Qed.

Lemma present_back_buffer_store (c : Context) (trainFrame : bool) :
  post (present_back_buffer accepts settings_ c trainFrame)
    (fun c' => free_store c' = free_store c).
Proof.
  unfold present_back_buffer, fake_present, GetCurrentBackBuffer,
    assert_success, BackBuffer_GetAcquireSemaphore, assert.
  post_cases; try done.
Qed.

(** A returning acquisition moves tokens between the pool and the back
    buffers; the tokens are the same. *)
Lemma acquired_same_tokens (c c' : Context) :
  acquired settings_ c c' ->
  acquireBuffers_ c' ++ borrowed c' ≡ₚ acquireBuffers_ c ++ borrowed c.
Proof.
  intros [back token _ _ _ -> | head popped imageIndex back
                                 Hq Hb Hq' Hb' _ _]; [done |].
  unfold borrowed. rewrite Hq, Hq', Hb'.
  destruct (borrowed_middle _ _ _
              (BackBuffer_SetAcquireBuffer back imageIndex head).2 Hb)
    as [-> ->].
  apply pool_rotation.
Qed.

Lemma step_same_tokens (c : Context) (op : Op) :
  post (step accepts settings_ c op)
    (fun c' => free_store c' = free_store c /\
               acquireBuffers_ c' ++ borrowed c'
                 ≡ₚ acquireBuffers_ c ++ borrowed c).
Proof.
  destruct op as [trainFrame | trainFrame]; cbn; apply post_and.
  - apply acquire_back_buffer_store.
  - eapply post_mono; [| apply acquire_back_buffer_acquired].
    apply acquired_same_tokens.
  - apply present_back_buffer_store.
  - eapply post_mono; [| apply present_back_buffer_tokens].
    by intros c' (-> & -> & _).
Qed.

Lemma steps_same_tokens (ops : list Op) (c : Context) :
  post (steps accepts settings_ ops c)
    (fun c' => free_store c' = free_store c /\
               acquireBuffers_ c' ++ borrowed c'
                 ≡ₚ acquireBuffers_ c ++ borrowed c).
Proof.
  revert c. induction ops as [| op ops IH]; intros c; [done |].
  cbn [steps]. eapply post_bind_strong; [apply step_same_tokens |].
  intros c1 [Hs1 Ht1]. eapply post_mono; [| apply IH].
  intros c' [Hs Ht]. split; [congruence | by rewrite Ht].
Qed.

Lemma tokens_live_same (c c' : Context) :
  free_store c' = free_store c ->
  acquireBuffers_ c' ++ borrowed c' ≡ₚ acquireBuffers_ c ++ borrowed c ->
  tokens_live c -> tokens_live c'.
Proof.
  intros Hs Ht Hlive p Hp. rewrite Hs. apply Hlive. by rewrite <- Ht.
Qed.

(** The tokens that the second loop of [create_back_buffers] makes are
    new objects of the free store; what the store held stays. *)
Lemma create_acquire_buffers_store (n : nat) (c : Context) :
  post (create_acquire_buffers accepts n c)
    (fun c' =>
       exists new,
         acquireBuffers_ c' = acquireBuffers_ c ++ new /\
         (forall p, p ∈ new ->
            free_store c !! p = None /\ is_Some (free_store c' !! p)) /\
         (forall p, p ∉ new -> free_store c' !! p = free_store c !! p)).
Proof.
  revert c. induction n as [| n IH]; intros c.
  - cbn. exists []. rewrite app_nil_r.
    split; [done |]. split; [by intros ? ?%elem_of_nil | done].
  - cbn [create_acquire_buffers].
    unfold AcquireBuffer_Create, assert_success. cbn.
    intros [r sem]. destruct (accepts r); cbn; [| done].
    intros [r' fence]. destruct (accepts r'); cbn; [| done].
    destruct (accepts VK_SUCCESS); cbn; [| done].
    eapply post_mono; [| apply IH].
    intros c'. cbn. intros (new & Hq & Hnew & Hold).
    set (p0 := fresh (dom (free_store c))) in *.
    assert (Hp0 : free_store c !! p0 = None)
      by apply not_elem_of_dom, is_fresh.
    assert (Hout : p0 ∉ new).
    { intros Hin. destruct (Hnew p0 Hin) as [Hnone _].
      by rewrite lookup_insert_eq in Hnone. }
    exists (p0 :: new). rewrite Hq, <- (assoc_L (++)). cbn.
    split; [done |]. split.
    + intros p [-> | Hin]%elem_of_cons.
      * split; [done |]. rewrite (Hold p0 Hout), lookup_insert_eq. eauto.
      * destruct (Hnew p Hin) as [Hnone Hsome]. split; [| done].
        rewrite lookup_insert_ne in Hnone; [done |]. by intros ->.
    + intros p Hp. apply not_elem_of_cons in Hp as [Hne Hp].
      rewrite (Hold p Hp). by rewrite lookup_insert_ne.
Qed.

(** The free store after [create_back_buffers] on an empty registry and
    pool: the pool's tokens are new live objects, the rest is as before. *)
Lemma create_back_buffers_store (c : Context) :
  (0 <= back_buffer_count settings_)%Z ->
  backBuffers_ c = [] -> acquireBuffers_ c = [] ->
  post (create_back_buffers accepts settings_ c)
    (fun c' =>
       (forall p, p ∈ acquireBuffers_ c' ->
          free_store c !! p = None /\ is_Some (free_store c' !! p)) /\
       (forall p, p ∉ acquireBuffers_ c' ->
          free_store c' !! p = free_store c !! p)).
Proof.
  intros Hcount Hb Hq. unfold create_back_buffers.
  rewrite resize_back_buffers_empty by (done || lia). cbn.
  eapply post_bind_strong; [apply create_each_post |]. intros bs _.
  eapply post_bind_strong; [apply create_acquire_buffers_store |].
  cbn. intros c' (new & Hq' & Hnew & Hold). cbn.
  rewrite Hq', Hq. cbn. done.
Qed.

(** X8. Creation, use and destruction leave the free store as it was:
    from an empty registry and pool, after [create_back_buffers] and any
    sequence of acquire and present calls that returned,
    [destroy_back_buffers] returns, with an empty registry and pool and
    the free store that creation started from. No token leaks and none is
    deleted twice. *)
Theorem create_use_destroy (D : Driver) (c0 c1 c2 : Context)
    (ops : list Op) (w w1 w2 : world D) :
  (0 <= back_buffer_count settings_)%Z ->
  backBuffers_ c0 = [] ->
  acquireBuffers_ c0 = [] ->
  outcome (run D (create_back_buffers accepts settings_ c0) w)
    = Returned c1 ->
  outcome (run D (steps accepts settings_ ops c1) w1) = Returned c2 ->
  exists c3,
    outcome (run D (destroy_back_buffers c2) w2) = Returned c3 /\
    backBuffers_ c3 = [] /\
    acquireBuffers_ c3 = [] /\
    free_store c3 = free_store c0.
Proof.
  intros Hcount Hb Hq Hrun1 Hrun2.
  destruct (post_run D _ _ w c1 (create_back_buffers_post accepts settings_
              c0 Hcount Hb Hq) Hrun1) as (_ & _ & Hbor & Hu1).
  destruct (post_run D _ _ w c1 (create_back_buffers_store c0 Hcount Hb Hq)
              Hrun1) as [Hnew Hold].
  destruct (post_run D _ _ w1 c2 (steps_same_tokens ops c1) Hrun2)
    as [Hs Ht].
  destruct (post_run D _ _ w1 c2 (steps_pool_kept accepts settings_ ops c1)
              Hrun2) as (Hu2 & _).
  assert (Hlive1 : tokens_live c1).
  { intros p Hp. rewrite Hbor, app_nil_r in Hp. by apply Hnew. }
  pose proof (tokens_live_same c1 c2 Hs Ht Hlive1) as Hlive2.
  destruct (total_run D _ _ w2
              (destroy_back_buffers_total c2 (Hu2 Hu1) Hlive2))
    as (c3 & Hrun3 & Hb3 & Hq3 & _ & Hstore).
  exists c3. repeat (split; [done |]).
  apply map_eq. intros p. rewrite Hstore.
  destruct (decide (p ∈ acquireBuffers_ c2 ++ borrowed c2)) as [Hin | Hout].
  - rewrite Ht, Hbor, app_nil_r in Hin. by destruct (Hnew p Hin) as [-> _].
  - rewrite Ht, Hbor, app_nil_r in Hout. by rewrite Hs, Hold.
Qed.

End Store.

(** ** No undefined behaviour in the cycle *)

Lemma never_bind {A B : Type} (bad : Failure -> Prop) (p : Prog A)
    (f : A -> Prog B) (Q : A -> Prop) :
  never bad p -> post p Q -> (forall a, Q a -> never bad (f a)) ->
  never bad (p ≫= f).
Proof.
  rewrite bind_eq. intros Hn Hp Hf.
  induction p as [a | e | R c k IH]; simpl in *; auto.
Qed.

Lemma never_run {A : Type} (D : Driver) (bad : Failure -> Prop) (p : Prog A)
    (w : world D) (e : Failure) :
  never bad p -> outcome (run D p w) = Failed e -> ~ bad e.
Proof.
  revert w. induction p as [a | e' | R c k IH]; intros w; simpl.
  - done.
  - by intros Hn [= <-].
  - intros Hn. destruct (answer D R c w) as [r w1]; simpl. by apply IH.
Qed.

Section Defined_behaviour.

Context (accepts : VkResult -> bool) (settings_ : Settings).

Ltac never_cases :=
  repeat (cbn; first [ exact I | progress intros | case_match ]).

Lemma entry_token_live (c : Context) (i : nat) (back : BackBuffer)
    (p : AcquireBufferPtr) :
  tokens_live c ->
  backBuffers_ c !! i = Some back ->
  acquireBuffer_ back = Some p ->
  is_Some (free_store c !! p).
Proof.
  intros Hlive Hi Hp. apply Hlive, elem_of_app. right.
  apply list_elem_of_omap. exists back.
  split; [by eapply list_elem_of_lookup_2 | done].
Qed.

Lemma acquire_back_buffer_defined (c : Context) (trainFrame : bool) :
  tokens_live c -> pool_spare c ->
  never (fun e => e = Undefined)
    (acquire_back_buffer accepts settings_ c trainFrame).
Proof.
  intros Hlive Hspare.
  assert (Hhead : forall head popped,
            acquireBuffers_ c = head :: popped ->
            is_Some (free_store c !! head)).
  { intros head popped Hq. apply Hlive. rewrite Hq. by left. }
  assert (Hpool : acquireBuffers_ c <> []).
  { intros Hq. pose proof (borrowed_length c).
    unfold pool_spare, available in Hspare. rewrite Hq in Hspare.
    cbn in Hspare. lia. }
  unfold acquire_back_buffer, acquired_once, GetCurrentBackBuffer, deref,
    assert_success, BackBuffer_GetAcquireSemaphore, BackBuffer_SetAcquireBuffer.
  never_cases; try done; cbn; intros _; exfalso.
  all: try (by apply Hpool).
  all: try (by destruct (Hhead _ _ eq_refl) as [? ?]; congruence).
  all: match goal with
       | Hnone : semaphore_ <$> free_store ?x !! ?p = None,
         Hentry : backBuffers_ ?x !! _ = Some ?b,
         Htoken : acquireBuffer_ ?b = Some ?p |- _ =>
           apply fmap_None in Hnone;
           destruct (entry_token_live x _ b p Hlive Hentry Htoken);
           congruence
       end.
Qed.

Lemma present_back_buffer_defined (c : Context) (trainFrame : bool) :
  tokens_live c ->
  never (fun e => e = Undefined)
    (present_back_buffer accepts settings_ c trainFrame).
Proof.
  intros Hlive.
  unfold present_back_buffer, fake_present, GetCurrentBackBuffer,
    assert_success, BackBuffer_GetAcquireSemaphore, assert.
  never_cases; try done; cbn; intros _; exfalso.
  all: match goal with
       | Hnone : semaphore_ <$> free_store ?x !! ?p = None,
         Hentry : backBuffers_ ?x !! _ = Some ?b,
         Htoken : acquireBuffer_ ?b = Some ?p |- _ =>
           apply fmap_None in Hnone;
           destruct (entry_token_live x _ b p Hlive Hentry Htoken);
           congruence
       end.
Qed.

Lemma steps_defined (ops : list Op) (c : Context) :
  tokens_live c -> pool_spare c ->
  never (fun e => e = Undefined) (steps accepts settings_ ops c).
Proof.
  revert c. induction ops as [| op ops IH]; intros c Hlive Hspare; [done |].
  cbn [steps].
  eapply never_bind with
    (Q := fun c' => tokens_live c' /\ pool_spare c').
  - destruct op; cbn.
    + by apply acquire_back_buffer_defined.
    + by apply present_back_buffer_defined.
  - eapply post_mono;
      [| apply post_and;
         [apply (step_same_tokens accepts settings_)
         | apply (step_pool_kept accepts settings_)]].
    intros c' [[Hs Ht] (_ & Hn & Hl & _)]. split.
    + by apply (tokens_live_same c c').
    + unfold pool_spare in *. lia.
  - intros c' [? ?]. by apply IH.
Qed.

(** X9. The cycle never runs into undefined behaviour. From an empty
    registry and pool, after [create_back_buffers] has returned, no
    sequence of acquire and present calls ends by taking the front of an
    empty queue or by touching a token that is not a live object; and
    whenever the sequence returns, at least one token is in the pool. *)
Theorem cycle_defined (D : Driver) (c0 c1 : Context) (ops : list Op)
    (w w1 : world D) :
  (0 <= back_buffer_count settings_)%Z ->
  backBuffers_ c0 = [] ->
  acquireBuffers_ c0 = [] ->
  outcome (run D (create_back_buffers accepts settings_ c0) w)
    = Returned c1 ->
  outcome (run D (steps accepts settings_ ops c1) w1) <> Failed Undefined /\
  forall c2,
    outcome (run D (steps accepts settings_ ops c1) w1) = Returned c2 ->
    1 <= available c2.
Proof.
  intros Hcount Hb Hq Hrun1.
  destruct (post_run D _ _ w c1 (create_back_buffers_post accepts settings_
              c0 Hcount Hb Hq) Hrun1) as (Hlen & Hav & Hbor & Hu1).
  destruct (post_run D _ _ w c1
              (create_back_buffers_store accepts settings_ c0 Hcount Hb Hq)
              Hrun1) as [Hnew _].
  assert (Hlive1 : tokens_live c1).
  { intros p Hp. rewrite Hbor, app_nil_r in Hp. by apply Hnew. }
  assert (Hspare1 : pool_spare c1).
  { unfold pool_spare. rewrite Hlen, Hav, Hbor. cbn. lia. }
  split.
  - intros Hfail.
    by apply (never_run D _ _ w1 _ (steps_defined ops c1 Hlive1 Hspare1) Hfail).
  - intros c2 Hrun2.
    destruct (post_run D _ _ w1 c2 (steps_pool_kept accepts settings_ ops c1)
                Hrun2) as (_ & Hn & Hl & _).
    pose proof (borrowed_length c2). unfold pool_spare in Hspare1. lia.
Qed.

End Defined_behaviour.

(** ** The end of the context *)

Lemma post_true {A : Type} (p : Prog A) : post p (fun _ => True).
Proof. induction p; simpl; auto. Qed.

Lemma destroy_back_buffers_post (c : Context) :
  post (destroy_back_buffers c)
    (fun c' =>
       backBuffers_ c' = [] /\ acquireBuffers_ c' = [] /\
       dev c' = dev c /\ swapchain c' = swapchain c /\
       surface c' = surface c).
Proof.
  unfold destroy_back_buffers.
  eapply post_bind_strong; [apply post_true |]. intros h1 _.
  eapply post_bind_strong; [apply post_true |]. intros h2 _.
  by cbn.
Qed.

Lemma destroy_context_post (c : Context) :
  post (destroy_context c)
    (fun c' =>
       dev c' = VK_NULL_HANDLE /\
       (dev c <> VK_NULL_HANDLE ->
        swapchain c' = VK_NULL_HANDLE /\ surface c' = VK_NULL_HANDLE /\
        frameProcessor_queue c' = VK_NULL_HANDLE /\
        present_queue c' = VK_NULL_HANDLE /\
        video_queue c' = VK_NULL_HANDLE /\
        backBuffers_ c' = [] /\ acquireBuffers_ c' = [])).
Proof.
  unfold destroy_context, destroy_swapchain.
  destruct (N.eqb_spec (dev c) VK_NULL_HANDLE) as [Hnull | Hlive]; [done |].
  cbn. intros _.
  assert (Htail : forall c1,
    swapchain c1 = VK_NULL_HANDLE -> surface c1 = VK_NULL_HANDLE ->
    post (destroy_back_buffers c1 ≫= fun c2 =>
            Call (DestroyDevice (dev c2))
              (fun _ => Ret (set_dev VK_NULL_HANDLE
                               (set_video_queue VK_NULL_HANDLE
                                  (set_present_queue VK_NULL_HANDLE
                                     (set_frameProcessor_queue VK_NULL_HANDLE
                                        c2))))))
      (fun c' =>
         dev c' = VK_NULL_HANDLE /\
         (dev c <> VK_NULL_HANDLE ->
          swapchain c' = VK_NULL_HANDLE /\ surface c' = VK_NULL_HANDLE /\
          frameProcessor_queue c' = VK_NULL_HANDLE /\
          present_queue c' = VK_NULL_HANDLE /\
          video_queue c' = VK_NULL_HANDLE /\
          backBuffers_ c' = [] /\ acquireBuffers_ c' = []))).
  { intros c1 Hsc Hsurf.
    eapply post_bind_strong; [apply destroy_back_buffers_post |].
    intros c2 (Hb & Hq & _ & Hsc2 & Hsurf2). cbn. intros _.
    split; [done |]. intros _. by rewrite Hsc2, Hsurf2, Hsc, Hsurf. }
  destruct (swapchain c =? VK_NULL_HANDLE)%N eqn:Hsc; cbn.
  - intros _ _. apply Htail; [| done]. by apply N.eqb_eq in Hsc.
  - intros _ _ _ _. by apply Htail.
Qed.

(** X10. A [destroy_context] that returns leaves nothing behind: the
    device handle is null, and when there was a device, the swapchain, the
    surface and the three queue handles are null and the registry and the
    pool are empty. A further [destroy_context] returns at once without a
    single call. *)
Theorem destroy_context_leaves_nothing (D : Driver) (c c' : Context)
    (w : world D) :
  outcome (run D (destroy_context c) w) = Returned c' ->
  dev c' = VK_NULL_HANDLE /\
  (forall w' : world D,
     run D (destroy_context c') w' = mkRun (Returned c') w' []) /\
  (dev c <> VK_NULL_HANDLE ->
   swapchain c' = VK_NULL_HANDLE /\ surface c' = VK_NULL_HANDLE /\
   frameProcessor_queue c' = VK_NULL_HANDLE /\
   present_queue c' = VK_NULL_HANDLE /\
   video_queue c' = VK_NULL_HANDLE /\
   backBuffers_ c' = [] /\ acquireBuffers_ c' = []).
Proof.
  intros Hrun.
  destruct (post_run D _ _ w c' (destroy_context_post c) Hrun) as [Hdev Hrest].
  split; [done |]. split; [| done].
  intros w'. unfold destroy_context. by rewrite Hdev.
Qed.

(** ** The entry after an acquisition *)

Section Cycle_shape.

Context (accepts : VkResult -> bool) (settings_ : Settings).

(** X11. After every [acquire_back_buffer] that returns, the current
    index designates an entry of the registry and that entry holds a
    token, so that the present that follows finds its back buffer and the
    semaphore to signal. *)
Theorem acquire_back_buffer_current_entry (D : Driver) (c c' : Context)
    (trainFrame : bool) (w : world D) :
  outcome (run D (acquire_back_buffer accepts settings_ c trainFrame) w)
    = Returned c' ->
  exists back token,
    current_entry c' = Some back /\ acquireBuffer_ back = Some token.
Proof.
  intros Hrun.
  destruct (post_run D _ _ w c'
              (acquire_back_buffer_acquired accepts settings_ c trainFrame)
              Hrun)
    as [back token _ Hcur Htok -> | head popped imageIndex back
                                      Hq Hb Hq' Hb' Hcur _].
  - by exists back, token.
  - exists (BackBuffer_SetAcquireBuffer back imageIndex head).2, head.
    split; [| done]. unfold current_entry. rewrite Hcur, Hb'.
    apply list_lookup_insert_eq. by eapply lookup_lt_Some.
Qed.

End Cycle_shape.

(** ** Start-up *)

Lemma require_all_spec (what : string) (names : gset string)
    (required : list string) :
  match require_all what names required with
  | inr _ => forall name, name ∈ required -> name ∈ names
  | inl e =>
      (exists found name rest,
        required = found ++ name :: rest /\
        (forall n, n ∈ found -> n ∈ names) /\
        (name ∉ names) /\
        e = runtime_error (what +:+ name +:+ " is missing"))
  end.
Proof.
  induction required as [| name required IH]; cbn.
  - by intros ? ?%elem_of_nil.
  - destruct (decide (name ∈ names)) as [Hin | Hout].
    + destruct (require_all what names required).
      * destruct IH as (found & missing & rest & -> & Hfound & Hout & ->).
        exists (name :: found), missing, rest.
        split; [done |]. split; [| done].
        intros n [-> | ?]%elem_of_cons; auto.
      * intros n [-> | ?]%elem_of_cons; auto.
    + exists [], name, required. split; [done |].
      split; [by intros ? ?%elem_of_nil | done].
Qed.

(** X12. [assert_all_instance_extensions] and
    [assert_all_instance_layers] return exactly when every required name
    is among the enumerated ones; otherwise the exception names the first
    required name, in the order of the list, that was not enumerated. *)
Theorem assert_all_instance_names (required enumerated : list string) :
  match assert_all_instance_extensions required enumerated with
  | inr _ => forall name, name ∈ required -> name ∈ enumerated
  | inl e =>
      (exists found name rest,
        required = found ++ name :: rest /\
        (forall n, n ∈ found -> n ∈ enumerated) /\
        (name ∉ enumerated) /\
        e = runtime_error ("instance extension " +:+ name +:+ " is missing"))
  end /\
  match assert_all_instance_layers required enumerated with
  | inr _ => forall name, name ∈ required -> name ∈ enumerated
  | inl e =>
      (exists found name rest,
        required = found ++ name :: rest /\
        (forall n, n ∈ found -> n ∈ enumerated) /\
        (name ∉ enumerated) /\
        e = runtime_error ("instance layer " +:+ name +:+ " is missing"))
  end.
Proof.
  unfold assert_all_instance_extensions, assert_all_instance_layers.
  split.
  - pose proof (require_all_spec "instance extension "
                  (list_to_set enumerated) required) as H.
    destruct (require_all _ _ _).
    + destruct H as (found & name & rest & -> & Hfound & Hout & ->).
      exists found, name, rest. set_solver.
    + set_solver.
  - pose proof (require_all_spec "instance layer "
                  (list_to_set enumerated) required) as H.
    destruct (require_all _ _ _).
    + destruct H as (found & name & rest & -> & Hfound & Hout & ->).
      exists found, name, rest. set_solver.
    + set_solver.
Qed.

Lemma all_found_iff (names : gset string) (required : list string) :
  all_found names required = true <->
  forall name, name ∈ required -> name ∈ names.
Proof.
  induction required as [| name required IH]; cbn.
  - split; [by intros _ ? ?%elem_of_nil | done].
  - destruct (decide (name ∈ names)) as [Hin | Hout].
    + rewrite IH. split.
      * intros Hall n [-> | ?]%elem_of_cons; auto.
      * intros Hall n Hn. apply Hall. by right.
    + split; [done |]. intros Hall. destruct Hout. apply Hall. by left.
Qed.

Lemma has_all_device_extensions_spec (required exts : list string) :
  has_all_device_extensions required exts = true <->
  forall name, name ∈ required -> name ∈ exts.
Proof.
  unfold has_all_device_extensions. rewrite all_found_iff. set_solver.
Qed.

(** X13. [has_all_device_extensions] answers true exactly when every
    required device extension is among those the device enumerates; with
    the list that the constructor builds, a device without
    VK_KHR_swapchain is refused on every platform, and when Vulkan video
    is required so is a device that lacks VK_KHR_video_queue or
    VK_KHR_video_decode_queue. *)
Theorem has_all_device_extensions_iff (required exts : list string)
    (linux win32 video : bool) :
  (has_all_device_extensions required exts = true <->
   forall name, name ∈ required -> name ∈ exts) /\
  (has_all_device_extensions (Shell_device_extensions linux win32 video) exts
     = true ->
   "VK_KHR_swapchain" ∈ exts /\
   (video = true ->
    "VK_KHR_video_queue" ∈ exts /\ "VK_KHR_video_decode_queue" ∈ exts)).
Proof.
  split; [apply has_all_device_extensions_spec |].
  rewrite has_all_device_extensions_spec. intros Hall. split.
  - apply Hall. unfold Shell_device_extensions. set_solver.
  - intros ->. split; apply Hall; unfold Shell_device_extensions;
      rewrite !elem_of_app; right; right; right; set_solver.
Qed.

(** The loop over the queue families, with its early exit and its three
    running indices, finds the first family of each kind. *)
Lemma scan_families_first (video : bool) (d : PhysicalDevice)
    (queues : list QueueFamily) :
  forall (i : N) (f p v : Z),
    (-1 <= f)%Z -> (-1 <= p)%Z -> (-1 <= v)%Z ->
    scan_families video d i queues f p v =
      (keep_found f (first_family (fun _ q => graphics_capable q) i queues),
       keep_found p (first_family (fun j _ => can_present d j) i queues),
       keep_found v (if video
                     then first_family (fun _ q => decode_capable q) i queues
                     else (-1)%Z)).
Proof.
  induction queues as [| q queues IH]; intros i f p v Hf Hp Hv;
    cbn [scan_families first_family].
  - unfold keep_found. repeat case_match; repeat f_equal; lia.
  - cbn zeta.
    destruct (_ && _ && _) eqn:Hbreak.
    + rewrite !andb_true_iff, !Z.leb_le in Hbreak.
      destruct Hbreak as [[Hf' Hp'] Hv'].
      unfold keep_found in *.
      destruct video, (graphics_capable q), (can_present d i),
        (decode_capable q);
        cbn [andb] in *; rewrite ?andb_false_r, ?andb_true_r in *;
        repeat match goal with
               | |- context [(?a <? ?b)%Z] => destruct (Z.ltb_spec a b)
               | H : context [(?a <? ?b)%Z] |- _ => destruct (Z.ltb_spec a b)
               end;
        repeat f_equal; lia.
    + rewrite IH.
      * unfold keep_found.
        destruct video, (graphics_capable q), (can_present d i),
          (decode_capable q);
          cbn [andb]; rewrite ?andb_false_r, ?andb_true_r;
          repeat match goal with
                 | |- context [(?a <? ?b)%Z] => destruct (Z.ltb_spec a b)
                 end;
          repeat f_equal; lia.
      * repeat case_match; lia.
      * repeat case_match; lia.
      * repeat case_match; lia.
Qed.

Lemma first_family_found (P : N -> QueueFamily -> bool)
    (queues : list QueueFamily) :
  forall (i : N) (k : Z),
    first_family P i queues = k -> (0 <= k)%Z ->
    exists n q,
      k = Z.of_N (i + N.of_nat n) /\
      queues !! n = Some q /\
      P (i + N.of_nat n)%N q = true /\
      forall j q', j < n -> queues !! j = Some q' ->
                   P (i + N.of_nat j)%N q' = false.
Proof.
  induction queues as [| q queues IH]; intros i k Hk Hpos; cbn in Hk.
  - lia.
  - destruct (P i q) eqn:HP.
    + exists 0, q. rewrite N.add_0_r. repeat split; [done | done | lia].
    + destruct (IH (N.succ i) k Hk Hpos) as (n & q1 & -> & Hq1 & HP1 & Hmin).
      exists (S n), q1.
      replace (i + N.of_nat (S n))%N with (N.succ i + N.of_nat n)%N by lia.
      repeat split; [done | done |].
      intros [| j] q' Hj Hq'; cbn in Hq'.
      * injection Hq' as <-. by rewrite N.add_0_r.
      * replace (i + N.of_nat (S j))%N with (N.succ i + N.of_nat j)%N by lia.
        apply Hmin; [lia | done].
Qed.

Lemma first_family_first_with (P : N -> QueueFamily -> bool)
    (d : PhysicalDevice) :
  (0 <= first_family P 0 (families_of d))%Z ->
  first_with P d (first_family P 0 (families_of d)).
Proof.
  intros Hpos.
  destruct (first_family_found P (families_of d) 0 _ eq_refl Hpos)
    as (n & q & Hk & Hq & HP & Hmin).
  rewrite Hk. rewrite N.add_0_l in *. unfold first_with.
  replace (Z.to_nat (Z.of_N (N.of_nat n))) with n by lia.
  replace (Z.to_N (Z.of_N (N.of_nat n))) with (N.of_nat n) by lia.
  split; [lia |].
  split; [by exists q |]. intros j q' Hj Hq'.
  specialize (Hmin j q' Hj Hq'). by rewrite N.add_0_l in Hmin.
Qed.

(** One round of the loop over the devices. *)
Lemma select_physical_dev_cons (video : bool)
    (device_extensions_ : list string) (deviceID : N) (d : PhysicalDevice)
    (phys : list PhysicalDevice) :
  select_physical_dev video device_extensions_ deviceID (d :: phys) =
    if eligible video device_extensions_ deviceID d
    then Some (mkSelection (phy d)
                 (first_family (fun _ q => graphics_capable q) 0
                    (families_of d))
                 (first_family (fun i _ => can_present d i) 0 (families_of d))
                 (first_family (fun _ q => decode_capable q) 0
                    (families_of d)))
    else select_physical_dev video device_extensions_ deviceID phys.
Proof.
  cbn [select_physical_dev]. unfold eligible.
  destruct (nonzero deviceID && negb (deviceID_of d =? deviceID)%N);
    [done |].
  destruct (has_all_device_extensions device_extensions_ (extensions_of d));
    [| done].
  rewrite scan_families_first by lia. unfold keep_found. cbn.
  destruct video; cbn.
  - by destruct (0 <=? first_family _ 0 (families_of d))%Z,
      (0 <=? first_family (fun i _ => can_present d i) 0 (families_of d))%Z,
      (0 <=? first_family (fun _ q => decode_capable q) 0 (families_of d))%Z.
  - by rewrite !andb_false_r.
Qed.

(** The loop over the devices selects the first eligible one, with the
    first family of each kind. *)
Lemma select_physical_dev_first (video : bool)
    (device_extensions_ : list string) (deviceID : N)
    (phys : list PhysicalDevice) :
  match select_physical_dev video device_extensions_ deviceID phys with
  | Some s =>
      exists skipped d rest,
        phys = skipped ++ d :: rest /\
        Forall (fun d' => eligible video device_extensions_ deviceID d'
                          = false) skipped /\
        eligible video device_extensions_ deviceID d = true /\
        s = mkSelection (phy d)
              (first_family (fun _ q => graphics_capable q) 0 (families_of d))
              (first_family (fun i _ => can_present d i) 0 (families_of d))
              (first_family (fun _ q => decode_capable q) 0 (families_of d))
  | None =>
      Forall (fun d' => eligible video device_extensions_ deviceID d' = false)
        phys
  end.
Proof.
  induction phys as [| d phys IH]; [by constructor |].
  rewrite select_physical_dev_cons.
  destruct (eligible video device_extensions_ deviceID d) eqn:Hd.
  - exists [], d, phys. repeat split; [constructor | done].
  - destruct (select_physical_dev _ _ _ phys) as [s |].
    + destruct IH as (skipped & d0 & rest & -> & Hskipped & Hd0 & ->).
      exists (d :: skipped), d0, rest. repeat split; [| done].
      by constructor.
    + by constructor.
Qed.

(** X14. When the frame processor does not require Vulkan video, the
    decode family of every device stays at -1 and the test for all three
    families never holds: [init_physical_dev] selects no device, however
    capable the devices are, and ends with the exception for no capable
    device (or with the failure of the enumeration). *)
Theorem init_physical_dev_requires_video (accepts : VkResult -> bool)
    (device_extensions_ : list string) (deviceID : N) (r : VkResult)
    (phys : list PhysicalDevice) :
  init_physical_dev accepts false device_extensions_ deviceID r phys =
    if accepts r
    then inr (inl (runtime_error
                     "failed to find any capable Vulkan physical device"))
    else inl (VkFailure r).
Proof.
  unfold init_physical_dev. destruct (accepts r); [| done].
  pose proof (select_physical_dev_first false device_extensions_ deviceID phys)
    as Hsel.
  destruct (select_physical_dev _ _ _ phys) as [s |]; [| done].
  destruct Hsel as (_ & d & _ & _ & _ & Hd & _).
  unfold eligible in Hd. by rewrite andb_false_r in Hd.
Qed.

(** X15. When [init_physical_dev] selects, it selects the first device in
    enumeration order that passes the device-id filter, offers every
    required device extension and has a graphics, a presentable and a
    decoding queue family; every device before it lacks one of these. The
    three family indices written to the context are, for each kind, the
    lowest index of a family of that kind. *)
Theorem init_physical_dev_first_fit (accepts : VkResult -> bool)
    (video : bool) (device_extensions_ : list string) (deviceID : N)
    (r : VkResult) (phys : list PhysicalDevice) (s : Selection) :
  init_physical_dev accepts video device_extensions_ deviceID r phys
    = inr (inr s) ->
  exists skipped d rest,
    phys = skipped ++ d :: rest /\
    Forall (fun d' => eligible video device_extensions_ deviceID d' = false)
      skipped /\
    sel_physical_dev s = phy d /\
    (deviceID = 0%N \/ deviceID_of d = deviceID) /\
    (forall name, name ∈ device_extensions_ -> name ∈ extensions_of d) /\
    first_with (fun _ q => graphics_capable q) d
      (sel_frameProcessor_queue_family s) /\
    first_with (fun i _ => can_present d i) d (sel_present_queue_family s) /\
    first_with (fun _ q => decode_capable q) d
      (sel_video_decode_queue_family s).
Proof.
  unfold init_physical_dev. destruct (accepts r); [| done].
  pose proof (select_physical_dev_first video device_extensions_ deviceID phys)
    as Hsel.
  destruct (select_physical_dev _ _ _ phys) as [s' |]; [| done].
  destruct (sel_physical_dev s' =? VK_NULL_HANDLE)%N; [done |].
  intros [= <-].
  destruct Hsel as (skipped & d & rest & -> & Hskipped & Hd & ->).
  exists skipped, d, rest. cbn.
  unfold eligible in Hd. rewrite !andb_true_iff, !Z.leb_le in Hd.
  destruct Hd as [[[[[Hid Hext] _] Hg] Hp] Hv].
  repeat split; try done.
  - apply negb_true_iff, andb_false_iff in Hid as [Hid | Hid].
    + left. by apply nonzero_false.
    + right. by apply negb_false_iff, N.eqb_eq in Hid.
  - by apply has_all_device_extensions_spec.
  - by apply first_family_first_with.
  - by apply first_family_first_with.
  - by apply first_family_first_with.
  - by apply first_family_first_with.
  - by apply first_family_first_with.
  - by apply first_family_first_with.
Qed.

(** ** The queues of the device *)

(** X16. [create_dev] asks for one, two or three queue infos, and the
    families they name are pairwise distinct exactly when there is no
    decode family or the decode family differs from both the render and
    the present family: the present family is left out when it is the
    render family, the decode family is not compared with either. *)
Theorem create_dev_queue_info_families (queue_count frameProcessor_queue_family
    present_queue_family video_decode_queue_family : N) :
  let queue_info :=
    create_dev_queue_info queue_count frameProcessor_queue_family
      present_queue_family video_decode_queue_family in
  1 <= length queue_info <= 3 /\
  (NoDup (dq_queueFamilyIndex <$> queue_info) <->
   video_decode_queue_family = UINT32_MAX \/
   (video_decode_queue_family <> frameProcessor_queue_family /\
    video_decode_queue_family <> present_queue_family)).
Proof.
  cbn zeta. unfold create_dev_queue_info.
  destruct (N.eqb_spec frameProcessor_queue_family present_queue_family)
    as [<- | Hfp];
    destruct (N.eqb_spec video_decode_queue_family UINT32_MAX) as [Hv | Hv];
    cbn; (split; [lia |]).
  - split; [by left | intros _; apply NoDup_singleton].
  - rewrite NoDup_cons, list_elem_of_singleton. split.
    + intros [Hne _]. right. split; congruence.
    + intros [? | [Hne _]]; [done |].
      split; [congruence | apply NoDup_singleton].
  - split; [by left |]. intros _.
    rewrite NoDup_cons, list_elem_of_singleton.
    split; [done | apply NoDup_singleton].
  - rewrite !NoDup_cons, !elem_of_cons, !elem_of_nil. split.
    + intros (Hf & Hp & _). right. split.
      * intros ->. apply Hf. right. by left.
      * intros ->. apply Hp. by left.
    + intros [? | [Hvf Hvp]]; [done |]. split; [| split].
      * intros [? | [? | []]]; congruence.
      * intros [? | []]. congruence.
      * split; [by intros [] | apply NoDup_nil_2].
Qed.

(** ** The ticks of the frame processor *)

Section Tick_count.

Context (float : Type) (fadd fsub : float -> float -> float)
  (fge : float -> float -> bool).

Lemma tick_loop_spec (max_ticks : nat) (time tick : float) :
  let '(ticks, remaining) := tick_loop float fsub fge max_ticks time tick in
  ticks <= max_ticks /\
  remaining = Nat.iter ticks (fun t => fsub t tick) time /\
  (forall k, k < ticks ->
     fge (Nat.iter k (fun t => fsub t tick) time) tick = true) /\
  (ticks < max_ticks -> fge remaining tick = false).
Proof.
  revert time. induction max_ticks as [| n IH]; intros time; cbn.
  - repeat split; lia.
  - destruct (fge time tick) eqn:Hge.
    + specialize (IH (fsub time tick)).
      destruct (tick_loop float fsub fge n (fsub time tick) tick)
        as [ticks remaining].
      destruct IH as (Hle & Hrem & Hbefore & Hstop).
      split; [lia |]. split; [by rewrite Nat.iter_succ_r |]. split.
      * intros [| k] Hk; [done |]. rewrite Nat.iter_succ_r.
        apply Hbefore. lia.
      * intros Hlt. apply Hstop. lia.
    + repeat split; try done; lia.
Qed.

(** X17. One call of [add_frameProcessor_time] makes at most three ticks,
    whatever the times are and however the floating-point operations
    behave. Each tick found the time at or above the tick length and took
    the tick length off it; when fewer than three ticks were made, the
    time left is not at or above the tick length. In no-tick mode the
    elapsed time is not added. *)
Theorem add_frameProcessor_time_ticks (no_tick : bool)
    (frameProcessor_time_ frameProcessor_tick_ time : float) :
  let start := if no_tick then frameProcessor_time_
               else fadd frameProcessor_time_ time in
  let less := fun t => fsub t frameProcessor_tick_ in
  let '(ticks, remaining) :=
    add_frameProcessor_time float fadd fsub fge no_tick frameProcessor_time_
      frameProcessor_tick_ time in
  ticks <= 3 /\
  remaining = Nat.iter ticks less start /\
  (forall k, k < ticks ->
     fge (Nat.iter k less start) frameProcessor_tick_ = true) /\
  (ticks < 3 -> fge remaining frameProcessor_tick_ = false).
Proof.
  cbn zeta. unfold add_frameProcessor_time. apply tick_loop_spec.
Qed.

End Tick_count.

(** ** The first resize *)

Section First_resize.

Context (accepts : VkResult -> bool) (settings_ : Settings).

(** X18. [create_swapchain] defers the swapchain to [resize_swapchain]:
    on the context that it returns, a resize that returns either settled
    on the extent of [(uint32_t)-1] by [(uint32_t)-1], made the capability
    query only and left the context without a swapchain; or it made the
    query, asked for the present modes, created one swapchain and attached
    the consumer, without detaching, waiting or destroying anything. That
    swapchain is created on the surface that the platform created, with no
    old swapchain, and with the first surface format that was enumerated
    (its format replaced on Tegra). *)
Theorem create_swapchain_defers_to_resize (D : Driver) (tegra : bool)
    (c0 c c' : Context) (created_surface : VkHandle) (r : VkResult)
    (supported : bool) (formats : list VkSurfaceFormatKHR)
    (width_hint height_hint : N) (w : world D) :
  create_swapchain accepts tegra c0 created_surface r supported formats
    = inr c ->
  outcome (run D (resize_swapchain accepts settings_ c width_hint height_hint)
             w) = Returned c' ->
  let query := Ev (GetPhysicalDeviceSurfaceCapabilitiesKHR (physical_dev c0)
                     created_surface) in
  (trace (run D (resize_swapchain accepts settings_ c width_hint height_hint)
            w) = [query] /\
   c' = c /\ swapchain c' = VK_NULL_HANDLE /\
   extent c' = mkExtent UINT32_MAX UINT32_MAX) \/
  (exists info first_format rest,
     trace (run D (resize_swapchain accepts settings_ c width_hint
                     height_hint) w) =
       [query; Ev (GetSurfacePresentModes (physical_dev c0) created_surface);
        Ev (CreateSwapchainKHR (dev c0) info); Ev fp_attach_swapchain] /\
     formats = first_format :: rest /\
     sci_surface info = created_surface /\
     sci_oldSwapchain info = VK_NULL_HANDLE /\
     sci_imageFormat info =
       (if tegra then VK_FORMAT_A8B8G8R8_UNORM_PACK32
        else sf_format first_format) /\
     sci_imageColorSpace info = sf_colorSpace first_format /\
     sci_imageExtent info = extent c' /\
     extent c' <> mkExtent UINT32_MAX UINT32_MAX).
Proof.
  intros Hcreate.
  assert (Hc : physical_dev c = physical_dev c0 /\ dev c = dev c0 /\
               surface c = created_surface /\
               swapchain c = VK_NULL_HANDLE /\
               extent c = mkExtent UINT32_MAX UINT32_MAX /\
               exists first_format rest,
                 formats = first_format :: rest /\
                 sf_format (format c) =
                   (if tegra then VK_FORMAT_A8B8G8R8_UNORM_PACK32
                    else sf_format first_format) /\
                 sf_colorSpace (format c) = sf_colorSpace first_format).
  { unfold create_swapchain in Hcreate. cbn in Hcreate.
    destruct (created_surface =? VK_NULL_HANDLE)%N; [done |].
    destruct (accepts r); [| done]. destruct supported; [| done].
    cbn in Hcreate. destruct formats as [| first_format rest]; [done |].
    injection Hcreate as <-.
    repeat (split; [by destruct tegra |]).
    exists first_format, rest. by destruct tegra. }
  destruct Hc as (Hphys & Hdev & Hsurf & Hsc & Hext & first_format & rest
                  & -> & Hfmt & Hcs).
  clear Hcreate. unfold resize_swapchain, assert_success. cbn.
  rewrite Hphys, Hsurf, Hdev, Hsc.
  destruct (answer D _ (GetPhysicalDeviceSurfaceCapabilitiesKHR _ _) w)
    as [[r1 caps] w1]; cbn.
  destruct (accepts r1); cbn; [| done].
  destruct (_ && _) eqn:Hsame; cbn.
  - intros [= <-]. left. done.
  - destruct (nonzero (N.land (supportedUsageFlags caps) _)); cbn; [| done].
    destruct (nonzero (N.land (supportedTransforms caps) _)); cbn; [| done].
    destruct (nonzero (N.land _ (N.lor _ _))); cbn; [| done].
    destruct (answer D _ (GetSurfacePresentModes _ _) w1) as [modes w2]; cbn.
    destruct (answer D _ (CreateSwapchainKHR _ _) w2) as [[r2 sc] w3]; cbn.
    destruct (accepts r2); cbn; [| done].
    destruct (answer D _ fp_attach_swapchain w3) as [[] w4]; cbn.
    intros [= <-]. right. eexists _, first_format, rest.
    split; [reflexivity |]. cbn. repeat (split; [done |]).
    intros Hmax. rewrite <- Hext in Hmax. symmetry in Hmax.
    apply extent_eqb in Hmax. congruence.
Qed.

End First_resize.

(** ** The further properties on the sample runs *)

(** X2 on the sample run: the first resize asks for the configured 2
    images, in the range from 2 to 8. *)
Lemma resize_image_count_in_range_witness :
  (minImageCount sample_caps <= maxImageCount sample_caps)%N /\
  outcome (run sim (resize_swapchain only_success sample_settings
                      sample_created 800%N 600%N) (final run_created))
    = Returned sample_resized /\
  exists info,
    Ev (CreateSwapchainKHR 3%N info)
      ∈ trace (run sim (resize_swapchain only_success sample_settings
                          sample_created 800%N 600%N) (final run_created)) /\
    sci_minImageCount info = 2%N.
Proof.
  assert (Hrange : (minImageCount sample_caps <= maxImageCount sample_caps)%N)
    by (vm_compute; done).
  assert (Hrun : outcome (run sim (resize_swapchain only_success
                                     sample_settings sample_created 800%N
                                     600%N) (final run_created))
                 = Returned sample_resized) by (vm_compute; reflexivity).
  assert (Hext : extent sample_resized <> extent sample_created)
    by (vm_compute; done).
  split; [exact Hrange |]. split; [exact Hrun |].
  destruct (resize_image_count_in_range only_success sample_settings sim
              sample_created 800%N 600%N (final run_created) Hrange)
    as [_ Hcreated].
  destruct (Hcreated sample_resized Hrun Hext)
    as (info & Hin & _ & Hconfigured).
  exists info. split; [exact Hin |].
  apply Hconfigured. vm_compute. split; done.
Defined.

(** X3 on a platform whose largest image count is zero: the first resize
    asks for no image. *)
Lemma resize_image_count_zero_max_witness :
  maxImageCount caps_zero_max = 0%N /\
  outcome (run sim (resize_swapchain only_success sample_settings
                      sample_created 800%N 600%N) world_zero_max)
    = Returned sample_zero_max /\
  exists info,
    Ev (CreateSwapchainKHR 3%N info)
      ∈ trace (run sim (resize_swapchain only_success sample_settings
                          sample_created 800%N 600%N) world_zero_max) /\
    sci_minImageCount info = 0%N.
Proof.
  assert (Hrun : outcome (run sim (resize_swapchain only_success
                                     sample_settings sample_created 800%N
                                     600%N) world_zero_max)
                 = Returned sample_zero_max) by (vm_compute; reflexivity).
  assert (Hext : extent sample_zero_max <> extent sample_created)
    by (vm_compute; done).
  split; [reflexivity |]. split; [exact Hrun |].
  destruct (resize_image_count_zero_max only_success sample_settings sim
              sample_created 800%N 600%N world_zero_max)
    as [_ Hcreated]; [reflexivity | vm_compute; done | vm_compute; done |].
  exact (Hcreated sample_zero_max Hrun Hext).
Defined.

(** X5 on the sample run: the first resize asks for the colour
    attachment, the current transform and, inherit not being supported,
    the opaque composite alpha. *)
Lemma resize_swapchain_supported_witness :
  outcome (run sim (resize_swapchain only_success sample_settings
                      sample_created 800%N 600%N) (final run_created))
    = Returned sample_resized /\
  exists info,
    Ev (CreateSwapchainKHR 3%N info)
      ∈ trace (run sim (resize_swapchain only_success sample_settings
                          sample_created 800%N 600%N) (final run_created)) /\
    sci_oldSwapchain info = VK_NULL_HANDLE /\
    sci_imageUsage info = VK_IMAGE_USAGE_COLOR_ATTACHMENT_BIT /\
    sci_preTransform info = 1%N /\
    sci_compositeAlpha info = VK_COMPOSITE_ALPHA_OPAQUE_BIT_KHR.
Proof.
  assert (Hrun : outcome (run sim (resize_swapchain only_success
                                     sample_settings sample_created 800%N
                                     600%N) (final run_created))
                 = Returned sample_resized) by (vm_compute; reflexivity).
  assert (Hext : extent sample_resized <> extent sample_created)
    by (vm_compute; done).
  split; [exact Hrun |].
  destruct (resize_swapchain_supported only_success sample_settings sim
              sample_created 800%N 600%N (final run_created))
    as [_ Hcreated].
  destruct (Hcreated sample_resized Hrun Hext)
    as (info & Hin & Hold & Husage & _ & Hpre & _ & Halpha & _).
  exists info. split; [exact Hin |]. split; [exact Hold |].
  split; [exact Husage |]. split; [exact Hpre | exact Halpha].
Defined.

(** X6 on a platform that supports no image usage: the resize fails on
    its first assertion, after the capability query. *)
Lemma resize_swapchain_failure_replaces_nothing_witness :
  outcome (run sim (resize_swapchain only_success sample_settings
                      sample_created 800%N 600%N) world_no_usage)
    = Failed AssertFailure /\
  Forall (fun ev => is_replacement ev = false)
    (trace (run sim (resize_swapchain only_success sample_settings
                       sample_created 800%N 600%N) world_no_usage)).
Proof.
  assert (Hrun : outcome (run sim (resize_swapchain only_success
                                     sample_settings sample_created 800%N
                                     600%N) world_no_usage)
                 = Failed AssertFailure) by (vm_compute; reflexivity).
  split; [exact Hrun |].
  exact (resize_swapchain_failure_replaces_nothing only_success
           sample_settings sim sample_created 800%N 600%N world_no_usage
           AssertFailure Hrun).
Defined.

(** X7 on the sample run after five cycles. *)
Lemma destroy_back_buffers_frees_once_witness :
  tokens_unique sample_cycled /\
  tokens_live sample_cycled /\
  exists c',
    outcome (run sim (destroy_back_buffers sample_cycled) (final run_cycled))
      = Returned c' /\
    backBuffers_ c' = [] /\ acquireBuffers_ c' = [].
Proof.
  assert (Hu : tokens_unique sample_cycled)
    by (apply (bool_decide_unpack _); vm_compute; exact I).
  assert (Hlive : tokens_live sample_cycled).
  { unfold tokens_live. apply Forall_forall.
    apply (bool_decide_unpack _). vm_compute. exact I. }
  split; [exact Hu |]. split; [exact Hlive |].
  destruct (destroy_back_buffers_frees_once sim sample_cycled
              (final run_cycled) Hu Hlive) as (c' & Hrun & Hb & Hq & _).
  exists c'. split; [exact Hrun |]. split; [exact Hb | exact Hq].
Defined.

(** X8 on the sample run: creation, two cycles, destruction. *)
Lemma create_use_destroy_witness :
  (0 <= back_buffer_count sample_settings)%Z /\
  backBuffers_ sample_context = [] /\
  acquireBuffers_ sample_context = [] /\
  outcome (run sim (create_back_buffers only_success sample_settings
                      sample_context) sample_world) = Returned sample_created /\
  outcome (run sim (steps only_success sample_settings
                      (cycle_ops [true; false]) sample_created)
             (final run_created)) = Returned sample_used /\
  exists c3,
    outcome (run sim (destroy_back_buffers sample_used) (final run_used))
      = Returned c3 /\
    free_store c3 = free_store sample_context.
Proof.
  assert (Hcount : (0 <= back_buffer_count sample_settings)%Z)
    by (vm_compute; done).
  assert (Hrun1 : outcome (run sim (create_back_buffers only_success
                                      sample_settings sample_context)
                             sample_world) = Returned sample_created)
    by (vm_compute; reflexivity).
  assert (Hrun2 : outcome (run sim (steps only_success sample_settings
                                      (cycle_ops [true; false]) sample_created)
                             (final run_created)) = Returned sample_used)
    by (vm_compute; reflexivity).
  split; [exact Hcount |]. split; [reflexivity |]. split; [reflexivity |].
  split; [exact Hrun1 |]. split; [exact Hrun2 |].
  destruct (create_use_destroy only_success sample_settings sim
              sample_context sample_created sample_used
              (cycle_ops [true; false]) sample_world (final run_created)
              (final run_used) Hcount eq_refl eq_refl Hrun1 Hrun2)
    as (c3 & Hrun3 & _ & _ & Hstore).
  exists c3. split; [exact Hrun3 | exact Hstore].
Defined.

(** X9 on the sample run: two cycles after creation. *)
Lemma cycle_defined_witness :
  (0 <= back_buffer_count sample_settings)%Z /\
  outcome (run sim (create_back_buffers only_success sample_settings
                      sample_context) sample_world) = Returned sample_created /\
  outcome (run sim (steps only_success sample_settings
                      (cycle_ops [true; false]) sample_created)
             (final run_created)) = Returned sample_used /\
  1 <= available sample_used.
Proof.
  assert (Hcount : (0 <= back_buffer_count sample_settings)%Z)
    by (vm_compute; done).
  assert (Hrun1 : outcome (run sim (create_back_buffers only_success
                                      sample_settings sample_context)
                             sample_world) = Returned sample_created)
    by (vm_compute; reflexivity).
  assert (Hrun2 : outcome (run sim (steps only_success sample_settings
                                      (cycle_ops [true; false]) sample_created)
                             (final run_created)) = Returned sample_used)
    by (vm_compute; reflexivity).
  split; [exact Hcount |]. split; [exact Hrun1 |]. split; [exact Hrun2 |].
  destruct (cycle_defined only_success sample_settings sim sample_context
              sample_created (cycle_ops [true; false]) sample_world
              (final run_created) Hcount eq_refl eq_refl Hrun1)
    as [_ Hspare].
  exact (Hspare sample_used Hrun2).
Defined.

(** X10 on the sample run after the first acquisition. *)
Lemma destroy_context_leaves_nothing_witness :
  outcome (run sim (destroy_context sample_acquired) (final run_acquired))
    = Returned sample_destroyed /\
  dev sample_destroyed = VK_NULL_HANDLE /\
  run sim (destroy_context sample_destroyed) (final run_destroyed) =
    mkRun (Returned sample_destroyed) (final run_destroyed) [].
Proof.
  assert (Hrun : outcome (run sim (destroy_context sample_acquired)
                            (final run_acquired)) = Returned sample_destroyed)
    by (vm_compute; reflexivity).
  split; [exact Hrun |].
  destruct (destroy_context_leaves_nothing sim sample_acquired
              sample_destroyed (final run_acquired) Hrun)
    as (Hdev & Hagain & _).
  split; [exact Hdev | apply Hagain].
Defined.

(** X11 on the sample run: the first acquisition. *)
Lemma acquire_back_buffer_current_entry_witness :
  outcome (run sim (acquire_back_buffer only_success sample_settings
                      sample_resized true) (final run_resized))
    = Returned sample_acquired /\
  exists back token,
    current_entry sample_acquired = Some back /\
    acquireBuffer_ back = Some token.
Proof.
  assert (Hrun : outcome (run sim (acquire_back_buffer only_success
                                     sample_settings sample_resized true)
                            (final run_resized)) = Returned sample_acquired)
    by (vm_compute; reflexivity).
  split; [exact Hrun |].
  exact (acquire_back_buffer_current_entry only_success sample_settings sim
           sample_resized sample_acquired true (final run_resized) Hrun).
Defined.

(** X15 on the sample devices: the first device lacks the video
    extensions, the second is selected with the families 0, 1 and 1. *)
Lemma init_physical_dev_first_fit_witness :
  init_physical_dev only_success true (Shell_device_extensions true false true)
    0%N VK_SUCCESS sample_devices = inr (inr (mkSelection 12%N 0 1 1)) /\
  exists skipped d rest,
    sample_devices = skipped ++ d :: rest /\
    Forall (fun d' => eligible true (Shell_device_extensions true false true)
                        0%N d' = false) skipped /\
    phy d = 12%N.
Proof.
  assert (Hsel : init_physical_dev only_success true
                   (Shell_device_extensions true false true) 0%N VK_SUCCESS
                   sample_devices = inr (inr (mkSelection 12%N 0 1 1)))
    by (vm_compute; reflexivity).
  split; [exact Hsel |].
  destruct (init_physical_dev_first_fit only_success true
              (Shell_device_extensions true false true) 0%N VK_SUCCESS
              sample_devices (mkSelection 12%N 0 1 1) Hsel)
    as (skipped & d & rest & Hsplit & Hskipped & Hphy & _).
  exists skipped, d, rest.
  split; [exact Hsplit |]. split; [exact Hskipped |].
  symmetry. exact Hphy.
Defined.

(** X18 on the sample run: the first resize, to 800 by 600, creates the
    swapchain without an old one. *)
Lemma create_swapchain_defers_to_resize_witness :
  create_swapchain only_success false sample_created 6%N VK_SUCCESS true
    [mkFormat 44 0] = inr sample_created /\
  outcome (run sim (resize_swapchain only_success sample_settings
                      sample_created 800%N 600%N) (final run_created))
    = Returned sample_resized /\
  exists info,
    trace (run sim (resize_swapchain only_success sample_settings
                      sample_created 800%N 600%N) (final run_created)) =
      [Ev (GetPhysicalDeviceSurfaceCapabilitiesKHR 2%N 6%N);
       Ev (GetSurfacePresentModes 2%N 6%N);
       Ev (CreateSwapchainKHR 3%N info); Ev fp_attach_swapchain] /\
    sci_oldSwapchain info = VK_NULL_HANDLE.
Proof.
  assert (Hcreate : create_swapchain only_success false sample_created 6%N
                      VK_SUCCESS true [mkFormat 44 0] = inr sample_created)
    by (vm_compute; reflexivity).
  assert (Hrun : outcome (run sim (resize_swapchain only_success
                                     sample_settings sample_created 800%N
                                     600%N) (final run_created))
                 = Returned sample_resized) by (vm_compute; reflexivity).
  split; [exact Hcreate |]. split; [exact Hrun |].
  destruct (create_swapchain_defers_to_resize only_success sample_settings
              sim false sample_created sample_created sample_resized 6%N
              VK_SUCCESS true [mkFormat 44 0] 800%N 600%N (final run_created)
              Hcreate Hrun)
    as [(_ & _ & _ & Hext) | (info & first_format & rest & Htr & _ & _ & Hold
                              & _)].
  - exfalso. revert Hext. vm_compute. discriminate.
  - exists info. split; [exact Htr | exact Hold].
Defined.
